(** * cdn-latency-tester: a shallow embedding of the measurement engine

    The development follows the Go sources file by file:
    - [model.go]   : [RequestResult], [Summary]
    - [config.go]  : [Protocol], [Endpoint], [parseProtocol], [LoadConfig]
    - [client.go]  : [createHTTP1Client], [createHTTP2Client],
                     [createHTTP3Client], [measureRequest]
    - [report.go]  : [percentile], [calculateSummary], the rows of
                     [printDetailTable] and [printSummaryTable]
    - [main.go]    : [runParallelRound], the round loop of [main] and
                     [main] from the loaded configuration to the report
    - [exporter.go]: [NewTestReport], [AddResults], [Finalize] and the
                     template functions [perfClass], [cdnPerfClass],
                     [safeID]

    Go's [float64] is Rocq's primitive binary64 [float]; [int] and
    [time.Duration] are [Z]; strings are byte strings; the map of result
    sequences is a [gmap]; slices are lists, and, where aliasing matters,
    windows on arrays held in a store ([Module Mem]).

    Library functions whose code is not part of the repository are
    parameters of the sections that use them ([sort.Float64s],
    [strconv.ParseFloat], [strings.TrimSpace], [net.SplitHostPort],
    [fmt.Sprintf], [os.ReadFile], [yaml.Unmarshal],
    [time.ParseDuration]); a concrete instance of each is given at the end of the
    definitions so that every statement can be run on examples. *)

From Stdlib Require Import ZArith Lia Bool List Floats Uint63.
From Stdlib Require Import Strings.String Strings.Ascii.
From stdpp Require Import base option list strings pretty gmap sorting.

Set Warnings "-inexact-float".

(* ================================================================= *)
(** ** float64 and the conversions Go performs on it *)

Module F64.

(** [float64(n)] for an [int] [n]: the nearest binary64 value. *)
Definition float64_of_int (z : Z) : float :=
  if (z <? 0)%Z then (- of_uint63 (Uint63.of_Z (- z)))%float
  else of_uint63 (Uint63.of_Z z).

(** [int(f)]: truncation toward zero.  Go leaves the conversion of NaN,
    of an infinity and of a value outside [int]'s range to the
    implementation; the model returns [None] there. *)
Definition float64_to_int (f : float) : option Z :=
  match Prim2SF f with
  | S754_zero _ => Some 0%Z
  | S754_finite s m e =>
      let t := cond_Zopp s (Z.shiftl (Zpos m) e) in
      if ((- 2 ^ 63 <=? t) && (t <? 2 ^ 63))%Z then Some t else None
  | _ => None
  end.

(** [math.IsNaN]. *)
Definition isNaN (x : float) : bool := negb (x =? x)%float.

(** The order [sort.Float64s] sorts by: [x < y || (isNaN(x) && !isNaN(y))]. *)
Definition lessFloat (x y : float) : bool :=
  (x <? y)%float || (isNaN x && negb (isNaN y)).

(** [x] does not come after [y] in that order. *)
Definition float_le (x y : float) : Prop := lessFloat y x = false.

#[export] Instance float_le_dec (x y : float) : Decision (float_le x y).
Proof. unfold float_le. apply _. Defined.

(** The same order on the specification side of the binary64 format. *)
Definition SFisnan (a : spec_float) : bool :=
  match a with S754_nan => true | _ => false end.

Definition SFless (a b : spec_float) : bool :=
  SFltb a b || (SFisnan a && negb (SFisnan b)).

End F64.
Export F64.

(* ================================================================= *)
(** ** Strings *)

(** [strings.TrimSuffix]. *)
Fixpoint TrimSuffix (s suffix : string) : string :=
  if String.eqb s suffix then EmptyString
  else match s with
       | EmptyString => EmptyString
       | String c s' => String c (TrimSuffix s' suffix)
       end.

(** [strings.IndexByte(s, c) >= 0]. *)
Fixpoint containsByte (c : ascii) (s : string) : bool :=
  match s with
  | EmptyString => false
  | String d s' => Ascii.eqb c d || containsByte c s'
  end.

(** [net.JoinHostPort]: a host with a colon is bracketed. *)
Definition JoinHostPort (host port : string) : string :=
  if containsByte ":"%char host then ("[" ++ host ++ "]:" ++ port)%string
  else (host ++ ":" ++ port)%string.

(* ================================================================= *)
(** ** config.go *)

(** [type Protocol int] with [HTTP1], [HTTP2], [HTTP3] = 0, 1, 2. *)
Definition Protocol := Z.
Definition HTTP1 : Protocol := 0%Z.
Definition HTTP2 : Protocol := 1%Z.
Definition HTTP3 : Protocol := 2%Z.

Definition Protocol_String (p : Protocol) : string :=
  match p with
  | 0%Z => "HTTP/1.1"
  | 1%Z => "HTTP/2"
  | 2%Z => "HTTP/3"
  | _ => "Unknown"
  end.

Definition parseProtocol (s : string) : Protocol :=
  if String.eqb s "HTTP/3" || String.eqb s "http3" || String.eqb s "h3" then HTTP3
  else if String.eqb s "HTTP/2" || String.eqb s "http2" || String.eqb s "h2" then HTTP2
  else HTTP1.

Record Endpoint := mkEndpoint {
  IP : string;
  EndpointProtocol : Protocol;   (* field [Protocol] *)
  Name : string
}.

(** One entry of [yamlConfig.Endpoints] and the conversion [LoadConfig]
    applies to it. *)
Record yamlEndpoint := mkYamlEndpoint {
  yaml_name : string;
  yaml_ip : string;
  yaml_protocol : string
}.

Definition loadEndpoint (ep : yamlEndpoint) : Endpoint :=
  {| Name := yaml_name ep; IP := yaml_ip ep;
     EndpointProtocol := parseProtocol (yaml_protocol ep) |}.

(* ================================================================= *)
(** ** model.go *)

(** [time.Duration]: nanoseconds. *)
Definition Duration := Z.

(** [d.Microseconds()]: integer division truncating toward zero. *)
Definition Microseconds (d : Duration) : Z := Z.quot d 1000.

Record RequestResult := mkRequestResult {
  Index : Z;
  TTFB : Duration;
  XResponseTime : float;
  CDNLatency : float;
  StatusCode : Z;
  Reused : bool;
  ActualProto : string;
  Error : string
}.

(** The zero value [RequestResult{}]. *)
Definition zeroRequestResult : RequestResult :=
  {| Index := 0%Z; TTFB := 0%Z; XResponseTime := 0%float; CDNLatency := 0%float;
     StatusCode := 0%Z; Reused := false; ActualProto := ""; Error := "" |}.

Record Summary := mkSummary {
  EndpointName : string;
  ProtocolName : string;         (* field [Protocol] *)
  TotalTests : Z;
  SuccessCount : Z;
  FailCount : Z;
  HasCDN : bool;
  TTFBAvg : float; TTFBMin : float; TTFBMax : float;
  TTFBP50 : float; TTFBP90 : float; TTFBP95 : float; TTFBP99 : float;
  CDNLatencyAvg : float; CDNLatencyMin : float; CDNLatencyMax : float;
  CDNLatencyP50 : float; CDNLatencyP90 : float; CDNLatencyP95 : float;
  CDNLatencyP99 : float;
  XResponseTimeAvg : float
}.

(** [float64(d.Microseconds()) / 1000.0]: a duration in milliseconds. *)
Definition ttfbMs (d : Duration) : float :=
  (float64_of_int (Microseconds d) / 1000)%float.

(** Field updates [result.F = v] on a [RequestResult]. *)
Definition set_Index (r : RequestResult) (v : Z) : RequestResult :=
  {| Index := v; TTFB := TTFB r; XResponseTime := XResponseTime r;
     CDNLatency := CDNLatency r; StatusCode := StatusCode r; Reused := Reused r;
     ActualProto := ActualProto r; Error := Error r |}.

Definition set_XResponseTime (r : RequestResult) (v : float) : RequestResult :=
  {| Index := Index r; TTFB := TTFB r; XResponseTime := v;
     CDNLatency := CDNLatency r; StatusCode := StatusCode r; Reused := Reused r;
     ActualProto := ActualProto r; Error := Error r |}.

Definition set_CDNLatency (r : RequestResult) (v : float) : RequestResult :=
  {| Index := Index r; TTFB := TTFB r; XResponseTime := XResponseTime r;
     CDNLatency := v; StatusCode := StatusCode r; Reused := Reused r;
     ActualProto := ActualProto r; Error := Error r |}.

Definition set_Error (r : RequestResult) (v : string) : RequestResult :=
  {| Index := Index r; TTFB := TTFB r; XResponseTime := XResponseTime r;
     CDNLatency := CDNLatency r; StatusCode := StatusCode r; Reused := Reused r;
     ActualProto := ActualProto r; Error := v |}.

(* ================================================================= *)
(** ** client.go: transport handles *)

Definition Second : Duration := 1000000000%Z.

(** What the factories configure: an [http.Transport] whose [DialContext]
    closes over the forced IP, or an [http3.Transport] whose [Dial] does. *)
Inductive RoundTripper :=
| HTTPTransport (forcedIP : string) (dialTimeout keepAlive : Duration)
    (InsecureSkipVerify : bool) (NextProtos : list string)
    (ForceAttemptHTTP2 : bool) (MaxIdleConns MaxIdleConnsPerHost : Z)
    (IdleConnTimeout : Duration)
| HTTP3Transport (forcedIP : string) (InsecureSkipVerify : bool).

Record Client := mkClient {
  Transport : RoundTripper;
  Timeout : Duration
}.

Definition createHTTP1Client (ip : string) (timeout : Duration) : Client :=
  {| Transport := HTTPTransport ip timeout (30 * Second)%Z false ["http/1.1"%string]
                    false 100%Z 100%Z (90 * Second)%Z;
     Timeout := timeout |}.

Definition createHTTP2Client (ip : string) (timeout : Duration) : Client :=
  {| Transport := HTTPTransport ip timeout (30 * Second)%Z false ["h2"%string]
                    true 100%Z 100%Z (90 * Second)%Z;
     Timeout := timeout |}.

Definition createHTTP3Client (ip : string) (timeout : Duration) : Client :=
  {| Transport := HTTP3Transport ip false; Timeout := timeout |}.

Definition forcedIP_of (c : Client) : string :=
  match Transport c with
  | HTTPTransport ip _ _ _ _ _ _ _ _ => ip
  | HTTP3Transport ip _ => ip
  end.

Section Dial.

(** [net.SplitHostPort]; [None] stands for a non-nil error. *)
Variable SplitHostPort : string -> option (string * string).

(** The address the [DialContext] / [Dial] closure of a handle connects
    to when the transport asks for [addr]. *)
Definition dialAddr (ip addr : string) : string :=
  let port := match SplitHostPort addr with
              | Some (_, port) => port
              | None => "443"%string
              end in
  JoinHostPort ip port.

Definition DialTarget (c : Client) (addr : string) : string :=
  dialAddr (forcedIP_of c) addr.

End Dial.

(* ================================================================= *)
(** ** client.go: one measured request *)

(** [textproto.CanonicalMIMEHeaderKey] on keys made of letters, digits and
    hyphens: upper case at the start and after a hyphen, lower case
    elsewhere. *)
Definition upperByte (c : ascii) : ascii :=
  let n := nat_of_ascii c in
  if (97 <=? n)%nat && (n <=? 122)%nat then ascii_of_nat (n - 32) else c.

Definition lowerByte (c : ascii) : ascii :=
  let n := nat_of_ascii c in
  if (65 <=? n)%nat && (n <=? 90)%nat then ascii_of_nat (n + 32) else c.

Fixpoint canonicalFrom (upper : bool) (s : string) : string :=
  match s with
  | EmptyString => EmptyString
  | String c s' =>
      String (if upper then upperByte c else lowerByte c)
             (canonicalFrom (Ascii.eqb c "-"%char) s')
  end.

Definition CanonicalMIMEHeaderKey (s : string) : string := canonicalFrom true s.

(** [http.Header] and [Header.Get]: the first value under the canonical
    key, or the empty string. *)
Abbreviation Header := (gmap string (list string)).

Definition Header_Get (h : Header) (key : string) : string :=
  match h !! CanonicalMIMEHeaderKey key with
  | Some (v :: _) => v
  | _ => ""%string
  end.

Record Response := mkResponse {
  resp_StatusCode : Z;
  resp_Proto : string;
  resp_Header : Header
}.

(** What the network did with one request.  [ttfb] and [reused] are the
    values of the two locals written by the [httptrace] callbacks at the
    time [client.Do] returns ([ttfb] is [time.Since(start)] taken at the
    first response byte). *)
Inductive Outcome :=
| NewRequestFailed (err : string)
| DoFailed (err : string)
| DoReturned (ttfb : Duration) (reused : bool) (resp : Response).

Section MeasureRequest.

(** [strings.TrimSpace]. *)
Variable TrimSpace : string -> string.
(** [strconv.ParseFloat(s, 64)]; [None] stands for a non-nil error. *)
Variable ParseFloat : string -> option float.

(** The value parsed out of the header text, when there is one. *)
Definition originSeconds (xResponseTimeStr : string) : option float :=
  if String.eqb xResponseTimeStr "" then None
  else ParseFloat (TrimSpace (TrimSuffix xResponseTimeStr "s")).

Definition measureRequest (client : Client) (url domain : string)
    (o : Outcome) : RequestResult :=
  let result := zeroRequestResult in
  match o with
  | NewRequestFailed err =>
      set_Error result ("创建请求失败: " ++ err)
  | DoFailed err =>
      set_Error result ("请求失败: " ++ err)
  | DoReturned ttfb reused resp =>
      let result :=
        {| Index := Index result; TTFB := ttfb;
           XResponseTime := XResponseTime result; CDNLatency := CDNLatency result;
           StatusCode := resp_StatusCode resp; Reused := reused;
           ActualProto := resp_Proto resp; Error := Error result |} in
      let xResponseTimeStr :=
        Header_Get (resp_Header resp) "x-source-response-time" in
      let result :=
        match originSeconds xResponseTimeStr with
        | Some val => set_XResponseTime result (val * 1000)%float
        | None => result
        end in
      set_CDNLatency result (ttfbMs ttfb - XResponseTime result)%float
  end.

End MeasureRequest.

(* ================================================================= *)
(** ** report.go: statistics *)

(** A run of the aggregation: its result, unless a slice index was out of
    range (a run-time panic, [None]), and the lengths it has divided by,
    in order. *)
Record Exec (A : Type) := mkExec {
  outcome : option A;
  divisors : list nat
}.
Arguments mkExec {A} _ _.
Arguments outcome {A} _.
Arguments divisors {A} _.

#[export] Instance Exec_ret : MRet Exec := fun A a => mkExec (Some a) [].

#[export] Instance Exec_bind : MBind Exec := fun A B f m =>
  match outcome m with
  | Some a => mkExec (outcome (f a)) (divisors m ++ divisors (f a))
  | None => mkExec None (divisors m)
  end.

(** An indexing or a call that may panic. *)
Definition checked {A} (o : option A) : Exec A := mkExec o [].

(** [sum / float64(len(values))]. *)
Definition divByLen (sum : float) (n : nat) : Exec float :=
  mkExec (Some (sum / float64_of_int (Z.of_nat n))%float) [n].

(** The running sum, minimum and maximum of the two statistics loops. *)
Definition stats_step (acc : float * float * float) (v : float)
    : float * float * float :=
  let '(sum, vmin, vmax) := acc in
  ((sum + v)%float,
   if (v <? vmin)%float then v else vmin,
   if (vmax <? v)%float then v else vmax).

Definition stats (v0 : float) (values : list float) : float * float * float :=
  foldl stats_step (0%float, v0, v0) values.

(** What the first loop of [calculateSummary] accumulates. *)
Record Tally := mkTally {
  failCount : Z;
  successCount : Z;
  ttfbValues : list float;
  cdnLatencyValues : list float;
  xResponseTimeSum : float;
  hasXResponseTime : bool
}.

Definition tally_step (t : Tally) (r : RequestResult) : Tally :=
  if negb (String.eqb (Error r) "") then
    {| failCount := failCount t + 1; successCount := successCount t;
       ttfbValues := ttfbValues t; cdnLatencyValues := cdnLatencyValues t;
       xResponseTimeSum := xResponseTimeSum t;
       hasXResponseTime := hasXResponseTime t |}
  else
    {| failCount := failCount t; successCount := successCount t + 1;
       ttfbValues := ttfbValues t ++ [ttfbMs (TTFB r)];
       cdnLatencyValues := cdnLatencyValues t ++ [CDNLatency r];
       xResponseTimeSum := (xResponseTimeSum t + XResponseTime r)%float;
       hasXResponseTime :=
         if (0 <? XResponseTime r)%float then true else hasXResponseTime t |}.

Definition tally (results : list RequestResult) : Tally :=
  foldl tally_step
    {| failCount := 0; successCount := 0; ttfbValues := [];
       cdnLatencyValues := []; xResponseTimeSum := 0%float;
       hasXResponseTime := false |}
    results.

(** The summary as it stands when no sample succeeded: the counts, and
    the zero value in every other field. *)
Definition countsOnly (endpoint : Endpoint) (total : Z) (t : Tally) : Summary :=
  {| EndpointName := Name endpoint;
     ProtocolName := Protocol_String (EndpointProtocol endpoint);
     TotalTests := total;
     SuccessCount := successCount t; FailCount := failCount t;
     HasCDN := false;
     TTFBAvg := 0; TTFBMin := 0; TTFBMax := 0;
     TTFBP50 := 0; TTFBP90 := 0; TTFBP95 := 0; TTFBP99 := 0;
     CDNLatencyAvg := 0; CDNLatencyMin := 0; CDNLatencyMax := 0;
     CDNLatencyP50 := 0; CDNLatencyP90 := 0; CDNLatencyP95 := 0;
     CDNLatencyP99 := 0;
     XResponseTimeAvg := 0 |}.

Section Report.

(** [sort.Float64s], as a function from the slice's contents before the
    call to its contents after. *)
Variable Float64s : list float -> list float.

(** [percentile]: [None] is the panic of an index out of range.
    [sorted] is made with [len(values)] elements, so [len(sorted)] is
    [len(values)]. *)
Definition percentile (values : list float) (p : float) : option float :=
  match values with
  | [] => Some 0%float
  | _ :: _ =>
      let sorted := Float64s values in
      match float64_to_int
              (float64_of_int (Z.of_nat (length values) - 1) * p)%float with
      | Some index =>
          if (index <? 0)%Z then None else sorted !! Z.to_nat index
      | None => None
      end
  end.

Definition calculateSummary (endpoint : Endpoint)
    (results : list RequestResult) : Exec Summary :=
  let t := tally results in
  let total := Z.of_nat (length results) in
  match ttfbValues t with
  | [] => mret (countsOnly endpoint total t)
  | t0 :: _ =>
      let '(ttfbSum, ttfbMin, ttfbMax) := stats t0 (ttfbValues t) in
      ttfbAvg ← divByLen ttfbSum (length (ttfbValues t));
      ttfbP50 ← checked (percentile (ttfbValues t) 0.50);
      ttfbP90 ← checked (percentile (ttfbValues t) 0.90);
      ttfbP95 ← checked (percentile (ttfbValues t) 0.95);
      ttfbP99 ← checked (percentile (ttfbValues t) 0.99);
      c0 ← checked (head (cdnLatencyValues t));
      let '(cdnSum, cdnMin, cdnMax) := stats c0 (cdnLatencyValues t) in
      cdnAvg ← divByLen cdnSum (length (cdnLatencyValues t));
      cdnP50 ← checked (percentile (cdnLatencyValues t) 0.50);
      cdnP90 ← checked (percentile (cdnLatencyValues t) 0.90);
      cdnP95 ← checked (percentile (cdnLatencyValues t) 0.95);
      cdnP99 ← checked (percentile (cdnLatencyValues t) 0.99);
      xAvg ← divByLen (xResponseTimeSum t) (length (ttfbValues t));
      mret {| EndpointName := Name endpoint;
              ProtocolName := Protocol_String (EndpointProtocol endpoint);
              TotalTests := total;
              SuccessCount := successCount t; FailCount := failCount t;
              HasCDN := hasXResponseTime t;
              TTFBAvg := ttfbAvg; TTFBMin := ttfbMin; TTFBMax := ttfbMax;
              TTFBP50 := ttfbP50; TTFBP90 := ttfbP90; TTFBP95 := ttfbP95;
              TTFBP99 := ttfbP99;
              CDNLatencyAvg := cdnAvg; CDNLatencyMin := cdnMin;
              CDNLatencyMax := cdnMax;
              CDNLatencyP50 := cdnP50; CDNLatencyP90 := cdnP90;
              CDNLatencyP95 := cdnP95; CDNLatencyP99 := cdnP99;
              XResponseTimeAvg := xAvg |}
  end.

End Report.

Section SummaryTable.

(** [fmt.Sprintf("%.2f", x)] and [fmt.Sprintf("%d", n)]. *)
Variable Sprintf_2f : float -> string.
Variable Sprintf_d : Z -> string.

(** The five cells of a row of [printSummaryTable] that depend on
    [HasCDN]: CDN mean, P50, P90, P99 and the origin mean. *)
Definition cdnCells (s : Summary) : list string :=
  if HasCDN s then
    [Sprintf_2f (CDNLatencyAvg s); Sprintf_2f (CDNLatencyP50 s);
     Sprintf_2f (CDNLatencyP90 s); Sprintf_2f (CDNLatencyP99 s);
     Sprintf_2f (XResponseTimeAvg s)]
  else ["-"; "-"; "-"; "-"; "-"]%string.

(** One row appended by [printSummaryTable]. *)
Definition summaryRow (s : Summary) : list string :=
  [EndpointName s; ProtocolName s;
   (Sprintf_d (SuccessCount s) ++ "/" ++ Sprintf_d (TotalTests s))%string;
   Sprintf_2f (TTFBAvg s); Sprintf_2f (TTFBP50 s); Sprintf_2f (TTFBP90 s);
   Sprintf_2f (TTFBP99 s); Sprintf_2f (TTFBMin s); Sprintf_2f (TTFBMax s)]
  ++ cdnCells s.

End SummaryTable.

(* ================================================================= *)
(** ** main.go: building the handles *)

Record EndpointClient := mkEndpointClient {
  ec_Endpoint : Endpoint;
  ec_Client : Client
}.

(** The loop of [main] over [config.Endpoints]: the clients appended, and
    the messages passed to [logger.Error]. *)
Definition buildClient_step (timeout : Duration)
    (acc : list EndpointClient * list string) (endpoint : Endpoint)
    : list EndpointClient * list string :=
  let '(clients, errors) := acc in
  match EndpointProtocol endpoint with
  | 0%Z => (clients ++ [mkEndpointClient endpoint
                          (createHTTP1Client (IP endpoint) timeout)], errors)
  | 1%Z => (clients ++ [mkEndpointClient endpoint
                          (createHTTP2Client (IP endpoint) timeout)], errors)
  | 2%Z => (clients ++ [mkEndpointClient endpoint
                          (createHTTP3Client (IP endpoint) timeout)], errors)
  | p => (clients, errors ++ [("不支持的协议: " ++ Protocol_String p)%string])
  end.

Definition buildClients (endpoints : list Endpoint) (timeout : Duration)
    : list EndpointClient * list string :=
  foldl (buildClient_step timeout) ([], []) endpoints.

(* ================================================================= *)
(** ** main.go: rounds *)

Record RequestTask := mkRequestTask {
  task_Endpoint : Endpoint;
  task_Client : Client;
  task_URL : string;
  task_Domain : string;
  task_Index : Z
}.

Record EndpointResult := mkEndpointResult {
  er_Endpoint : Endpoint;
  er_Result : RequestResult
}.

Definition zeroEndpoint : Endpoint :=
  {| IP := ""; EndpointProtocol := 0%Z; Name := "" |}.

Definition zeroEndpointResult : EndpointResult :=
  {| er_Endpoint := zeroEndpoint; er_Result := zeroRequestResult |}.

(** The key of an endpoint in the [endpointResults] map. *)
Definition resultKey (e : Endpoint) : string :=
  (Name e ++ "|" ++ Protocol_String (EndpointProtocol e))%string.

Section Rounds.

Variable TrimSpace : string -> string.
Variable ParseFloat : string -> option float.

(** The body of the goroutine started for one task; [o] is what the
    network does with its request. *)
Definition probe (t : RequestTask) (o : Outcome) : EndpointResult :=
  let result :=
    measureRequest TrimSpace ParseFloat
      (task_Client t) (task_URL t) (task_Domain t) o in
  {| er_Endpoint := task_Endpoint t;
     er_Result := set_Index result (task_Index t) |}.

(** The write [results[idx] = ...] of goroutine [idx]. *)
Definition complete (tasks : list RequestTask) (net : nat -> Outcome)
    (results : list EndpointResult) (idx : nat) : list EndpointResult :=
  match tasks !! idx with
  | Some t => <[idx := probe t (net idx)]> results
  | None => results
  end.

(** [runParallelRound]: one goroutine per task, joined by [wg.Wait()].
    [order] is the order in which the goroutines complete; [net idx] is
    the outcome of the request of task [idx]. *)
Definition runParallelRound (tasks : list RequestTask) (net : nat -> Outcome)
    (order : list nat) : list EndpointResult :=
  foldl (complete tasks net)
        (replicate (length tasks) zeroEndpointResult) order.

(** The tasks [main] builds for a round. *)
Definition roundTasks (clients : list EndpointClient) (url domain : string)
    (round : Z) : list RequestTask :=
  map (fun ec => {| task_Endpoint := ec_Endpoint ec;
                    task_Client := ec_Client ec;
                    task_URL := url; task_Domain := domain;
                    task_Index := round |}) clients.

Abbreviation Results := (gmap string (list RequestResult)).

(** [endpointResults[key] = make([]RequestResult, 0, TestCount)]. *)
Definition initResults (clients : list EndpointClient) : Results :=
  foldl (fun m ec => <[resultKey (ec_Endpoint ec) := []]> m) ∅ clients.

(** [endpointResults[key] = append(endpointResults[key], er.Result)];
    reading a missing key gives the nil slice. *)
Definition collect (m : Results) (results : list EndpointResult) : Results :=
  foldl (fun m er =>
           let key := resultKey (er_Endpoint er) in
           <[key := default [] (m !! key) ++ [er_Result er]]> m)
        m results.

(** One iteration of [for round := 1; round <= config.TestCount; round++]. *)
Definition round_step (clients : list EndpointClient) (url domain : string)
    (net : nat -> nat -> Outcome) (sched : nat -> list nat)
    (m : Results) (round : nat) : Results :=
  let tasks := roundTasks clients url domain (Z.of_nat round) in
  collect m (runParallelRound tasks (net round) (sched round)).

(** The whole loop: [net round idx] is the outcome of the request of
    endpoint [idx] in round [round], [sched round] the completion order
    of that round's goroutines. *)
Definition runRounds (clients : list EndpointClient) (url domain : string)
    (TestCount : Z) (net : nat -> nat -> Outcome) (sched : nat -> list nat)
    : Results :=
  foldl (round_step clients url domain net sched)
        (initResults clients) (seq 1 (Z.to_nat TestCount)).

(** [results := endpointResults[key]] in the final loop of [main]. *)
Definition resultsOf (m : Results) (e : Endpoint) : list RequestResult :=
  default [] (m !! resultKey e).

End Rounds.

(* ================================================================= *)
(** ** Slices in a store

    A slice is a window on a backing array; arrays live in a store, so
    that two slices may share one.  [percentile] is given again at this
    level, statement by statement. *)

Module Mem.

Record slice := Slice {
  base : nat;        (* the backing array *)
  off : nat;         (* first element of the window *)
  len : nat
}.

Abbreviation store := (gmap nat (list float)).

(** The elements of a slice, when its window lies within its array. *)
Definition load (h : store) (s : slice) : option (list float) :=
  match h !! base s with
  | Some arr =>
      if decide (off s + len s <= length arr)%nat
      then Some (take (len s) (drop (off s) arr))
      else None
  | None => None
  end.

(** Overwrite the first [length vs] elements of the window. *)
Definition write (h : store) (s : slice) (vs : list float) : store :=
  match h !! base s with
  | Some arr =>
      <[base s := take (off s) arr ++ vs ++ drop (off s + length vs) arr]> h
  | None => h
  end.

(** [make([]float64, n)]: a new array of zeros. *)
Definition make (h : store) (n : nat) : slice * store :=
  let a := fresh (dom h) in
  (Slice a 0 n, <[a := replicate n 0%float]> h).

(** [copy(dst, src)]: the first [min(len(dst), len(src))] elements. *)
Definition copy (h : store) (dst src : slice) : store :=
  match load h src with
  | Some vs => write h dst (take (len dst) vs)
  | None => h
  end.

Section Percentile.

Variable Float64s : list float -> list float.

(** [sort.Float64s(s)]: sorts the window in place. *)
Definition sortInPlace (h : store) (s : slice) : store :=
  match load h s with
  | Some vs => write h s (Float64s vs)
  | None => h
  end.

Definition percentile (h : store) (values : slice) (p : float)
    : option float * store :=
  if (len values =? 0)%nat then (Some 0%float, h)
  else
    let '(sorted, h) := make h (len values) in
    let h := copy h sorted values in
    let h := sortInPlace h sorted in
    match float64_to_int
            (float64_of_int (Z.of_nat (len sorted) - 1) * p)%float with
    | Some index =>
        if (index <? 0)%Z then (None, h)
        else (load h sorted ≫= (fun vs => vs !! Z.to_nat index), h)
    | None => (None, h)
    end.

End Percentile.

End Mem.

(* ================================================================= *)
(** ** config.go: [LoadConfig] *)

Definition defaultConfigPath : string := "config.yaml".

Definition Millisecond : Duration := 1000000%Z.

Record Config := mkConfig {
  Domain : string;
  Path : string;
  TestCount : Z;
  ConfigTimeout : Duration;      (* field [Timeout] *)
  Interval : Duration;
  Endpoints : list Endpoint;
  OutputDir : string;
  EnableLog : bool;
  EnableJSON : bool;
  EnableHTML : bool
}.

(** [yamlConfig], with its anonymous [Output] struct named. *)
Record yamlOutput := mkYamlOutput {
  yaml_dir : string;
  yaml_enable_log : bool;
  yaml_enable_json : bool;
  yaml_enable_html : bool
}.

Record yamlConfig := mkYamlConfig {
  yaml_domain : string;
  yaml_path : string;
  yaml_test_count : Z;
  yaml_timeout : string;
  yaml_interval : string;
  yaml_endpoints : list yamlEndpoint;
  yaml_output : yamlOutput
}.

Section LoadConfig.

(** [os.ReadFile], [yaml.Unmarshal] into a zero [yamlConfig] and
    [time.ParseDuration].  [inr] carries the text of a non-nil error,
    [None] stands for a non-nil error whose text is not used. *)
Variable ReadFile : string -> string + string.
Variable Unmarshal : string -> yamlConfig + string.
Variable ParseDuration : string -> option Duration.

Definition LoadConfig (path : string) : Config + string :=
  let path := if String.eqb path "" then defaultConfigPath else path in
  match ReadFile path with
  | inr err => inr ("读取配置文件失败: " ++ err)%string
  | inl data =>
      match Unmarshal data with
      | inr err => inr ("解析配置文件失败: " ++ err)%string
      | inl yc =>
          let timeout :=
            match ParseDuration (yaml_timeout yc) with
            | Some d => d
            | None => (30 * Second)%Z
            end in
          let interval :=
            match ParseDuration (yaml_interval yc) with
            | Some d => d
            | None => (100 * Millisecond)%Z
            end in
          let endpoints := map loadEndpoint (yaml_endpoints yc) in
          let outputDir := yaml_dir (yaml_output yc) in
          let outputDir :=
            if String.eqb outputDir "" then "./output"%string else outputDir in
          inl {| Domain := yaml_domain yc;
                 Path := yaml_path yc;
                 TestCount := yaml_test_count yc;
                 ConfigTimeout := timeout;
                 Interval := interval;
                 Endpoints := endpoints;
                 OutputDir := outputDir;
                 EnableLog := yaml_enable_log (yaml_output yc);
                 EnableJSON := yaml_enable_json (yaml_output yc);
                 EnableHTML := yaml_enable_html (yaml_output yc) |}
      end
  end.

End LoadConfig.

(* ================================================================= *)
(** ** report.go: the tables *)

Definition detailHeader : list string :=
  ["序号"; "状态码"; "连接"; "TTFB(ms)"; "x-source-response-time(ms)";
   "CDN延迟(ms)"; "错误"]%string.

Definition summaryHeader : list string :=
  ["节点"; "协议"; "成功/总数";
   "TTFB均值"; "TTFB-P50"; "TTFB-P90"; "TTFB-P99"; "TTFB最小"; "TTFB最大";
   "CDN延迟均值"; "CDN-P50"; "CDN-P90"; "CDN-P99";
   "服务端均值"]%string.

Section DetailTable.

Variable Sprintf_2f : float -> string.
Variable Sprintf_d : Z -> string.

(** One row appended by [printDetailTable]. *)
Definition detailRow (r : RequestResult) : list string :=
  let errStr := ""%string in
  let errStr := if negb (String.eqb (Error r) "") then Error r else errStr in
  let ttfbMs := (float64_of_int (Microseconds (TTFB r)) / 1000)%float in
  let reusedStr := "No"%string in
  let reusedStr := if Reused r then "Yes"%string else reusedStr in
  [Sprintf_d (Index r); Sprintf_d (StatusCode r); reusedStr;
   Sprintf_2f ttfbMs; Sprintf_2f (XResponseTime r); Sprintf_2f (CDNLatency r);
   errStr].

End DetailTable.

(* ================================================================= *)
(** ** exporter.go: the report *)

Record EndpointInfo := mkEndpointInfo {
  info_Name : string;
  info_IP : string;
  info_Protocol : string
}.

Record ReportConfig := mkReportConfig {
  rc_Domain : string;
  rc_Path : string;
  rc_TestCount : Z;
  rc_Endpoints : list EndpointInfo
}.

(** [TestReport] without its three time fields. *)
Record TestReport := mkTestReport {
  ReportConfigOf : ReportConfig;                      (* field [Config] *)
  ReportResults : gmap string (list RequestResult);   (* field [Results] *)
  Summaries : list Summary;
  SummariesByProtocol : gmap string (list Summary);
  Protocols : list string
}.

Definition NewTestReport (cfg : Config) : TestReport :=
  let endpoints :=
    map (fun ep => {| info_Name := Name ep; info_IP := IP ep;
                      info_Protocol := Protocol_String (EndpointProtocol ep) |})
        (Endpoints cfg) in
  {| ReportConfigOf := {| rc_Domain := Domain cfg; rc_Path := Path cfg;
                          rc_TestCount := TestCount cfg;
                          rc_Endpoints := endpoints |};
     ReportResults := ∅;
     Summaries := [];
     SummariesByProtocol := ∅;
     Protocols := [] |}.

(** [r.Results[endpointName] = results]. *)
Definition AddResults (r : TestReport) (endpointName : string)
    (results : list RequestResult) : TestReport :=
  {| ReportConfigOf := ReportConfigOf r;
     ReportResults := <[endpointName := results]> (ReportResults r);
     Summaries := Summaries r;
     SummariesByProtocol := SummariesByProtocol r;
     Protocols := Protocols r |}.

Definition protocolOrder : list string := ["HTTP/3"; "HTTP/2"; "HTTP/1.1"]%string.

(** The first loop of [Finalize], from an empty map: reading a missing
    key gives the nil slice. *)
Definition groupByProtocol (summaries : list Summary)
    : gmap string (list Summary) :=
  foldl (fun m s =>
           <[ProtocolName s := default [] (m !! ProtocolName s) ++ [s]]> m)
        ∅ summaries.

(** The second loop of [Finalize]. *)
Definition listProtocols (byProtocol : gmap string (list Summary))
    (protocols : list string) : list string :=
  foldl (fun ps p => match byProtocol !! p with
                     | Some _ => ps ++ [p]
                     | None => ps
                     end)
        protocols protocolOrder.

Definition Finalize (r : TestReport) (summaries : list Summary) : TestReport :=
  let byProtocol := groupByProtocol summaries in
  {| ReportConfigOf := ReportConfigOf r;
     ReportResults := ReportResults r;
     Summaries := summaries;
     SummariesByProtocol := byProtocol;
     Protocols := listProtocols byProtocol (Protocols r) |}.

(** The template functions [perfClass] and [cdnPerfClass] of
    [ExportHTML]. *)
Definition perfClass (ms : float) : string :=
  if (ms <? 100)%float then "perf-excellent"
  else if (ms <? 300)%float then "perf-good"
  else if (ms <? 500)%float then "perf-fair"
  else "perf-poor".

Definition cdnPerfClass (ms : float) : string :=
  if (ms <? 50)%float then "perf-excellent"
  else if (ms <? 150)%float then "perf-good"
  else if (ms <? 300)%float then "perf-fair"
  else "perf-poor".

(** The template function [safeID]: every maximal run of bytes outside
    [a-zA-Z0-9] is replaced by one hyphen.  (The bytes of a character
    that is not ASCII are all outside the class, so runs of bytes and
    runs of characters coincide.) *)
Definition isAlnum (c : ascii) : bool :=
  let n := nat_of_ascii c in
  ((97 <=? n)%nat && (n <=? 122)%nat)
  || ((65 <=? n)%nat && (n <=? 90)%nat)
  || ((48 <=? n)%nat && (n <=? 57)%nat).

(** [inRun]: the previous byte was outside the class. *)
Fixpoint safeIDFrom (inRun : bool) (s : string) : string :=
  match s with
  | EmptyString => EmptyString
  | String c s' =>
      if isAlnum c then String c (safeIDFrom false s')
      else if inRun then safeIDFrom true s'
      else String "-"%char (safeIDFrom true s')
  end.

Definition safeID (s : string) : string := safeIDFrom false s.

(* ================================================================= *)
(** ** main.go: from the loaded configuration to the report *)

(** [fmt.Sprintf("https://%s%s", config.Domain, config.Path)]. *)
Definition requestURL (config : Config) : string :=
  ("https://" ++ Domain config ++ Path config)%string.

(** [fmt.Sprintf("%s (%s)", ec.Endpoint.Name, ec.Endpoint.Protocol)]. *)
Definition reportKey (e : Endpoint) : string :=
  (Name e ++ " (" ++ Protocol_String (EndpointProtocol e) ++ ")")%string.

(** [make([]RequestResult, 0, capacity)]: a negative capacity is a
    run-time panic. *)
Definition makeResultSlice (capacity : Z) : option (list RequestResult) :=
  if (capacity <? 0)%Z then None else Some [].

Section Main.

Variable TrimSpace : string -> string.
Variable ParseFloat : string -> option float.
Variable Float64s : list float -> list float.

(** One iteration of the final loop over [clients]: the results are
    filed in the report and their summary is appended. *)
Definition summarize_step (m : gmap string (list RequestResult))
    (acc : Exec (TestReport * list Summary)) (ec : EndpointClient)
    : Exec (TestReport * list Summary) :=
  '(report, allSummaries) ← acc;
  let results := resultsOf m (ec_Endpoint ec) in
  let report := AddResults report (reportKey (ec_Endpoint ec)) results in
  summary ← calculateSummary Float64s (ec_Endpoint ec) results;
  mret (report, allSummaries ++ [summary]).

(** [main] from [NewTestReport] to [report.Finalize], for a loaded
    configuration: the handles, the result slices, the rounds, the
    summaries, the report.  The slices are made once per handle, which
    panics on a negative test count; the map that holds them is the one
    [runRounds] starts from.  Printing, logging and the pause between
    rounds are left out. *)
Definition runTests (config : Config) (net : nat -> nat -> Outcome)
    (sched : nat -> list nat) : Exec TestReport :=
  let report := NewTestReport config in
  let url := requestURL config in
  let clients := fst (buildClients (Endpoints config) (ConfigTimeout config)) in
  _ ← checked (mapM (fun _ => makeResultSlice (TestCount config)) clients);
  let endpointResults :=
    runRounds TrimSpace ParseFloat clients url (Domain config)
      (TestCount config) net sched in
  '(report, allSummaries) ←
    foldl (summarize_step endpointResults) (mret (report, [])) clients;
  mret (Finalize report allSummaries).

End Main.

(* ================================================================= *)
(** ** Instances of the library functions *)

(** A sort by [lessFloat]. *)
Definition sortFloat64s (l : list float) : list float := merge_sort float_le l.

(** [strings.TrimSpace] on strings whose white space is ASCII. *)
Definition isAsciiSpace (c : ascii) : bool :=
  let n := nat_of_ascii c in
  (n =? 32)%nat || ((9 <=? n)%nat && (n <=? 13)%nat).

Fixpoint trimLeft (s : string) : string :=
  match s with
  | String c s' => if isAsciiSpace c then trimLeft s' else s
  | EmptyString => EmptyString
  end.

Fixpoint trimRight (s : string) : string :=
  match s with
  | String c s' =>
      match trimRight s' with
      | EmptyString => if isAsciiSpace c then EmptyString else String c EmptyString
      | t => String c t
      end
  | EmptyString => EmptyString
  end.

Definition trimSpace (s : string) : string := trimRight (trimLeft s).

(** [strconv.ParseFloat] on plain decimal literals [digits[.digits]] that
    take its exact path: a mantissa below 2^53 divided by a power of ten
    up to 10^22, both exact in binary64. *)
Definition digitValue (c : ascii) : option Z :=
  let n := nat_of_ascii c in
  if (48 <=? n)%nat && (n <=? 57)%nat then Some (Z.of_nat (n - 48)) else None.

Fixpoint readDigits (s : string) (mant : Z) (count : nat)
    : Z * nat * string :=
  match s with
  | String c s' =>
      match digitValue c with
      | Some d => readDigits s' (10 * mant + d)%Z (S count)
      | None => (mant, count, s)
      end
  | EmptyString => (mant, count, s)
  end.

Definition parseDecimal (s : string) : option float :=
  let '(m1, n1, rest) := readDigits s 0%Z 0%nat in
  let '(m, n2, rest', sawDot) :=
    match rest with
    | String "."%char frac =>
        let '(m2, n2, rest') := readDigits frac m1 0%nat in (m2, n2, rest', true)
    | _ => (m1, 0%nat, rest, false)
    end in
  if negb (String.eqb rest' "") then None
  else if (n1 + n2 =? 0)%nat then None
  else if negb ((m <? 2 ^ 53)%Z && (n2 <=? 22)%nat) then None
  else Some (float64_of_int m / float64_of_int (10 ^ Z.of_nat n2))%float.

(** [net.SplitHostPort] on [host:port] without brackets. *)
Fixpoint splitLastColon (s : string) : option (string * string) :=
  match s with
  | EmptyString => None
  | String c s' =>
      match splitLastColon s' with
      | Some (h, p) => Some (String c h, p)
      | None => if Ascii.eqb c ":"%char then Some (EmptyString, s') else None
      end
  end.

(** [fmt.Sprintf("%d", n)]. *)
Definition formatInt (n : Z) : string := pretty n.

(** [fmt.Sprintf("%.2f", x)]: the exact binary value rounded to two
    decimals, ties to even. *)
Definition roundHundredths (m : positive) (e : Z) : Z :=
  match e with
  | Zneg k =>
      let n := (Zpos m * 100)%Z in
      let d := (2 ^ Zpos k)%Z in
      let q := (n / d)%Z in
      let r := (n mod d)%Z in
      match (2 * r ?= d)%Z with
      | Lt => q
      | Gt => (q + 1)%Z
      | Eq => if Z.even q then q else (q + 1)%Z
      end
  | _ => (Zpos m * 2 ^ e * 100)%Z
  end.

Definition twoDigits (n : Z) : string :=
  if (n <? 10)%Z then ("0" ++ pretty n)%string else pretty n.

Definition format2f (x : float) : string :=
  match Prim2SF x with
  | S754_nan => "NaN"
  | S754_infinity s => if s then "-Inf" else "+Inf"
  | S754_zero s => if s then "-0.00" else "0.00"
  | S754_finite s m e =>
      let h := roundHundredths m e in
      ((if s then "-" else "") ++ pretty (h / 100)%Z ++ "."
       ++ twoDigits (h mod 100)%Z)%string
  end.

(* ================================================================= *)
(** * Properties *)

(* ================================================================= *)
(** ** binary64: rounding of products, conversions, order

    The facts below are derived from the bit-level specification of
    binary64 ([SpecFloat]) that the primitive operations are given by
    [FloatAxioms]. *)

Section Binary64.

Local Open Scope Z_scope.

(** *** The number of binary digits of a mantissa *)

Lemma digits2_pos_bounds (m : positive) :
  2 ^ (Zpos (digits2_pos m) - 1) <= Zpos m < 2 ^ Zpos (digits2_pos m).
Proof.
  induction m as [m IH|m IH|]; simpl digits2_pos.
  - rewrite Pos2Z.inj_succ, Pos2Z.inj_xI.
    replace (Z.succ (Zpos (digits2_pos m)) - 1) with (Z.succ (Zpos (digits2_pos m) - 1)) by lia.
    rewrite !Z.pow_succ_r by lia. lia.
  - rewrite Pos2Z.inj_succ. change (Zpos m~0) with (2 * Zpos m).
    replace (Z.succ (Zpos (digits2_pos m)) - 1) with (Z.succ (Zpos (digits2_pos m) - 1)) by lia.
    rewrite !Z.pow_succ_r by lia. lia.
  - simpl. lia.
Qed.

Lemma digits2_pos_le (m : positive) (k : Z) :
  Zpos m < 2 ^ k -> Zpos (digits2_pos m) <= k.
Proof.
  intros Hm. destruct (digits2_pos_bounds m) as [Hlo _].
  destruct (Z_le_gt_dec (Zpos (digits2_pos m)) k) as [|Hgt]; [assumption|exfalso].
  assert (0 <= k \/ k < 0) as [Hk|Hk] by lia.
  - assert (2 ^ k <= 2 ^ (Zpos (digits2_pos m) - 1)) by (apply Z.pow_le_mono_r; lia). lia.
  - rewrite Z.pow_neg_r in Hm by assumption. lia.
Qed.

Lemma digits2_pos_shift (m : positive) (k : Z) :
  0 <= k -> forall q, Zpos q = Zpos m * 2 ^ k ->
  Zpos (digits2_pos q) = Zpos (digits2_pos m) + k.
Proof.
  intros Hk q Hq.
  destruct (digits2_pos_bounds m) as [Hlo Hhi].
  destruct (digits2_pos_bounds q) as [Hlo' Hhi'].
  set (d := Zpos (digits2_pos m)) in *. set (d' := Zpos (digits2_pos q)) in *.
  assert (Hd : 1 <= d) by (subst d; lia).
  assert (Hd' : 1 <= d') by (subst d'; lia).
  assert (H2k : 0 < 2 ^ k) by (apply Z.pow_pos_nonneg; lia).
  assert (Hup : Zpos q < 2 ^ (d + k)).
  { rewrite Z.pow_add_r by lia. rewrite Hq. apply Z.mul_lt_mono_pos_r; lia. }
  assert (Hdn : 2 ^ (d + k - 1) <= Zpos q).
  { replace (d + k - 1) with ((d - 1) + k) by lia. rewrite Z.pow_add_r by lia.
    rewrite Hq. apply Z.mul_le_mono_nonneg_r; lia. }
  assert (d' <= d + k) by (apply digits2_pos_le; assumption).
  destruct (Z_le_gt_dec (d + k) d') as [|Hgt]; [lia|exfalso].
  assert (2 ^ d' <= 2 ^ (d + k - 1)) by (apply Z.pow_le_mono_r; lia). lia.
Qed.

(** *** Right shifts keep the quotient and remember the remainder *)

Lemma iter_pos_nat {A} (f : A -> A) (p : positive) (x : A) :
  SpecFloat.iter_pos f p x = Nat.iter (Pos.to_nat p) f x.
Proof.
  revert x. induction p as [p IH|p IH|]; intros x; simpl SpecFloat.iter_pos.
  - rewrite !IH, Pos2Nat.inj_xI.
    replace (S (2 * Pos.to_nat p))%nat with (Pos.to_nat p + (Pos.to_nat p + 1))%nat by lia.
    rewrite !Nat.iter_add. reflexivity.
  - rewrite !IH, Pos2Nat.inj_xO.
    replace (2 * Pos.to_nat p)%nat with (Pos.to_nat p + Pos.to_nat p)%nat by lia.
    rewrite Nat.iter_add. reflexivity.
  - reflexivity.
Qed.

(** One shift halves the mantissa; the round bit is its parity and the
    sticky bit collects what was shifted out before. *)
Lemma shr_1_spec (m : Z) (r s : bool) :
  0 <= m ->
  shr_1 (Build_shr_record m r s) = Build_shr_record (m / 2) (Z.odd m) (r || s).
Proof.
  intros Hm. destruct m as [|[p|p|]|p]; try lia; simpl shr_1.
  - reflexivity.
  - f_equal. rewrite Pos2Z.inj_xI. apply Z.div_unique with (r := 1); lia.
  - f_equal. rewrite Pos2Z.inj_xO. apply Z.div_unique with (r := 0); lia.
  - reflexivity.
Qed.

(** After [n] shifts of an exact value the mantissa is the quotient by
    [2^n], and nothing is remembered when the remainder is zero. *)
Lemma shr_iter_spec (n : nat) (M : Z) :
  0 <= M ->
  let R := Nat.iter n shr_1 (Build_shr_record M false false) in
  shr_m R = M / 2 ^ Z.of_nat n /\
  (M mod 2 ^ Z.of_nat n = 0 -> shr_r R = false /\ shr_s R = false).
Proof.
  intros HM. induction n as [|n IH]; cbn zeta.
  - simpl. rewrite Z.div_1_r. auto.
  - cbn zeta in IH. destruct IH as [IHm IHx]. simpl Nat.iter.
    destruct (Nat.iter n shr_1 _) as [m r s] eqn:E. simpl in IHm, IHx.
    assert (Hp : 0 < 2 ^ Z.of_nat n) by (apply Z.pow_pos_nonneg; lia).
    assert (Hm0 : 0 <= m) by (subst m; apply Z.div_pos; lia).
    rewrite shr_1_spec by assumption. simpl.
    rewrite Nat2Z.inj_succ, Z.pow_succ_r by lia.
    split.
    + subst m. rewrite Z.mul_comm, <- Z.div_div by lia. reflexivity.
    + intros Hmod.
      rewrite Z.mul_comm, Z.rem_mul_r in Hmod by lia.
      assert (0 <= M mod 2 ^ Z.of_nat n < 2 ^ Z.of_nat n) by (apply Z.mod_pos_bound; lia).
      assert (0 <= (M / 2 ^ Z.of_nat n) mod 2 < 2) by (apply Z.mod_pos_bound; lia).
      assert (M mod 2 ^ Z.of_nat n = 0) by nia.
      assert ((M / 2 ^ Z.of_nat n) mod 2 = 0) by nia.
      destruct (IHx ltac:(assumption)) as [-> ->].
      split; [|reflexivity].
      rewrite <- Z.negb_even. subst m.
      rewrite (Zmod_even (M / 2 ^ Z.of_nat n)) in *.
      destruct (Z.even (M / 2 ^ Z.of_nat n)); [reflexivity|discriminate].
Qed.


Lemma shr_exact_spec (M e n : Z) :
  0 <= M ->
  let k := Z.max n 0 in
  let R := fst (shr (Build_shr_record M false false) e n) in
  shr_m R = M / 2 ^ k /\ snd (shr (Build_shr_record M false false) e n) = e + k /\
  (M mod 2 ^ k = 0 -> loc_of_shr_record R = loc_Exact).
Proof.
  intros HM. destruct n as [|p|p]; cbn zeta; simpl shr; simpl fst; simpl snd.
  - change (Z.max 0 0) with 0. rewrite Z.pow_0_r, Z.div_1_r, Z.add_0_r. auto.
  - rewrite iter_pos_nat.
    destruct (shr_iter_spec (Pos.to_nat p) M HM) as [Hm Hx].
    rewrite positive_nat_Z in Hm, Hx.
    replace (Z.max (Z.pos p) 0) with (Z.pos p) by lia.
    split; [exact Hm|]. split; [reflexivity|].
    intros H0. destruct (Hx H0) as [Hr Hs].
    destruct (Nat.iter _ _ _) as [m r s]. simpl in Hr, Hs. subst r s. reflexivity.
  - replace (Z.max (Z.neg p) 0) with 0 by lia.
    rewrite Z.pow_0_r, Z.div_1_r, Z.add_0_r. auto.
Qed.

(** *** Rounding to nearest, ties to even *)

Lemma round_nearest_even_bounds (m : Z) (l : location) :
  m <= round_nearest_even m l <= m + 1 /\
  (l = loc_Exact -> round_nearest_even m l = m).
Proof.
  destruct l as [|[]]; simpl; try destruct (Z.even m); split; (lia || reflexivity || discriminate).
Qed.

Lemma fexp64_eq (e : Z) : fexp prec emax e = Z.max (e - 53) (-1074).
Proof. reflexivity. Qed.

Lemma div_pow2_le (a b k : Z) : 0 <= k -> a <= b * 2 ^ k -> a / 2 ^ k <= b.
Proof.
  intros Hk Hab. assert (0 < 2 ^ k) by (apply Z.pow_pos_nonneg; lia).
  apply Z.div_le_upper_bound; lia.
Qed.

Lemma pos_lt_pow2_digits (B : positive) (k : Z) :
  0 <= k -> Zpos B * 2 ^ k < 2 ^ (Zpos (digits2_pos B) + k).
Proof.
  intros Hk. destruct (digits2_pos_bounds B) as [_ Hhi].
  assert (0 < 2 ^ k) by (apply Z.pow_pos_nonneg; lia).
  rewrite Z.pow_add_r by lia. apply Z.mul_lt_mono_pos_r; lia.
Qed.

(** Magnitude of a positive integer bounded by a scaled representable value. *)
Lemma Zdigits2_le_scaled (m : Z) (B : positive) (k : Z) :
  0 <= m -> 0 <= k -> m <= Zpos B * 2 ^ k ->
  Zdigits2 m <= Zpos (digits2_pos B) + k.
Proof.
  intros Hm Hk Hle. destruct m as [|p|p]; simpl Zdigits2; try lia.
  apply digits2_pos_le. pose proof (pos_lt_pow2_digits B k Hk). lia.
Qed.


(** Rounding is bounded by representable values: if the exact value
    [M * 2^E] is at most the value [B * 2^eb] of a canonical float, so is
    the rounded one.  The truncated mantissa is at most [B] scaled to the
    exponent of the result, and when it is equal the remainder is zero,
    so that nothing is rounded up. *)
Lemma binary_round_aux_le (sx : bool) (M E : Z) (B : positive) (eb : Z) :
  0 < M -> E <= eb -> eb <= 971 ->
  fexp prec emax (Zpos (digits2_pos B) + eb) = eb ->
  M <= Zpos B * 2 ^ (eb - E) ->
  match binary_round_aux prec emax sx M E loc_Exact with
  | S754_zero s => s = sx
  | S754_finite s m e => s = sx /\ e <= eb /\ Zpos m <= Zpos B * 2 ^ (eb - e)
  | _ => False
  end.
Proof.
  intros HM HE Heb Hcan Hle.
  unfold binary_round_aux, shr_fexp. simpl shr_record_of_loc.
  set (n1 := fexp prec emax (Zdigits2 M + E) - E).
  destruct (shr_exact_spec M E n1 ltac:(lia)) as (Hm1 & He1 & Hx1).
  destruct (shr (Build_shr_record M false false) E n1) as [R1 e1].
  simpl fst in *; simpl snd in *.
  set (k1 := Z.max n1 0) in *.
  assert (Hp1 : 0 < 2 ^ k1) by (apply Z.pow_pos_nonneg; lia).
  assert (Hd1 : Zdigits2 M + E <= Zpos (digits2_pos B) + eb).
  { pose proof (Zdigits2_le_scaled M B (eb - E)). lia. }
  assert (Hn1 : e1 <= eb). { subst e1 k1 n1. rewrite fexp64_eq in *. lia. }
  set (Kq := Zpos B * 2 ^ (eb - e1)).
  assert (HKq : Kq * 2 ^ k1 = Zpos B * 2 ^ (eb - E)).
  { subst Kq. rewrite <- Z.mul_assoc, <- Z.pow_add_r by lia. f_equal. f_equal. lia. }
  assert (Hmt : 0 <= shr_m R1 <= Kq).
  { rewrite Hm1. split; [apply Z.div_pos; lia|]. apply div_pow2_le; lia. }
  destruct (round_nearest_even_bounds (shr_m R1) (loc_of_shr_record R1)) as [Hr Hrx].
  set (mr := round_nearest_even (shr_m R1) (loc_of_shr_record R1)) in *.
  assert (Hmr : 0 <= mr <= Kq).
  { split; [lia|]. destruct (Z.eq_dec (shr_m R1) Kq) as [Heq|Hne]; [|lia].
    assert (Hdiv : 2 ^ k1 * (M / 2 ^ k1) <= M) by (apply Z.mul_div_le; lia).
    assert (HMeq : M = Kq * 2 ^ k1) by nia.
    rewrite Hrx; [lia|]. apply Hx1. rewrite HMeq. apply Z.mod_mul. lia. }
  set (n2 := fexp prec emax (Zdigits2 mr + e1) - e1).
  destruct (shr_exact_spec mr e1 n2 ltac:(lia)) as (Hm2 & He2 & _).
  destruct (shr (Build_shr_record mr false false) e1 n2) as [R2 e2].
  simpl fst in *; simpl snd in *.
  set (k2 := Z.max n2 0) in *.
  assert (Hp2 : 0 < 2 ^ k2) by (apply Z.pow_pos_nonneg; lia).
  assert (Hd2 : Zdigits2 mr + e1 <= Zpos (digits2_pos B) + eb).
  { pose proof (Zdigits2_le_scaled mr B (eb - e1)). fold Kq in H. lia. }
  assert (Hn2 : e2 <= eb). { subst e2 k2 n2. rewrite fexp64_eq in *. lia. }
  assert (HKq2 : Zpos B * 2 ^ (eb - e2) * 2 ^ k2 = Kq).
  { subst Kq. rewrite <- Z.mul_assoc, <- Z.pow_add_r by lia. f_equal. f_equal. lia. }
  assert (Hmf : 0 <= shr_m R2 <= Zpos B * 2 ^ (eb - e2)).
  { rewrite Hm2. split; [apply Z.div_pos; lia|]. apply div_pow2_le; lia. }
  destruct (shr_m R2) as [|mf|mf]; [reflexivity| |lia].
  change (Z.sub emax prec) with 971.
  destruct (Z.leb_spec e2 971); [|lia].
  split; [reflexivity|]. split; lia.
Qed.

(** Rounding a value that is already representable returns it unchanged. *)
Lemma binary_round_aux_exact (sx : bool) (E : Z) (B : positive) (eb : Z) :
  E <= eb -> eb <= 971 ->
  fexp prec emax (Zpos (digits2_pos B) + eb) = eb ->
  binary_round_aux prec emax sx (Zpos B * 2 ^ (eb - E)) E loc_Exact
  = S754_finite sx B eb.
Proof.
  intros HE Heb Hcan.
  assert (Hp : 0 < 2 ^ (eb - E)) by (apply Z.pow_pos_nonneg; lia).
  destruct (Zpos B * 2 ^ (eb - E)) as [|M|M] eqn:HM; try lia.
  pose proof (digits2_pos_shift B (eb - E) ltac:(lia) M (eq_sym HM)) as HdM.
  unfold binary_round_aux, shr_fexp. simpl shr_record_of_loc. simpl Zdigits2.
  set (n1 := fexp prec emax (Zpos (digits2_pos M) + E) - E).
  assert (Hn1 : n1 = eb - E).
  { subst n1. rewrite HdM. replace (Zpos (digits2_pos B) + (eb - E) + E)
      with (Zpos (digits2_pos B) + eb) by lia. rewrite Hcan. reflexivity. }
  destruct (shr_exact_spec (Zpos M) E n1 ltac:(lia)) as (Hm1 & He1 & Hx1).
  destruct (shr (Build_shr_record (Zpos M) false false) E n1) as [R1 e1].
  simpl fst in *; simpl snd in *.
  replace (Z.max n1 0) with (eb - E) in * by lia.
  assert (He1' : e1 = eb) by lia.
  assert (Hm1' : shr_m R1 = Zpos B).
  { rewrite Hm1, <- HM. apply Z.div_mul. lia. }
  rewrite Hm1'. rewrite Hx1 by (rewrite <- HM; apply Z.mod_mul; lia).
  simpl round_nearest_even. simpl Zdigits2. clear He1. subst e1.
  rewrite Hcan, Z.sub_diag. cbn [shr shr_m].
  change (Z.sub emax prec) with 971.
  rewrite (Zle_imp_le_bool eb 971 Heb). reflexivity.
Qed.


(** *** Integers and the unit interval in binary64 *)

Lemma shl_align_spec (k : positive) (ex e' : Z) :
  snd (shl_align k ex e') = Z.min ex e' /\
  Zpos (fst (shl_align k ex e')) = Zpos k * 2 ^ (ex - Z.min ex e').
Proof.
  unfold shl_align. destruct (e' - ex) as [|d|d] eqn:Hd; simpl fst; simpl snd.
  - replace (Z.min ex e') with ex by lia. rewrite Z.sub_diag. lia.
  - replace (Z.min ex e') with ex by lia. rewrite Z.sub_diag. lia.
  - replace (Z.min ex e') with e' by lia. split; [reflexivity|].
    change (Pos.iter xO k d) with (shift_pos d k).
    rewrite shift_pos_correct, Zpower_pos_nat, Zpower_nat_Z, positive_nat_Z.
    replace (ex - e') with (Zpos d) by lia. lia.
Qed.

(** The binary64 image of a positive integer below 2^53 is exact: a
    normalised mantissa at a non-positive exponent whose value is [K]. *)
Lemma Prim2SF_of_uint63 (K : Z) :
  0 < K < 2 ^ 53 ->
  exists (mx : positive) (ex : Z),
    Prim2SF (of_uint63 (Uint63.of_Z K)) = S754_finite false mx ex /\
    ex <= 0 /\ Zpos mx = K * 2 ^ (- ex) /\
    fexp prec emax (Zpos (digits2_pos mx) + ex) = ex.
Proof.
  intros HK. rewrite of_uint63_spec, Uint63.of_Z_spec.
  rewrite Z.mod_small by (change wB with (2 ^ 63); lia).
  destruct K as [|k|k]; try lia. simpl binary_normalize. unfold binary_round.
  set (d := Zpos (digits2_pos k)).
  assert (Hd : 1 <= d <= 53).
  { split; [subst d; lia|]. apply digits2_pos_le. lia. }
  destruct (shl_align_spec k 0 (fexp prec emax (d + 0))) as [Hez Hmz].
  destruct (shl_align k 0 (fexp prec emax (d + 0))) as [mz ez].
  simpl fst in *; simpl snd in *.
  rewrite fexp64_eq in Hez, Hmz.
  assert (Hez' : ez = d - 53) by lia.
  replace (Z.min 0 (Z.max (d + 0 - 53) (-1074))) with ez in Hmz by lia.
  assert (Hcan : fexp prec emax (Zpos (digits2_pos mz) + ez) = ez).
  { rewrite (digits2_pos_shift k (0 - ez) ltac:(lia) mz Hmz).
    fold d. rewrite fexp64_eq. lia. }
  exists mz, ez. split; [|split; [lia|split; [rewrite Hmz; f_equal|exact Hcan]]].
  pose proof (binary_round_aux_exact false ez mz ez ltac:(lia) ltac:(lia) Hcan) as Hx.
  rewrite Z.sub_diag, Z.pow_0_r, Z.mul_1_r in Hx. exact Hx.
Qed.


Lemma Prim2SF_zero : Prim2SF PrimFloat.zero = S754_zero false.
Proof. reflexivity. Qed.

Lemma Prim2SF_one : Prim2SF PrimFloat.one = S754_finite false 4503599627370496 (-52).
Proof. reflexivity. Qed.

Lemma valid_finite_mantissa (s : bool) (m : positive) (e : Z) :
  valid_binary (S754_finite s m e) = true ->
  fexp prec emax (Zpos (digits2_pos m) + e) = e /\ e <= 971 /\ Zpos m < 2 ^ 53.
Proof.
  unfold SpecFloat.valid_binary, bounded, canonical_mantissa.
  intros H. apply andb_true_iff in H as [Hc He].
  apply Z.eqb_eq in Hc. apply Z.leb_le in He. change (emax - prec) with 971 in He.
  split; [exact Hc|]. split; [exact He|].
  destruct (digits2_pos_bounds m) as [_ Hhi].
  rewrite fexp64_eq in Hc.
  assert (2 ^ Zpos (digits2_pos m) <= 2 ^ 53) by (apply Z.pow_le_mono_r; lia). lia.
Qed.

(** The shape of a float in the closed unit interval. *)
Lemma unit_interval_shape (p : float) :
  (0 <=? p)%float = true -> (p <=? 1)%float = true ->
  (exists s, Prim2SF p = S754_zero s) \/
  (exists mp ep, Prim2SF p = S754_finite false mp ep /\
                 ep <= 0 /\ Zpos mp <= 2 ^ (- ep)).
Proof.
  rewrite !FloatAxioms.leb_spec. change (Prim2SF 0) with (S754_zero false).
  change (Prim2SF 1) with (S754_finite false 4503599627370496 (-52)).
  pose proof (Prim2SF_valid p) as Hv.
  destruct (Prim2SF p) as [s|s| |s m e]; unfold SFleb, SFcompare.
  - intros _ _. left. eauto.
  - destruct s; discriminate.
  - discriminate.
  - destruct s; [discriminate|]. intros _ H. right. exists m, e.
    split; [reflexivity|].
    destruct (valid_finite_mantissa _ _ _ Hv) as (_ & _ & Hm).
    destruct (Z.compare_spec e (-52)) as [He|He|He]; try discriminate.
    + subst e. split; [lia|]. rewrite Pos.compare_cont_spec in H. cbn [Pos.switch_Eq] in H.
      change (2 ^ (- -52)) with 4503599627370496.
      destruct (Pos.compare_spec m 4503599627370496) as [Hc|Hc|Hc].
      * rewrite Hc. apply Z.le_refl.
      * apply Pos2Z.pos_lt_pos in Hc. apply Z.lt_le_incl. exact Hc.
      * discriminate H.
    + split; [lia|].
      assert (2 ^ 53 <= 2 ^ (- e)) by (apply Z.pow_le_mono_r; lia). lia.
Qed.


(** *** The index computed by [percentile] *)

Lemma float64_of_int_nonneg (K : Z) :
  0 <= K -> float64_of_int K = of_uint63 (Uint63.of_Z K).
Proof.
  intros HK. unfold float64_of_int.
  destruct (Z.ltb_spec K 0); [lia|reflexivity].
Qed.

Lemma shiftl_nonpos_exp (m e : Z) : e <= 0 -> Z.shiftl m e = m / 2 ^ (- e).
Proof.
  intros He. rewrite <- Z.shiftr_opp_r. apply Z.shiftr_div_pow2. lia.
Qed.

(** [int(float64(K) * p)] stays within [0, K] for every [p] in [0, 1]. *)
Lemma index_in_range (K : Z) (p : float) :
  0 <= K < 2 ^ 53 ->
  (0 <=? p)%float = true -> (p <=? 1)%float = true ->
  exists i, float64_to_int (float64_of_int K * p) = Some i /\ 0 <= i <= K.
Proof.
  intros HK Hp0 Hp1. rewrite float64_of_int_nonneg by lia.
  unfold float64_to_int. rewrite FloatAxioms.mul_spec.
  destruct (unit_interval_shape p Hp0 Hp1) as [[s Hs]|(mp & ep & Hs & Hep & Hmp)];
    rewrite Hs.
  - assert (HK0 : K = 0 \/ 0 < K) by lia. destruct HK0 as [->|HK0].
    + change (Prim2SF (of_uint63 (Uint63.of_Z 0))) with (S754_zero false).
      exists 0. simpl. split; [reflexivity|lia].
    + destruct (Prim2SF_of_uint63 K ltac:(lia)) as (mx & ex & Hx & _).
      rewrite Hx. exists 0. simpl. split; [reflexivity|lia].
  - assert (HK0 : K = 0 \/ 0 < K) by lia. destruct HK0 as [->|HK0].
    + change (Prim2SF (of_uint63 (Uint63.of_Z 0))) with (S754_zero false).
      exists 0. simpl. split; [reflexivity|lia].
    + destruct (Prim2SF_of_uint63 K ltac:(lia)) as (mx & ex & Hx & Hex & Hmx & Hcan).
      rewrite Hx. unfold SF64mul, SFmul. cbn [xorb].
      assert (H2 : 0 < 2 ^ (- ep)) by (apply Z.pow_pos_nonneg; lia).
      pose proof (binary_round_aux_le false (Zpos (mx * mp)) (ex + ep) mx ex
                    ltac:(lia) ltac:(lia) ltac:(lia) Hcan) as Hle.
      replace (ex - (ex + ep)) with (- ep) in Hle by lia.
      specialize (Hle ltac:(rewrite Pos2Z.inj_mul; nia)).
      destruct (binary_round_aux prec emax false (Zpos (mx * mp)) (ex + ep) loc_Exact)
        as [s|s| |s m e]; try contradiction.
      * exists 0. split; [reflexivity|lia].
      * destruct Hle as (-> & He & Hm). cbn [cond_Zopp].
        rewrite shiftl_nonpos_exp by lia.
        assert (H3 : 0 < 2 ^ (- e)) by (apply Z.pow_pos_nonneg; lia).
        assert (Hq : 0 <= Zpos m / 2 ^ (- e) <= K).
        { split; [apply Z.div_pos; lia|]. apply div_pow2_le; [lia|].
          rewrite Hmx in Hm. rewrite <- Z.mul_assoc, <- Z.pow_add_r in Hm by lia.
          replace (- ex + (ex - e)) with (- e) in Hm by lia. exact Hm. }
        exists (Zpos m / 2 ^ (- e)). split; [|exact Hq].
        assert (Hlo : (- 2 ^ 63 <=? Zpos m / 2 ^ (- e)) = true) by (apply Z.leb_le; lia).
        assert (Hhi : (Zpos m / 2 ^ (- e) <? 2 ^ 63) = true) by (apply Z.ltb_lt; lia).
        rewrite Hlo, Hhi. reflexivity.
Qed.

(** For [p] equal to zero (of either sign) the index is 0. *)
Lemma index_at_zero (K : Z) (p : float) :
  0 <= K < 2 ^ 53 -> (p =? 0)%float = true ->
  float64_to_int (float64_of_int K * p) = Some 0.
Proof.
  intros HK Hp. rewrite float64_of_int_nonneg by lia.
  unfold float64_to_int. rewrite FloatAxioms.mul_spec.
  rewrite FloatAxioms.eqb_spec in Hp. change (Prim2SF 0) with (S754_zero false) in Hp.
  assert (Hs : exists s, Prim2SF p = S754_zero s).
  { destruct (Prim2SF p) as [s|s| |s m e]; unfold SFeqb, SFcompare in Hp;
      try discriminate; [eauto|destruct s; discriminate|destruct s; discriminate]. }
  destruct Hs as [s Hs]. rewrite Hs.
  assert (HK0 : K = 0 \/ 0 < K) by lia. destruct HK0 as [->|HK0].
  - change (Prim2SF (of_uint63 (Uint63.of_Z 0))) with (S754_zero false). reflexivity.
  - destruct (Prim2SF_of_uint63 K ltac:(lia)) as (mx & ex & Hx & _).
    rewrite Hx. reflexivity.
Qed.

(** For [p = 1] the product is exact and the index is [K]. *)
Lemma index_at_one (K : Z) :
  0 <= K < 2 ^ 53 ->
  float64_to_int (float64_of_int K * 1) = Some K.
Proof.
  intros HK. rewrite float64_of_int_nonneg by lia.
  unfold float64_to_int. rewrite FloatAxioms.mul_spec.
  change (Prim2SF 1) with (S754_finite false 4503599627370496 (-52)).
  assert (HK0 : K = 0 \/ 0 < K) by lia. destruct HK0 as [->|HK0].
  - change (Prim2SF (of_uint63 (Uint63.of_Z 0))) with (S754_zero false). reflexivity.
  - destruct (Prim2SF_of_uint63 K ltac:(lia)) as (mx & ex & Hx & Hex & Hmx & Hcan).
    rewrite Hx. unfold SF64mul, SFmul. cbn [xorb].
    pose proof (binary_round_aux_exact false (ex + -52) mx ex
                  ltac:(lia) ltac:(lia) Hcan) as Hexact.
    replace (ex - (ex + -52)) with 52 in Hexact by lia.
    rewrite Pos2Z.inj_mul. change (Zpos 4503599627370496) with (2 ^ 52).
    rewrite Hexact. cbn [cond_Zopp].
    rewrite shiftl_nonpos_exp by lia.
    assert (H3 : 0 < 2 ^ (- ex)) by (apply Z.pow_pos_nonneg; lia).
    rewrite Hmx, Z.div_mul by lia.
    assert (Hlo : (- 2 ^ 63 <=? K) = true) by (apply Z.leb_le; lia).
    assert (Hhi : (K <? 2 ^ 63) = true) by (apply Z.ltb_lt; lia).
    rewrite Hlo, Hhi. reflexivity.
Qed.


End Binary64.

(** *** The order of [sort.Float64s] is a total preorder *)

(** Case analysis on the integer comparisons inside [SFcompare]. *)
Ltac cmp_cases :=
  repeat match goal with
  | |- context [Z.compare ?a ?b] => destruct (Z.compare_spec a b)
  | H : context [Z.compare ?a ?b] |- _ => destruct (Z.compare_spec a b)
  | |- context [Pos.compare_cont Eq ?a ?b] =>
      rewrite (Pos.compare_cont_spec a b Eq); cbn [Pos.switch_Eq];
      destruct (Pos.compare_spec a b)
  | H : context [Pos.compare_cont Eq ?a ?b] |- _ =>
      rewrite (Pos.compare_cont_spec a b Eq) in H; cbn [Pos.switch_Eq] in H;
      destruct (Pos.compare_spec a b)
  end.

Section FloatOrder.

Local Open Scope Z_scope.

Lemma isNaN_spec (x : float) : isNaN x = SFisnan (Prim2SF x).
Proof.
  unfold isNaN. rewrite FloatAxioms.eqb_spec.
  destruct (Prim2SF x) as [s|s| |s m e]; unfold SFeqb, SFcompare; cbn [SFisnan negb].
  - reflexivity.
  - destruct s; reflexivity.
  - reflexivity.
  - rewrite Z.compare_refl, Pos.compare_cont_refl. destruct s; reflexivity.
Qed.

Lemma lessFloat_spec (x y : float) :
  lessFloat x y = SFless (Prim2SF x) (Prim2SF y).
Proof. unfold lessFloat, SFless. rewrite FloatAxioms.ltb_spec, !isNaN_spec. reflexivity. Qed.

Lemma SFless_trans (a b c : spec_float) :
  SFless b a = false -> SFless c b = false -> SFless c a = false.
Proof.
  destruct a as [sa|sa| |sa ma ea], b as [sb|sb| |sb mb eb], c as [sc|sc| |sc mc ec];
    unfold SFless, SFltb, SFcompare; cbn [SFisnan negb andb orb];
    try reflexivity; try discriminate;
    repeat match goal with s : bool |- _ => destruct s end;
    try reflexivity; try discriminate;
    cmp_cases; cbn [CompOpp]; try reflexivity; try discriminate; intros; exfalso; lia.
Qed.

Lemma SFless_total (a b : spec_float) :
  SFless b a = false \/ SFless a b = false.
Proof.
  destruct a as [sa|sa| |sa ma ea], b as [sb|sb| |sb mb eb];
    unfold SFless, SFltb, SFcompare; cbn [SFisnan negb andb orb];
    auto;
    repeat match goal with s : bool |- _ => destruct s end; auto;
    cmp_cases; cbn [CompOpp]; auto; exfalso; lia.
Qed.

End FloatOrder.

#[export] Instance float_le_trans : Transitive float_le.
Proof.
  intros x y z. unfold float_le. rewrite !lessFloat_spec. apply SFless_trans.
Qed.

#[export] Instance float_le_total : Total float_le.
Proof.
  intros x y. unfold float_le. rewrite !lessFloat_spec. apply SFless_total.
Qed.


Section FloatCompare.

Local Open Scope Z_scope.

Lemma SFcompare_antisym (a b : spec_float) :
  SFcompare a b = option_map CompOpp (SFcompare b a).
Proof.
  destruct a as [sa|sa| |sa ma ea], b as [sb|sb| |sb mb eb];
    unfold SFcompare; cbn [option_map CompOpp];
    repeat match goal with s : bool |- _ => destruct s end;
    try reflexivity;
    cmp_cases; cbn [CompOpp]; try reflexivity; exfalso; lia.
Qed.

(** On values that are not NaN the sort order is [<=]. *)
Lemma float_le_leb (x y : float) :
  float_le x y -> isNaN x = false -> isNaN y = false -> (x <=? y)%float = true.
Proof.
  unfold float_le. rewrite lessFloat_spec, !isNaN_spec, FloatAxioms.leb_spec.
  unfold SFless, SFltb, SFleb. rewrite (SFcompare_antisym (Prim2SF x) (Prim2SF y)).
  intros Hle Hx Hy.
  assert (Hc : match SFcompare (Prim2SF y) (Prim2SF x) with
               | Some Lt => false | _ => true end = true).
  { destruct (SFcompare (Prim2SF y) (Prim2SF x)) as [[]|]; try reflexivity.
    discriminate Hle. }
  assert (Hn : SFcompare (Prim2SF y) (Prim2SF x) <> None).
  { destruct (Prim2SF x) as [sx|sx| |sx mx ex]; try discriminate;
      destruct (Prim2SF y) as [sy|sy| |sy my ey]; discriminate. }
  destruct (SFcompare (Prim2SF y) (Prim2SF x)) as [[]|];
    cbn [option_map CompOpp]; try reflexivity; try discriminate; contradiction.
Qed.

(** Subtracting a zero origin time leaves a value as it is. *)
Lemma sub_zero_r (x : float) : (x - 0)%float = x.
Proof.
  apply Prim2SF_inj. rewrite FloatAxioms.sub_spec.
  change (Prim2SF 0) with (S754_zero false).
  destruct (Prim2SF x) as [[]|[]| |s m e]; reflexivity.
Qed.

End FloatCompare.

(* ================================================================= *)
(** ** The sort instance meets the contract of [sort.Float64s] *)

Lemma sortFloat64s_perm (l : list float) : sortFloat64s l ≡ₚ l.
Proof. apply merge_sort_Permutation. Qed.

Lemma sortFloat64s_sorted (l : list float) :
  StronglySorted float_le (sortFloat64s l).
Proof. apply StronglySorted_merge_sort; apply _. Qed.

Lemma float_le_refl (x : float) : float_le x x.
Proof. destruct (float_le_total x x); assumption. Qed.

(** In a sorted list an earlier element is below a later one. *)
Lemma StronglySorted_lookup_le (l : list float) (i j : nat) (a b : float) :
  StronglySorted float_le l -> (i <= j)%nat ->
  l !! i = Some a -> l !! j = Some b -> float_le a b.
Proof.
  intros Hs. revert i j a b.
  induction Hs as [|x l Hs IH Hx]; intros i j a b Hij Hi Hj.
  - rewrite lookup_nil in Hi. discriminate.
  - destruct i as [|i], j as [|j]; simpl in Hi, Hj; try lia.
    + injection Hi as <-. injection Hj as <-. apply float_le_refl.
    + injection Hi as <-. rewrite Forall_forall in Hx. apply Hx.
      eapply list_elem_of_lookup_2. exact Hj.
    + apply (IH i j); [lia|assumption|assumption].
Qed.

(* ================================================================= *)
(** ** report.go: [percentile] *)

Section PercentileFacts.

Variable Float64s : list float -> list float.
Hypothesis Float64s_perm : forall l, Float64s l ≡ₚ l.
Hypothesis Float64s_sorted : forall l, StronglySorted float_le (Float64s l).

Lemma Float64s_length (l : list float) : length (Float64s l) = length l.
Proof. apply Permutation_length, Float64s_perm. Qed.

(** The index [int(float64(len-1) * p)] is in range and [percentile]
    returns the element of the sorted copy found there. *)
Lemma percentile_at_index (values : list float) (p : float) :
  values <> [] -> (Z.of_nat (length values) < 2 ^ 53)%Z ->
  (0 <=? p)%float = true -> (p <=? 1)%float = true ->
  exists (i : nat) (v : float),
    float64_to_int (float64_of_int (Z.of_nat (length values) - 1) * p)%float
      = Some (Z.of_nat i) /\
    (i < length values)%nat /\
    Float64s values !! i = Some v /\
    percentile Float64s values p = Some v.
Proof.
  intros Hne Hlen Hp0 Hp1.
  destruct values as [|v0 vs]; [contradiction|].
  set (values := v0 :: vs) in *.
  assert (Hn : (1 <= length values)%nat) by (subst values; simpl; lia).
  destruct (index_in_range (Z.of_nat (length values) - 1) p ltac:(lia) Hp0 Hp1)
    as (k & Hk & Hk0).
  assert (Hi : (Z.to_nat k < length (Float64s values))%nat)
    by (rewrite Float64s_length; lia).
  destruct (lookup_lt_is_Some_2 _ _ Hi) as [v Hv].
  exists (Z.to_nat k), v. rewrite Z2Nat.id by lia.
  split; [exact Hk|]. split; [rewrite Float64s_length in Hi; exact Hi|].
  split; [exact Hv|].
  unfold percentile. fold values. subst values. cbv zeta. rewrite Hk.
  destruct (Z.ltb_spec k 0); [lia|exact Hv].
Qed.

Lemma percentile_returns (values : list float) (p : float) :
  (Z.of_nat (length values) < 2 ^ 53)%Z ->
  (0 <=? p)%float = true -> (p <=? 1)%float = true ->
  exists v, percentile Float64s values p = Some v.
Proof.
  intros Hlen Hp0 Hp1. destruct values as [|v0 vs] eqn:E.
  - exists 0%float. reflexivity.
  - rewrite <- E in *.
    destruct (percentile_at_index values p) as (i & v & _ & _ & _ & Hv);
      [subst; discriminate|assumption..|eauto].
Qed.

(** The first element of the sorted copy is below every value, the last
    one above. *)
Lemma sorted_first_is_min (values : list float) (v : float) :
  Float64s values !! 0%nat = Some v -> Forall (float_le v) values.
Proof.
  intros Hv. rewrite <- (Float64s_perm values). apply Forall_lookup_2.
  intros j w Hw.
  apply (StronglySorted_lookup_le (Float64s values) 0 j v w);
    [apply Float64s_sorted|lia|assumption|assumption].
Qed.

Lemma sorted_last_is_max (values : list float) (v : float) :
  Float64s values !! (length values - 1)%nat = Some v ->
  Forall (fun w => float_le w v) values.
Proof.
  intros Hv. rewrite <- (Float64s_perm values). apply Forall_lookup_2.
  intros j w Hw.
  assert (j < length (Float64s values))%nat by (eapply lookup_lt_Some; eauto).
  rewrite Float64s_length in H.
  apply (StronglySorted_lookup_le (Float64s values) j (length values - 1) w v);
    [apply Float64s_sorted|lia|assumption|assumption].
Qed.

Lemma sorted_elem_of (values : list float) (i : nat) (v : float) :
  Float64s values !! i = Some v -> v ∈ values.
Proof.
  intros Hv. rewrite <- (Float64s_perm values).
  eapply list_elem_of_lookup_2. exact Hv.
Qed.

End PercentileFacts.

(* ================================================================= *)
(** ** report.go: [calculateSummary] *)

(** The samples the first loop counts as successes. *)
Definition succeeded (r : RequestResult) : Prop := Error r = ""%string.

#[export] Instance succeeded_dec (r : RequestResult) : Decision (succeeded r).
Proof. unfold succeeded. apply _. Defined.

Lemma tally_step_failed (t : Tally) (r : RequestResult) :
  ~ succeeded r ->
  tally_step t r =
  {| failCount := failCount t + 1; successCount := successCount t;
     ttfbValues := ttfbValues t; cdnLatencyValues := cdnLatencyValues t;
     xResponseTimeSum := xResponseTimeSum t;
     hasXResponseTime := hasXResponseTime t |}.
Proof.
  unfold succeeded, tally_step. intros H.
  destruct (String.eqb_spec (Error r) ""); [contradiction|reflexivity].
Qed.

Lemma tally_step_succeeded (t : Tally) (r : RequestResult) :
  succeeded r ->
  tally_step t r =
  {| failCount := failCount t; successCount := successCount t + 1;
     ttfbValues := ttfbValues t ++ [ttfbMs (TTFB r)];
     cdnLatencyValues := cdnLatencyValues t ++ [CDNLatency r];
     xResponseTimeSum := (xResponseTimeSum t + XResponseTime r)%float;
     hasXResponseTime :=
       if (0 <? XResponseTime r)%float then true else hasXResponseTime t |}.
Proof.
  unfold succeeded, tally_step. intros H.
  destruct (String.eqb_spec (Error r) ""); [reflexivity|contradiction].
Qed.

Lemma tally_ttfbValues (rs : list RequestResult) (t : Tally) :
  ttfbValues (foldl tally_step t rs)
  = ttfbValues t ++ map (fun r => ttfbMs (TTFB r)) (filter succeeded rs).
Proof.
  revert t. induction rs as [|r rs IH]; intros t; simpl foldl.
  - rewrite filter_nil. simpl. rewrite app_nil_r. reflexivity.
  - rewrite IH. destruct (decide (succeeded r)) as [Hs|Hs].
    + rewrite filter_cons_True by assumption.
      rewrite tally_step_succeeded by assumption. simpl.
      rewrite <- app_assoc. reflexivity.
    + rewrite filter_cons_False by assumption.
      rewrite tally_step_failed by assumption. reflexivity.
Qed.

Lemma tally_cdnLatencyValues (rs : list RequestResult) (t : Tally) :
  cdnLatencyValues (foldl tally_step t rs)
  = cdnLatencyValues t ++ map CDNLatency (filter succeeded rs).
Proof.
  revert t. induction rs as [|r rs IH]; intros t; simpl foldl.
  - rewrite filter_nil. simpl. rewrite app_nil_r. reflexivity.
  - rewrite IH. destruct (decide (succeeded r)) as [Hs|Hs].
    + rewrite filter_cons_True by assumption.
      rewrite tally_step_succeeded by assumption. simpl.
      rewrite <- app_assoc. reflexivity.
    + rewrite filter_cons_False by assumption.
      rewrite tally_step_failed by assumption. reflexivity.
Qed.

Lemma tally_counts (rs : list RequestResult) (t : Tally) :
  successCount (foldl tally_step t rs)
  = (successCount t + Z.of_nat (length (filter succeeded rs)))%Z /\
  failCount (foldl tally_step t rs)
  = (failCount t + Z.of_nat (length (filter (fun r => ~ succeeded r) rs)))%Z.
Proof.
  revert t. induction rs as [|r rs IH]; intros t; simpl foldl.
  - rewrite !filter_nil. simpl. lia.
  - destruct (IH (tally_step t r)) as [-> ->].
    destruct (decide (succeeded r)) as [Hs|Hs].
    + rewrite filter_cons_True by assumption.
      rewrite (filter_cons_False (fun r => ~ succeeded r)) by tauto.
      rewrite tally_step_succeeded by assumption. simpl. lia.
    + rewrite filter_cons_False by assumption.
      rewrite (filter_cons_True (fun r => ~ succeeded r)) by assumption.
      rewrite tally_step_failed by assumption. simpl. lia.
Qed.

(** A successful sample with a positive origin time. *)
Definition carriesOriginTime (r : RequestResult) : Prop :=
  succeeded r /\ (0 <? XResponseTime r)%float = true.

Lemma tally_hasXResponseTime (rs : list RequestResult) (t : Tally) :
  hasXResponseTime (foldl tally_step t rs) = true <->
  hasXResponseTime t = true \/ exists r, r ∈ rs /\ carriesOriginTime r.
Proof.
  revert t. induction rs as [|r rs IH]; intros t; simpl foldl.
  - split; [auto|]. intros [H|(r & Hr & _)]; [exact H|].
    apply elem_of_nil in Hr. contradiction.
  - rewrite IH. destruct (decide (succeeded r)) as [Hs|Hs].
    + rewrite tally_step_succeeded by assumption. simpl.
      destruct (0 <? XResponseTime r)%float eqn:Hx.
      * split; [|auto]. intros _. right. exists r.
        split; [apply elem_of_cons; auto|split; assumption].
      * split.
        -- intros [H|(r' & Hr' & Hc)]; [auto|].
           right. exists r'. split; [apply elem_of_cons; auto|exact Hc].
        -- intros [H|(r' & Hr' & Hc)]; [auto|].
           apply elem_of_cons in Hr' as [->|Hr'].
           ++ destruct Hc as [_ Hc]. congruence.
           ++ right. eauto.
    + rewrite tally_step_failed by assumption. simpl.
      split.
      * intros [H|(r' & Hr' & Hc)]; [auto|].
        right. exists r'. split; [apply elem_of_cons; auto|exact Hc].
      * intros [H|(r' & Hr' & Hc)]; [auto|].
        apply elem_of_cons in Hr' as [->|Hr'].
        -- destruct Hc as [Hc _]. contradiction.
        -- right. eauto.
Qed.

Lemma tally_has_iff (rs : list RequestResult) :
  hasXResponseTime (tally rs) = true <-> exists r, r ∈ rs /\ carriesOriginTime r.
Proof.
  unfold tally. rewrite tally_hasXResponseTime. simpl.
  split; [intros [H|H]; [discriminate|exact H]|auto].
Qed.

Lemma tally_no_success (rs : list RequestResult) :
  Forall (fun r => ~ succeeded r) rs ->
  tally rs =
  {| failCount := Z.of_nat (length rs); successCount := 0; ttfbValues := [];
     cdnLatencyValues := []; xResponseTimeSum := 0%float;
     hasXResponseTime := false |}.
Proof.
  unfold tally.
  assert (H : forall t, Forall (fun r => ~ succeeded r) rs ->
    foldl tally_step t rs =
    {| failCount := failCount t + Z.of_nat (length rs);
       successCount := successCount t; ttfbValues := ttfbValues t;
       cdnLatencyValues := cdnLatencyValues t;
       xResponseTimeSum := xResponseTimeSum t;
       hasXResponseTime := hasXResponseTime t |}).
  { induction rs as [|r rs IH]; intros t Hall; simpl foldl.
    - destruct t; simpl. f_equal. lia.
    - inversion Hall as [|? ? Hr Hrs]; subst.
      rewrite IH by assumption. rewrite tally_step_failed by assumption.
      simpl. f_equal. lia. }
  intros Hall. rewrite H by assumption. reflexivity.
Qed.

Section SummaryFacts.

Variable Float64s : list float -> list float.
Hypothesis Float64s_perm : forall l, Float64s l ≡ₚ l.
Hypothesis Float64s_sorted : forall l, StronglySorted float_le (Float64s l).

Lemma tally_lengths (rs : list RequestResult) :
  length (ttfbValues (tally rs)) = length (cdnLatencyValues (tally rs)) /\
  (length (ttfbValues (tally rs)) <= length rs)%nat.
Proof.
  unfold tally. rewrite tally_ttfbValues, tally_cdnLatencyValues. simpl.
  rewrite !length_map. split; [reflexivity|apply length_filter].
Qed.

(** Without a success the aggregation stops before any statistic. *)
Lemma calculateSummary_no_success (endpoint : Endpoint)
    (rs : list RequestResult) :
  ttfbValues (tally rs) = [] ->
  calculateSummary Float64s endpoint rs
  = mkExec (Some (countsOnly endpoint (Z.of_nat (length rs)) (tally rs))) [].
Proof. intros H. unfold calculateSummary. rewrite H. reflexivity. Qed.

(** With samples short enough to be held in memory the aggregation
    returns, and the summary carries the tallied counts and flag. *)
Lemma calculateSummary_returns (endpoint : Endpoint)
    (rs : list RequestResult) :
  (Z.of_nat (length rs) < 2 ^ 53)%Z ->
  exists s,
    outcome (calculateSummary Float64s endpoint rs) = Some s /\
    HasCDN s = hasXResponseTime (tally rs) /\
    SuccessCount s = successCount (tally rs) /\
    FailCount s = failCount (tally rs) /\
    TotalTests s = Z.of_nat (length rs).
Proof.
  intros Hlen. destruct (tally_lengths rs) as [Hl Hle].
  destruct (ttfbValues (tally rs)) as [|t0 ts] eqn:Ht.
  - rewrite calculateSummary_no_success by assumption. simpl.
    eexists. split; [reflexivity|]. simpl.
    assert (Hh : hasXResponseTime (tally rs) = false).
    { destruct (hasXResponseTime (tally rs)) eqn:E; [|reflexivity].
      apply tally_has_iff in E as (r & Hr & Hs & _).
      assert (Hin : ttfbMs (TTFB r) ∈ ttfbValues (tally rs)).
      { unfold tally. rewrite tally_ttfbValues. simpl.
        apply list_elem_of_fmap. exists r. split; [reflexivity|].
        apply list_elem_of_filter. auto. }
      rewrite Ht in Hin. apply elem_of_nil in Hin. contradiction. }
    rewrite Hh. auto.
  - unfold calculateSummary. rewrite Ht. rewrite <- Ht.
    destruct (stats t0 (ttfbValues (tally rs))) as [[ttfbSum ttfbMin] ttfbMax].
    destruct (tally_lengths rs) as [Hl2 Hle2].
    assert (Hb : (Z.of_nat (length (ttfbValues (tally rs))) < 2 ^ 53)%Z) by lia.
    assert (Hb' : (Z.of_nat (length (cdnLatencyValues (tally rs))) < 2 ^ 53)%Z)
      by lia.
    destruct (cdnLatencyValues (tally rs)) as [|c0 cs] eqn:Hc;
      [rewrite Ht in Hl2; discriminate|]. rewrite <- Hc. rewrite <- Hc in Hb'.
    pose proof (percentile_returns Float64s Float64s_perm (ttfbValues (tally rs)))
      as PT.
    pose proof (percentile_returns Float64s Float64s_perm
                  (cdnLatencyValues (tally rs))) as PC.
    destruct (PT 0.50%float Hb eq_refl eq_refl) as [t50 ->].
    destruct (PT 0.90%float Hb eq_refl eq_refl) as [t90 ->].
    destruct (PT 0.95%float Hb eq_refl eq_refl) as [t95 ->].
    destruct (PT 0.99%float Hb eq_refl eq_refl) as [t99 ->].
    destruct (PC 0.50%float Hb' eq_refl eq_refl) as [c50 ->].
    destruct (PC 0.90%float Hb' eq_refl eq_refl) as [c90 ->].
    destruct (PC 0.95%float Hb' eq_refl eq_refl) as [c95 ->].
    destruct (PC 0.99%float Hb' eq_refl eq_refl) as [c99 ->].
    replace (head (cdnLatencyValues (tally rs))) with (Some c0)
      by (rewrite Hc; reflexivity).
    unfold mbind, Exec_bind, checked, divByLen, mret, Exec_ret.
    cbn [outcome divisors].
    destruct (stats c0 (cdnLatencyValues (tally rs))) as [[cdnSum cdnMin] cdnMax].
    eexists. split; [reflexivity|]. simpl. auto.
Qed.

(** Every length the aggregation divides by is positive. *)
Lemma calculateSummary_divisors (endpoint : Endpoint)
    (rs : list RequestResult) :
  Forall (fun n => n <> 0%nat) (divisors (calculateSummary Float64s endpoint rs)).
Proof.
  destruct (tally_lengths rs) as [Hl _].
  unfold calculateSummary.
  destruct (ttfbValues (tally rs)) as [|t0 ts] eqn:Ht; [constructor|].
  rewrite <- Ht.
  assert (Hn : length (ttfbValues (tally rs)) <> 0%nat) by (rewrite Ht; discriminate).
  assert (Hn' : length (cdnLatencyValues (tally rs)) <> 0%nat)
    by (destruct (tally_lengths rs) as [Hl2 _]; lia).
  destruct (stats t0 (ttfbValues (tally rs))) as [[ttfbSum ttfbMin] ttfbMax].
  unfold mbind, Exec_bind, checked, divByLen, mret, Exec_ret.
  cbn [outcome divisors].
  repeat match goal with
  | |- context [percentile ?f ?l ?p] =>
      destruct (percentile f l p); cbn [outcome divisors]
  | |- context [head ?l] => destruct (head l); cbn [outcome divisors]
  | |- context [stats ?c ?l] => destruct (stats c l) as [[? ?] ?]; cbn [outcome divisors]
  end;
  repeat (rewrite ?app_nil_r; simpl app);
  repeat constructor; assumption.
Qed.

End SummaryFacts.

(* ================================================================= *)
(** ** client.go: [measureRequest] *)

(** A response carrying [v] as its origin-processing-time header. *)
Definition originResponse (status : Z) (proto v : string) : Response :=
  {| resp_StatusCode := status; resp_Proto := proto;
     resp_Header := {[ "X-Source-Response-Time"%string := [v] ]} |}.

(** A response without that header. *)
Definition plainResponse (status : Z) (proto : string) : Response :=
  {| resp_StatusCode := status; resp_Proto := proto; resp_Header := ∅ |}.

(** The text [measureRequest] reads the origin time from. *)
Definition originHeader (resp : Response) : string :=
  Header_Get (resp_Header resp) "x-source-response-time".

Lemma originHeader_originResponse (status : Z) (proto v : string) :
  originHeader (originResponse status proto v) = v.
Proof.
  unfold originHeader, Header_Get, originResponse. cbn [resp_Header].
  change (CanonicalMIMEHeaderKey "x-source-response-time")
    with "X-Source-Response-Time"%string.
  rewrite lookup_singleton_eq. reflexivity.
Qed.

Lemma originHeader_plainResponse (status : Z) (proto : string) :
  originHeader (plainResponse status proto) = ""%string.
Proof.
  unfold originHeader, Header_Get, plainResponse. cbn [resp_Header].
  rewrite lookup_empty. reflexivity.
Qed.

Section MeasureFacts.

Variable TrimSpace : string -> string.
Variable ParseFloat : string -> option float.

Let measure := measureRequest TrimSpace ParseFloat.
Let seconds := originSeconds TrimSpace ParseFloat.

Lemma measureRequest_parsed (client : Client) (url domain : string)
    (ttfb : Duration) (reused : bool) (resp : Response) (val : float) :
  seconds (originHeader resp) = Some val ->
  measure client url domain (DoReturned ttfb reused resp)
  = {| Index := 0; TTFB := ttfb; XResponseTime := (val * 1000)%float;
       CDNLatency := (ttfbMs ttfb - val * 1000)%float;
       StatusCode := resp_StatusCode resp; Reused := reused;
       ActualProto := resp_Proto resp; Error := "" |}.
Proof.
  unfold seconds, measure, measureRequest, originHeader. intros ->. reflexivity.
Qed.

Lemma measureRequest_unparsed (client : Client) (url domain : string)
    (ttfb : Duration) (reused : bool) (resp : Response) :
  seconds (originHeader resp) = None ->
  measure client url domain (DoReturned ttfb reused resp)
  = {| Index := 0; TTFB := ttfb; XResponseTime := 0;
       CDNLatency := ttfbMs ttfb;
       StatusCode := resp_StatusCode resp; Reused := reused;
       ActualProto := resp_Proto resp; Error := "" |}.
Proof.
  unfold seconds, measure, measureRequest, originHeader. intros ->.
  unfold set_CDNLatency. cbn [XResponseTime TTFB Index StatusCode Reused
    ActualProto Error zeroRequestResult].
  rewrite sub_zero_r. reflexivity.
Qed.

(** A missing header is one case of [originSeconds] giving nothing. *)
Lemma originSeconds_empty : seconds "" = None.
Proof. reflexivity. Qed.

End MeasureFacts.


(** A response 100.25 ms after the request, the origin reporting 45 ms. *)
Example sample_with_origin_time :
  measureRequest trimSpace parseDecimal
    (createHTTP2Client "203.0.113.7" (30 * Second)%Z)
    "https://cdn.example.com/api/health" "cdn.example.com"
    (DoReturned 100250000%Z false (originResponse 200 "HTTP/2.0" "0.045s"))
  = {| Index := 0; TTFB := 100250000%Z; XResponseTime := 45;
       CDNLatency := 55.25; StatusCode := 200; Reused := false;
       ActualProto := "HTTP/2.0"; Error := "" |}.
Proof.
  rewrite (measureRequest_parsed trimSpace parseDecimal _ _ _ _ _ _ 0.045%float)
    by (rewrite originHeader_originResponse; vm_compute; reflexivity).
  vm_compute. reflexivity.
Qed.

(** The reading of C3 as a property of the code: some test on a
    [RequestResult] tells whether the origin time was unavailable. *)
Definition originAbsenceMarked (TrimSpace : string -> string)
    (ParseFloat : string -> option float) : Prop :=
  exists absent : RequestResult -> bool,
    forall client url domain ttfb reused resp,
      absent (measureRequest TrimSpace ParseFloat client url domain
                (DoReturned ttfb reused resp)) = true
      <-> originSeconds TrimSpace ParseFloat (originHeader resp) = None.

Lemma equal_samples_not_marked
    (TrimSpace : string -> string) (ParseFloat : string -> option float)
    (client : Client) (url domain : string) (ttfb : Duration) (reused : bool)
    (resp0 resp1 : Response) :
  originSeconds TrimSpace ParseFloat (originHeader resp0) <> None ->
  originSeconds TrimSpace ParseFloat (originHeader resp1) = None ->
  measureRequest TrimSpace ParseFloat client url domain (DoReturned ttfb reused resp0)
  = measureRequest TrimSpace ParseFloat client url domain (DoReturned ttfb reused resp1) ->
  ~ originAbsenceMarked TrimSpace ParseFloat.
Proof.
  intros H0 H1 E [absent H].
  apply H0. apply (H client url domain ttfb reused resp0).
  rewrite E. apply (H client url domain ttfb reused resp1). exact H1.
Qed.

(** C3, as stated, fails: a response whose header reads ["0"] and a
    response without the header give the same [RequestResult], so no
    marker on the sample separates a zero origin time from a missing
    one. *)
Lemma zero_and_absent_origin_coincide :
  let c := createHTTP1Client "203.0.113.7" Second in
  let sample resp :=
    measureRequest trimSpace parseDecimal c "https://cdn.example.com/"
      "cdn.example.com" (DoReturned 100250000%Z false resp) in
  originSeconds trimSpace parseDecimal
    (originHeader (originResponse 200 "HTTP/1.1" "0")) = Some 0%float /\
  originSeconds trimSpace parseDecimal
    (originHeader (plainResponse 200 "HTTP/1.1")) = None /\
  sample (originResponse 200 "HTTP/1.1" "0") = sample (plainResponse 200 "HTTP/1.1") /\
  ~ originAbsenceMarked trimSpace parseDecimal.
Proof.
  cbv beta zeta.
  assert (H0 : originSeconds trimSpace parseDecimal
                 (originHeader (originResponse 200 "HTTP/1.1" "0")) = Some 0%float)
    by (rewrite originHeader_originResponse; vm_compute; reflexivity).
  assert (H1 : originSeconds trimSpace parseDecimal
                 (originHeader (plainResponse 200 "HTTP/1.1")) = None)
    by (rewrite originHeader_plainResponse; reflexivity).
  assert (E : measureRequest trimSpace parseDecimal
                (createHTTP1Client "203.0.113.7" Second)
                "https://cdn.example.com/" "cdn.example.com"
                (DoReturned 100250000%Z false (originResponse 200 "HTTP/1.1" "0"))
            = measureRequest trimSpace parseDecimal
                (createHTTP1Client "203.0.113.7" Second)
                "https://cdn.example.com/" "cdn.example.com"
                (DoReturned 100250000%Z false (plainResponse 200 "HTTP/1.1"))).
  { rewrite (measureRequest_parsed trimSpace parseDecimal _ _ _ _ _ _ 0%float H0).
    rewrite (measureRequest_unparsed trimSpace parseDecimal _ _ _ _ _ _ H1).
    vm_compute. reflexivity. }
  split; [exact H0|]. split; [exact H1|]. split; [exact E|].
  eapply equal_samples_not_marked; [|exact H1|exact E].
  rewrite H0. discriminate.
Qed.

(** C3 (amended): for every request whose origin-processing-time header
    is absent or does not parse, the sample is a success with origin
    time 0 and CDN latency equal to the full time-to-first-byte in
    milliseconds; it is the very sample a response with the same status
    and protocol and an origin time parsed as 0 produces. *)
Theorem absent_origin_time_recorded_as_zero
    (TrimSpace : string -> string) (ParseFloat : string -> option float)
    (client : Client) (url domain : string)
    (ttfb : Duration) (reused : bool) (resp : Response) :
  originSeconds TrimSpace ParseFloat (originHeader resp) = None ->
  let r := measureRequest TrimSpace ParseFloat client url domain
             (DoReturned ttfb reused resp) in
  Error r = ""%string /\
  XResponseTime r = 0%float /\
  CDNLatency r = ttfbMs (TTFB r) /\
  forall resp',
    resp_StatusCode resp' = resp_StatusCode resp ->
    resp_Proto resp' = resp_Proto resp ->
    originSeconds TrimSpace ParseFloat (originHeader resp') = Some 0%float ->
    measureRequest TrimSpace ParseFloat client url domain
      (DoReturned ttfb reused resp') = r.
Proof.
  intros H r. subst r.
  rewrite (measureRequest_unparsed _ _ _ _ _ _ _ _ H).
  repeat split.
  intros resp' Hs Hp H'.
  rewrite (measureRequest_parsed _ _ _ _ _ _ _ _ _ H'), Hs, Hp.
  change (0 * 1000)%float with 0%float. rewrite sub_zero_r. reflexivity.
Qed.

Lemma absent_origin_time_recorded_as_zero_witness :
  let r := measureRequest trimSpace parseDecimal
             (createHTTP1Client "203.0.113.7" (30 * Second)%Z)
             "https://cdn.example.com/api/health" "cdn.example.com"
             (DoReturned 100250000%Z true (plainResponse 200 "HTTP/1.1")) in
  Error r = ""%string /\
  XResponseTime r = 0%float /\
  CDNLatency r = ttfbMs (TTFB r) /\
  forall resp',
    resp_StatusCode resp' = 200%Z ->
    resp_Proto resp' = "HTTP/1.1"%string ->
    originSeconds trimSpace parseDecimal (originHeader resp') = Some 0%float ->
    measureRequest trimSpace parseDecimal
      (createHTTP1Client "203.0.113.7" (30 * Second)%Z)
      "https://cdn.example.com/api/health" "cdn.example.com"
      (DoReturned 100250000%Z true resp') = r.
Proof.
  apply (absent_origin_time_recorded_as_zero trimSpace parseDecimal).
  rewrite originHeader_plainResponse. reflexivity.
Defined.

(** C8, as stated, fails in its second half: the header value ["abc"]
    does not yield an origin time distinct from zero.  The sample has
    origin time exactly 0 and is the sample the header ["0s"] gives. *)
Lemma malformed_header_yields_zero :
  let c := createHTTP2Client "203.0.113.7" (30 * Second)%Z in
  let sample v :=
    measureRequest trimSpace parseDecimal c "https://cdn.example.com/" "cdn.example.com"
      (DoReturned 100250000%Z false (originResponse 200 "HTTP/2.0" v)) in
  XResponseTime (sample "abc"%string) = 0%float /\
  sample "abc"%string = sample "0s"%string.
Proof.
  cbv beta zeta.
  rewrite (measureRequest_unparsed trimSpace parseDecimal)
    by (rewrite originHeader_originResponse; vm_compute; reflexivity).
  rewrite (measureRequest_parsed trimSpace parseDecimal _ _ _ _ _ _ 0%float)
    by (rewrite originHeader_originResponse; vm_compute; reflexivity).
  split; [reflexivity|]. vm_compute. reflexivity.
Qed.

(** C8 (amended): the header value is stripped of a trailing ["s"] and of
    surrounding white space, parsed as seconds and multiplied by 1000:
    ["0.045s"] yields an origin time of 45.0 ms.  A malformed value such
    as ["abc"] leaves the sample a success with origin time 0 and CDN
    latency equal to the full time-to-first-byte. *)
Theorem origin_header_parsing
    (TrimSpace : string -> string) (ParseFloat : string -> option float)
    (client : Client) (url domain : string)
    (ttfb : Duration) (reused : bool) (status : Z) (proto : string) :
  TrimSpace "0.045" = "0.045"%string -> ParseFloat "0.045" = Some 0.045%float ->
  TrimSpace "abc" = "abc"%string -> ParseFloat "abc" = None ->
  let sample v :=
    measureRequest TrimSpace ParseFloat client url domain
      (DoReturned ttfb reused (originResponse status proto v)) in
  XResponseTime (sample "0.045s"%string) = 45%float /\
  Error (sample "abc"%string) = ""%string /\
  XResponseTime (sample "abc"%string) = 0%float /\
  CDNLatency (sample "abc"%string) = ttfbMs ttfb.
Proof.
  intros HT1 HP1 HT2 HP2 sample. subst sample. cbv beta.
  rewrite (measureRequest_parsed TrimSpace ParseFloat _ _ _ _ _ _ 0.045%float).
  2:{ rewrite originHeader_originResponse. unfold originSeconds.
      change (TrimSuffix "0.045s" "s") with "0.045"%string.
      change ("0.045s" =? "")%string with false. cbv iota.
      rewrite HT1. exact HP1. }
  rewrite (measureRequest_unparsed TrimSpace ParseFloat).
  2:{ rewrite originHeader_originResponse. unfold originSeconds.
      change (TrimSuffix "abc" "s") with "abc"%string.
      change ("abc" =? "")%string with false. cbv iota.
      rewrite HT2. exact HP2. }
  repeat split.
Qed.

Lemma origin_header_parsing_witness :
  let sample v :=
    measureRequest trimSpace parseDecimal
      (createHTTP2Client "203.0.113.7" (30 * Second)%Z)
      "https://cdn.example.com/" "cdn.example.com"
      (DoReturned 100250000%Z false (originResponse 200 "HTTP/2.0" v)) in
  XResponseTime (sample "0.045s"%string) = 45%float /\
  Error (sample "abc"%string) = ""%string /\
  XResponseTime (sample "abc"%string) = 0%float /\
  CDNLatency (sample "abc"%string) = ttfbMs 100250000%Z.
Proof.
  apply (origin_header_parsing trimSpace parseDecimal); vm_compute; reflexivity.
Defined.

(* ================================================================= *)
(** ** main.go: one round *)

(** A request that did not produce a response. *)
Definition failed (o : Outcome) : Prop :=
  match o with
  | NewRequestFailed _ | DoFailed _ => True
  | DoReturned _ _ _ => False
  end.

Lemma append_nonempty (prefix s : string) :
  prefix <> ""%string -> (prefix ++ s)%string <> ""%string.
Proof. destruct prefix; [contradiction|discriminate]. Qed.

Section RoundFacts.

Variable TrimSpace : string -> string.
Variable ParseFloat : string -> option float.

Let probe_ := probe TrimSpace ParseFloat.
Let complete_ := complete TrimSpace ParseFloat.
Let round_ := runParallelRound TrimSpace ParseFloat.

(** A failed request gives the zero sample, but for its error text. *)
Lemma measureRequest_failed (client : Client) (url domain : string)
    (o : Outcome) :
  failed o ->
  exists msg, msg <> ""%string /\
    measureRequest TrimSpace ParseFloat client url domain o
    = set_Error zeroRequestResult msg.
Proof.
  destruct o as [err|err|ttfb reused resp]; simpl; intros H; try contradiction.
  - eexists. split; [|reflexivity]. apply append_nonempty. discriminate.
  - eexists. split; [|reflexivity]. apply append_nonempty. discriminate.
Qed.

Lemma complete_length (tasks : list RequestTask) (net : nat -> Outcome)
    (results : list EndpointResult) (idx : nat) :
  length (complete_ tasks net results idx) = length results.
Proof.
  unfold complete_, complete. destruct (tasks !! idx); [|reflexivity].
  apply length_insert.
Qed.

Lemma foldl_complete_length (tasks : list RequestTask) (net : nat -> Outcome)
    (order : list nat) (results : list EndpointResult) :
  length (foldl (complete_ tasks net) results order) = length results.
Proof.
  revert results. induction order as [|idx order IH]; intros results; simpl.
  - reflexivity.
  - rewrite IH. apply complete_length.
Qed.

(** Goroutines write disjoint slots: whatever the order, slot [i] ends up
    holding the result of task [i] once goroutine [i] has completed. *)
Lemma foldl_complete_lookup (tasks : list RequestTask) (net : nat -> Outcome)
    (order : list nat) (results : list EndpointResult) (i : nat)
    (t : RequestTask) :
  length results = length tasks -> tasks !! i = Some t ->
  foldl (complete_ tasks net) results order !! i
  = if decide (i ∈ order) then Some (probe_ t (net i)) else results !! i.
Proof.
  intros Hlen Ht. revert results Hlen.
  induction order as [|idx order IH]; intros results Hlen; simpl foldl.
  - destruct (decide (i ∈ [])) as [H|_]; [|reflexivity].
    apply elem_of_nil in H. contradiction.
  - rewrite IH by (rewrite complete_length; exact Hlen).
    assert (Hi : (i < length results)%nat).
    { rewrite Hlen. eapply lookup_lt_Some. exact Ht. }
    destruct (decide (i ∈ order)) as [Hin|Hnin].
    + rewrite decide_True by (apply elem_of_cons; auto). reflexivity.
    + destruct (decide (i = idx)) as [->|Hne].
      * rewrite decide_True by (apply elem_of_cons; auto).
        unfold complete_, complete. rewrite Ht.
        rewrite list_lookup_insert_eq by exact Hi. reflexivity.
      * rewrite decide_False by (rewrite elem_of_cons; tauto).
        unfold complete_, complete.
        destruct (tasks !! idx); [|reflexivity].
        rewrite list_lookup_insert_ne by congruence. reflexivity.
Qed.

(** [runParallelRound] after [wg.Wait()]: one result per task, in task
    order, for every completion order. *)
Lemma runParallelRound_spec (tasks : list RequestTask) (net : nat -> Outcome)
    (order : list nat) :
  order ≡ₚ seq 0 (length tasks) ->
  round_ tasks net order = imap (fun i t => probe_ t (net i)) tasks.
Proof.
  intros Hperm. apply list_eq. intros i.
  unfold round_, runParallelRound.
  rewrite list_lookup_imap.
  destruct (tasks !! i) as [t|] eqn:Ht; simpl.
  - fold complete_. rewrite (foldl_complete_lookup tasks net order _ i t);
      [|apply length_replicate|exact Ht].
    rewrite decide_True; [reflexivity|].
    rewrite Hperm. apply elem_of_seq. apply lookup_lt_Some in Ht. lia.
  - apply lookup_ge_None. fold complete_. rewrite foldl_complete_length.
    rewrite length_replicate. apply lookup_ge_None. exact Ht.
Qed.

End RoundFacts.

(** C7: a request whose construction, connection or protocol exchange
    fails yields a sample whose timing fields are zero and whose error
    text is not empty; [measureRequest] is a total function, and the round
    it belongs to still returns one result per task, the results of the
    other tasks being what their own requests produced. *)
Theorem failed_requests_are_error_samples
    (TrimSpace : string -> string) (ParseFloat : string -> option float)
    (tasks : list RequestTask) (net : nat -> Outcome) (order : list nat)
    (i : nat) (t : RequestTask) :
  order ≡ₚ seq 0 (length tasks) ->
  tasks !! i = Some t -> failed (net i) ->
  let results := runParallelRound TrimSpace ParseFloat tasks net order in
  length results = length tasks /\
  (exists msg, msg <> ""%string /\
     results !! i =
     Some {| er_Endpoint := task_Endpoint t;
             er_Result := {| Index := task_Index t; TTFB := 0%Z;
                             XResponseTime := 0; CDNLatency := 0;
                             StatusCode := 0%Z; Reused := false;
                             ActualProto := ""; Error := msg |} |}) /\
  (forall j t', tasks !! j = Some t' ->
     results !! j = Some (probe TrimSpace ParseFloat t' (net j))).
Proof.
  intros Hperm Ht Hf results. subst results.
  rewrite (runParallelRound_spec TrimSpace ParseFloat tasks net order Hperm).
  split; [apply length_imap|]. split.
  - destruct (measureRequest_failed TrimSpace ParseFloat
                (task_Client t) (task_URL t) (task_Domain t) (net i) Hf)
      as (msg & Hmsg & Hm).
    exists msg. split; [exact Hmsg|].
    rewrite list_lookup_imap, Ht. simpl. unfold probe. rewrite Hm. reflexivity.
  - intros j t' Ht'. rewrite list_lookup_imap, Ht'. reflexivity.
Qed.

(** Two endpoints probed in round 3; the first request times out. *)
Definition exampleTasks : list RequestTask :=
  [ {| task_Endpoint := {| IP := "203.0.113.7"; EndpointProtocol := HTTP2;
                            Name := "edge-a" |};
       task_Client := createHTTP2Client "203.0.113.7" Second;
       task_URL := "https://cdn.example.com/";
       task_Domain := "cdn.example.com"; task_Index := 3%Z |};
    {| task_Endpoint := {| IP := "203.0.113.8"; EndpointProtocol := HTTP1;
                            Name := "edge-b" |};
       task_Client := createHTTP1Client "203.0.113.8" Second;
       task_URL := "https://cdn.example.com/";
       task_Domain := "cdn.example.com"; task_Index := 3%Z |} ].

Definition exampleNet (idx : nat) : Outcome :=
  match idx with
  | O => DoFailed "context deadline exceeded"
  | _ => DoReturned 90000000%Z true (plainResponse 200 "HTTP/1.1")
  end.

Lemma failed_requests_are_error_samples_witness :
  let results :=
    runParallelRound trimSpace parseDecimal exampleTasks exampleNet [1; 0]%nat in
  length results = 2%nat /\
  (exists msg, msg <> ""%string /\
     results !! 0%nat =
     Some {| er_Endpoint := {| IP := "203.0.113.7"; EndpointProtocol := HTTP2;
                               Name := "edge-a" |};
             er_Result := {| Index := 3%Z; TTFB := 0%Z;
                             XResponseTime := 0; CDNLatency := 0;
                             StatusCode := 0%Z; Reused := false;
                             ActualProto := ""; Error := msg |} |}) /\
  (forall j t', exampleTasks !! j = Some t' ->
     results !! j = Some (probe trimSpace parseDecimal t' (exampleNet j))).
Proof.
  refine (failed_requests_are_error_samples trimSpace parseDecimal
            exampleTasks exampleNet [1; 0]%nat 0%nat _ _ eq_refl I).
  simpl. apply Permutation_swap.
Defined.

(* ================================================================= *)
(** ** main.go: the round loop *)

Section LoopFacts.

Variable TrimSpace : string -> string.
Variable ParseFloat : string -> option float.

Let key (ec : EndpointClient) : string := resultKey (ec_Endpoint ec).

Lemma initResults_lookup (clients : list EndpointClient) (ec : EndpointClient) :
  ec ∈ clients -> initResults clients !! key ec = Some [].
Proof.
  unfold initResults.
  assert (H : forall m : gmap string (list RequestResult),
    (ec ∈ clients \/ m !! key ec = Some []) ->
    foldl (fun m ec => <[resultKey (ec_Endpoint ec) := []]> m) m clients
      !! key ec = Some []).
  { induction clients as [|c cs IH]; intros m [Hin|Hm]; simpl.
    - apply elem_of_nil in Hin. contradiction.
    - exact Hm.
    - apply IH. apply elem_of_cons in Hin as [->|Hin]; [right|left; exact Hin].
      apply lookup_insert_eq.
    - apply IH. right.
      destruct (decide (resultKey (ec_Endpoint c) = key ec)) as [E|E].
      + rewrite E. apply lookup_insert_eq.
      + rewrite lookup_insert_ne by exact E. exact Hm. }
  intros Hin. apply H. left. exact Hin.
Qed.

Lemma collect_other (results : list EndpointResult)
    (m : gmap string (list RequestResult)) (k : string) :
  k ∉ map (fun er => resultKey (er_Endpoint er)) results ->
  collect m results !! k = m !! k.
Proof.
  unfold collect. revert m.
  induction results as [|er results IH]; intros m Hk; simpl; [reflexivity|].
  simpl in Hk. apply not_elem_of_cons in Hk as [Hne Hk].
  rewrite IH by exact Hk. apply lookup_insert_ne. congruence.
Qed.

(** With distinct keys, collecting a round appends to each sequence the
    one result filed under its key. *)
Lemma collect_lookup (results : list EndpointResult)
    (m : gmap string (list RequestResult)) (j : nat) (er : EndpointResult) :
  NoDup (map (fun er => resultKey (er_Endpoint er)) results) ->
  results !! j = Some er ->
  collect m results !! resultKey (er_Endpoint er)
  = Some (default [] (m !! resultKey (er_Endpoint er)) ++ [er_Result er]).
Proof.
  revert m j.
  induction results as [|er0 results IH]; intros m j Hnd Hj; [discriminate|].
  simpl in Hnd. apply NoDup_cons in Hnd as [Hnotin Hnd].
  change (collect m (er0 :: results))
    with (collect (<[resultKey (er_Endpoint er0) :=
                      default [] (m !! resultKey (er_Endpoint er0))
                      ++ [er_Result er0]]> m) results).
  destruct j as [|j]; simpl in Hj.
  - injection Hj as <-. rewrite collect_other by exact Hnotin.
    apply lookup_insert_eq.
  - rewrite (IH _ j Hnd Hj).
    assert (Hne : resultKey (er_Endpoint er0) <> resultKey (er_Endpoint er)).
    { intros E. apply Hnotin. rewrite E.
      apply (list_elem_of_fmap_2 (fun er => resultKey (er_Endpoint er))).
      eapply list_elem_of_lookup_2. exact Hj. }
    rewrite lookup_insert_ne by exact Hne. reflexivity.
Qed.

(** The sample endpoint [ec] gets in round [round] when it stands at
    position [j] of the client list. *)
Definition sampleOf (url domain : string) (net : nat -> nat -> Outcome)
    (j : nat) (ec : EndpointClient) (round : nat) : RequestResult :=
  set_Index
    (measureRequest TrimSpace ParseFloat (ec_Client ec) url domain (net round j))
    (Z.of_nat round).

Lemma round_step_lookup (clients : list EndpointClient) (url domain : string)
    (net : nat -> nat -> Outcome) (sched : nat -> list nat)
    (m : gmap string (list RequestResult)) (round j : nat) (ec : EndpointClient) :
  NoDup (map key clients) ->
  sched round ≡ₚ seq 0 (length clients) ->
  clients !! j = Some ec ->
  round_step TrimSpace ParseFloat clients url domain net sched m round !! key ec
  = Some (default [] (m !! key ec) ++ [sampleOf url domain net j ec round]).
Proof.
  intros Hnd Hperm Hj. unfold round_step.
  rewrite runParallelRound_spec
    by (unfold roundTasks; rewrite length_map; exact Hperm).
  set (results := imap _ _).
  assert (Hkeys : map (fun er => resultKey (er_Endpoint er)) results
                  = map key clients).
  { subst results. unfold roundTasks. apply list_eq. intros i.
    rewrite !list_lookup_fmap, list_lookup_imap, list_lookup_fmap.
    destruct (clients !! i); reflexivity. }
  assert (Hr : results !! j
               = Some {| er_Endpoint := ec_Endpoint ec;
                         er_Result := sampleOf url domain net j ec round |}).
  { subst results. unfold roundTasks.
    rewrite list_lookup_imap, list_lookup_fmap, Hj. reflexivity. }
  pose proof (collect_lookup results m j _ ltac:(rewrite Hkeys; exact Hnd) Hr) as H.
  exact H.
Qed.

Lemma runRounds_lookup (clients : list EndpointClient) (url domain : string)
    (net : nat -> nat -> Outcome) (sched : nat -> list nat)
    (n j : nat) (ec : EndpointClient) :
  NoDup (map key clients) ->
  (forall round, sched round ≡ₚ seq 0 (length clients)) ->
  clients !! j = Some ec ->
  foldl (round_step TrimSpace ParseFloat clients url domain net sched)
        (initResults clients) (seq 1 n) !! key ec
  = Some (map (sampleOf url domain net j ec) (seq 1 n)).
Proof.
  intros Hnd Hperm Hj. induction n as [|n IH].
  - simpl. apply initResults_lookup. eapply list_elem_of_lookup_2. exact Hj.
  - rewrite seq_S, foldl_app, map_app. simpl.
    rewrite (round_step_lookup clients url domain net sched _ (S n) j ec Hnd
               (Hperm (S n)) Hj).
    rewrite IH. reflexivity.
Qed.

End LoopFacts.

(** The reading of C6 as a property of the code, for any endpoints. *)
Definition roundOrderOf (clients : list EndpointClient) : Prop :=
  forall url domain TestCount net sched,
    (forall round, sched round ≡ₚ seq 0 (length clients)) ->
    forall ec, ec ∈ clients ->
    forall i r,
      resultsOf (runRounds trimSpace parseDecimal clients url domain
                   TestCount net sched) (ec_Endpoint ec) !! i = Some r ->
      Index r = (Z.of_nat i + 1)%Z.

(** Two endpoints of the same name and protocol at different addresses. *)
Definition twinClients : list EndpointClient :=
  [ {| ec_Endpoint := {| IP := "203.0.113.7"; EndpointProtocol := HTTP2;
                         Name := "edge" |};
       ec_Client := createHTTP2Client "203.0.113.7" Second |};
    {| ec_Endpoint := {| IP := "203.0.113.8"; EndpointProtocol := HTTP2;
                         Name := "edge" |};
       ec_Client := createHTTP2Client "203.0.113.8" Second |} ].

(** C6, as stated, fails: two endpoints with the same name and protocol
    share one key of [endpointResults], so both results of a round are
    appended to one sequence and its second position holds a sample of
    round 1. *)
Lemma shared_key_breaks_round_order :
  let results :=
    resultsOf (runRounds trimSpace parseDecimal twinClients
                 "https://cdn.example.com/" "cdn.example.com" 2%Z
                 (fun _ _ => DoFailed "timeout") (fun _ => [0; 1]%nat))
              {| IP := "203.0.113.7"; EndpointProtocol := HTTP2; Name := "edge" |} in
  Index <$> results !! 1%nat = Some 1%Z /\ length results = 4%nat /\
  ~ roundOrderOf twinClients.
Proof.
  cbv zeta.
  assert (H : Index <$> resultsOf (runRounds trimSpace parseDecimal twinClients
                 "https://cdn.example.com/" "cdn.example.com" 2%Z
                 (fun _ _ => DoFailed "timeout") (fun _ => [0; 1]%nat))
              {| IP := "203.0.113.7"; EndpointProtocol := HTTP2; Name := "edge" |}
              !! 1%nat = Some 1%Z) by (vm_compute; reflexivity).
  split; [exact H|]. split; [vm_compute; reflexivity|].
  intros Horder.
  destruct (resultsOf _ _ !! 1%nat) as [r|] eqn:E; [|discriminate H].
  specialize (Horder _ _ _ _ _ (fun _ => Permutation_refl _) _
                (list_elem_of_here _ _) _ _ E).
  simpl in H. injection H as H. rewrite H in Horder. discriminate Horder.
Qed.

Section UnsharedKey.

Variable TrimSpace : string -> string.
Variable ParseFloat : string -> option float.

(** The result at position [j] is the only one filed under its key. *)
Definition keyUnshared {A} (keyOf : A -> string) (l : list A) (j : nat) : Prop :=
  forall j' x x', l !! j = Some x -> l !! j' = Some x' -> j' <> j ->
                  keyOf x' <> keyOf x.

Lemma keyUnshared_tail {A} (keyOf : A -> string) (x0 : A) (l : list A) (j : nat) :
  keyUnshared keyOf (x0 :: l) (S j) -> keyUnshared keyOf l j.
Proof.
  intros H j' x x' Hx Hx' Hne.
  apply (H (S j') x x'); [exact Hx|exact Hx'|lia].
Qed.

(** Collecting a round appends to the sequence of an unshared key the
    one result filed under it, whatever keys the other results have. *)
Lemma collect_unshared (results : list EndpointResult)
    (m : gmap string (list RequestResult)) (j : nat) (er : EndpointResult) :
  keyUnshared (fun er => resultKey (er_Endpoint er)) results j ->
  results !! j = Some er ->
  collect m results !! resultKey (er_Endpoint er)
  = Some (default [] (m !! resultKey (er_Endpoint er)) ++ [er_Result er]).
Proof.
  revert m j.
  induction results as [|er0 results IH]; intros m j Hun Hj; [discriminate|].
  change (collect m (er0 :: results))
    with (collect (<[resultKey (er_Endpoint er0) :=
                      default [] (m !! resultKey (er_Endpoint er0))
                      ++ [er_Result er0]]> m) results).
  destruct j as [|j]; simpl in Hj.
  - injection Hj as <-. rewrite collect_other; [apply lookup_insert_eq|].
    intros Hin. apply list_elem_of_fmap in Hin as (er' & Hk & Hin').
    apply list_elem_of_lookup in Hin' as [i Hi].
    apply (Hun (S i) er0 er'); [reflexivity|exact Hi|lia|].
    symmetry. exact Hk.
  - rewrite (IH _ j (keyUnshared_tail _ _ _ _ Hun) Hj).
    assert (Hne : resultKey (er_Endpoint er0) <> resultKey (er_Endpoint er)).
    { apply (Hun 0%nat er er0); [exact Hj|reflexivity|lia]. }
    rewrite lookup_insert_ne by exact Hne. reflexivity.
Qed.

Lemma round_step_unshared (clients : list EndpointClient) (url domain : string)
    (net : nat -> nat -> Outcome) (sched : nat -> list nat)
    (m : gmap string (list RequestResult)) (round j : nat) (ec : EndpointClient) :
  keyUnshared (fun ec => resultKey (ec_Endpoint ec)) clients j ->
  sched round ≡ₚ seq 0 (length clients) ->
  clients !! j = Some ec ->
  round_step TrimSpace ParseFloat clients url domain net sched m round
    !! resultKey (ec_Endpoint ec)
  = Some (default [] (m !! resultKey (ec_Endpoint ec))
          ++ [sampleOf TrimSpace ParseFloat url domain net j ec round]).
Proof.
  intros Hun Hperm Hj. unfold round_step.
  rewrite runParallelRound_spec
    by (unfold roundTasks; rewrite length_map; exact Hperm).
  set (results := imap _ _).
  assert (Hres : forall i, results !! i
            = (fun ec' => {| er_Endpoint := ec_Endpoint ec';
                             er_Result := sampleOf TrimSpace ParseFloat url domain
                                            net i ec' round |}) <$> clients !! i).
  { intros i. subst results. unfold roundTasks.
    rewrite list_lookup_imap, list_lookup_fmap.
    destruct (clients !! i); reflexivity. }
  assert (Hr : results !! j
               = Some {| er_Endpoint := ec_Endpoint ec;
                         er_Result := sampleOf TrimSpace ParseFloat url domain
                                        net j ec round |})
    by (rewrite Hres, Hj; reflexivity).
  assert (Hun' : keyUnshared (fun er => resultKey (er_Endpoint er)) results j).
  { intros j' x x' Hx Hx' Hne. rewrite Hres in Hx, Hx'.
    destruct (clients !! j) as [c|] eqn:Hc; [|discriminate].
    destruct (clients !! j') as [c'|] eqn:Hc'; [|discriminate].
    injection Hx as <-. injection Hx' as <-. cbn [er_Endpoint].
    apply (Hun j' c c' Hc Hc' Hne). }
  exact (collect_unshared results m j _ Hun' Hr).
Qed.

Lemma runRounds_unshared (clients : list EndpointClient) (url domain : string)
    (net : nat -> nat -> Outcome) (sched : nat -> list nat)
    (n j : nat) (ec : EndpointClient) :
  keyUnshared (fun ec => resultKey (ec_Endpoint ec)) clients j ->
  (forall round, sched round ≡ₚ seq 0 (length clients)) ->
  clients !! j = Some ec ->
  foldl (round_step TrimSpace ParseFloat clients url domain net sched)
        (initResults clients) (seq 1 n) !! resultKey (ec_Endpoint ec)
  = Some (map (sampleOf TrimSpace ParseFloat url domain net j ec) (seq 1 n)).
Proof.
  intros Hun Hperm Hj. induction n as [|n IH].
  - simpl. apply initResults_lookup. eapply list_elem_of_lookup_2. exact Hj.
  - rewrite seq_S, foldl_app, map_app. simpl.
    rewrite (round_step_unshared clients url domain net sched _ (S n) j ec Hun
               (Hperm (S n)) Hj).
    rewrite IH. reflexivity.
Qed.

End UnsharedKey.

(** C6 (amended): for every endpoint whose key (name and protocol) is
    shared by no other configured endpoint, whatever keys the others
    have among themselves, and for a test count that is not negative,
    the endpoint's result sequence has one sample per round, and the
    sample at position i (1-indexed) carries round index i and is the
    sample of the endpoint's own request of round i, for every
    completion order of the probes within each round. *)
Theorem round_order_preserved
    (TrimSpace : string -> string) (ParseFloat : string -> option float)
    (clients : list EndpointClient) (url domain : string) (TestCount : Z)
    (net : nat -> nat -> Outcome) (sched : nat -> list nat)
    (j : nat) (ec : EndpointClient) :
  (0 <= TestCount)%Z ->
  clients !! j = Some ec ->
  (forall j' ec', clients !! j' = Some ec' -> j' <> j ->
     resultKey (ec_Endpoint ec') <> resultKey (ec_Endpoint ec)) ->
  (forall round, sched round ≡ₚ seq 0 (length clients)) ->
  let results :=
    resultsOf (runRounds TrimSpace ParseFloat clients url domain TestCount
                 net sched) (ec_Endpoint ec) in
  Z.of_nat (length results) = TestCount /\
  forall i r, results !! i = Some r ->
    Index r = (Z.of_nat i + 1)%Z /\
    r = set_Index
          (measureRequest TrimSpace ParseFloat (ec_Client ec) url domain
             (net (S i) j))
          (Z.of_nat i + 1)%Z.
Proof.
  intros Hn Hj Hkeys Hperm results. subst results.
  assert (Hun : keyUnshared (fun ec => resultKey (ec_Endpoint ec)) clients j).
  { intros j' x x' Hx Hx' Hne. rewrite Hj in Hx. injection Hx as <-.
    apply (Hkeys j' x' Hx' Hne). }
  unfold resultsOf, runRounds.
  rewrite (runRounds_unshared TrimSpace ParseFloat clients url domain net sched
             (Z.to_nat TestCount) j ec Hun Hperm Hj).
  simpl. split; [rewrite length_map, length_seq; lia|].
  intros i r Hi. rewrite list_lookup_fmap in Hi.
  destruct (seq 1 (Z.to_nat TestCount) !! i) as [round|] eqn:Hs; [|discriminate].
  apply lookup_seq in Hs as [-> _]. simpl in Hi. injection Hi as <-.
  assert (E : Z.of_nat (S i) = (Z.of_nat i + 1)%Z) by lia.
  unfold sampleOf. change (1 + i)%nat with (S i). rewrite E. split; reflexivity.
Qed.

(** Two endpoints with keys of their own. *)
Definition exampleClients : list EndpointClient :=
  [ {| ec_Endpoint := {| IP := "203.0.113.7"; EndpointProtocol := HTTP2;
                         Name := "edge-a" |};
       ec_Client := createHTTP2Client "203.0.113.7" Second |};
    {| ec_Endpoint := {| IP := "203.0.113.8"; EndpointProtocol := HTTP2;
                         Name := "edge-b" |};
       ec_Client := createHTTP2Client "203.0.113.8" Second |} ].

(** Two endpoints that share a key and a third one with a key of its
    own. *)
Definition crowdedClients : list EndpointClient :=
  twinClients ++
  [ {| ec_Endpoint := {| IP := "203.0.113.9"; EndpointProtocol := HTTP3;
                         Name := "edge" |};
       ec_Client := createHTTP3Client "203.0.113.9" Second |} ].

Lemma round_order_preserved_witness :
  let results :=
    resultsOf (runRounds trimSpace parseDecimal crowdedClients
                 "https://cdn.example.com/" "cdn.example.com" 3%Z
                 (fun _ => exampleNet) (fun _ => [2; 0; 1]%nat))
              {| IP := "203.0.113.9"; EndpointProtocol := HTTP3; Name := "edge" |} in
  ~ NoDup (map (fun ec => resultKey (ec_Endpoint ec)) crowdedClients) /\
  Z.of_nat (length results) = 3%Z /\
  forall i r, results !! i = Some r ->
    Index r = (Z.of_nat i + 1)%Z /\
    r = set_Index
          (measureRequest trimSpace parseDecimal
             (createHTTP3Client "203.0.113.9" Second)
             "https://cdn.example.com/" "cdn.example.com" (exampleNet 2%nat))
          (Z.of_nat i + 1)%Z.
Proof.
  split.
  - apply (bool_decide_eq_false_1 _). vm_compute. reflexivity.
  - refine (round_order_preserved trimSpace parseDecimal crowdedClients
              "https://cdn.example.com/" "cdn.example.com" 3%Z
              (fun _ => exampleNet) (fun _ => [2; 0; 1]%nat) 2%nat
              {| ec_Endpoint := {| IP := "203.0.113.9"; EndpointProtocol := HTTP3;
                                   Name := "edge" |};
                 ec_Client := createHTTP3Client "203.0.113.9" Second |} _ _ _ _).
    + discriminate.
    + reflexivity.
    + intros j' ec' Hj' Hne.
      destruct j' as [|[|[|j']]]; simpl in Hj'; try discriminate;
        try (injection Hj' as <-; discriminate); contradiction.
    + intros round. simpl. apply (Permutation_cons_append [0; 1]%nat 2%nat).
Defined.

(* ================================================================= *)
(** ** Building the handles *)

Definition supported (p : Protocol) : Prop := p = HTTP1 \/ p = HTTP2 \/ p = HTTP3.

#[export] Instance supported_dec (p : Protocol) : Decision (supported p).
Proof. unfold supported. apply _. Defined.

Lemma parseProtocol_supported (s : string) : supported (parseProtocol s).
Proof.
  unfold parseProtocol, supported.
  destruct (_ || _ || _)%bool; [auto|]. destruct (_ || _ || _)%bool; auto.
Qed.

(** The handle [main] builds for an endpoint of a supported protocol. *)
Definition handleFor (e : Endpoint) (timeout : Duration) : Client :=
  match EndpointProtocol e with
  | 1%Z => createHTTP2Client (IP e) timeout
  | 2%Z => createHTTP3Client (IP e) timeout
  | _ => createHTTP1Client (IP e) timeout
  end.

Lemma buildClient_step_supported (timeout : Duration)
    (clients : list EndpointClient) (errors : list string) (e : Endpoint) :
  supported (EndpointProtocol e) ->
  buildClient_step timeout (clients, errors) e
  = (clients ++ [mkEndpointClient e (handleFor e timeout)], errors).
Proof.
  unfold supported, buildClient_step, handleFor, HTTP1, HTTP2, HTTP3.
  intros [->| [->| ->]]; reflexivity.
Qed.

Lemma buildClient_step_unsupported (timeout : Duration)
    (clients : list EndpointClient) (errors : list string) (e : Endpoint) :
  ~ supported (EndpointProtocol e) ->
  buildClient_step timeout (clients, errors) e
  = (clients,
     errors ++ [("不支持的协议: " ++ Protocol_String (EndpointProtocol e))%string]).
Proof.
  unfold supported, buildClient_step, HTTP1, HTTP2, HTTP3. intros H.
  destruct (EndpointProtocol e) as [|[[]|[]|]|]; try reflexivity;
    exfalso; apply H; auto.
Qed.

Lemma buildClients_spec (endpoints : list Endpoint) (timeout : Duration) :
  buildClients endpoints timeout
  = (map (fun e => mkEndpointClient e (handleFor e timeout))
         (filter (fun e => supported (EndpointProtocol e)) endpoints),
     map (fun e => ("不支持的协议: " ++ Protocol_String (EndpointProtocol e))%string)
         (filter (fun e => ~ supported (EndpointProtocol e)) endpoints)).
Proof.
  unfold buildClients.
  assert (H : forall clients errors,
    foldl (buildClient_step timeout) (clients, errors) endpoints
    = (clients ++ map (fun e => mkEndpointClient e (handleFor e timeout))
                      (filter (fun e => supported (EndpointProtocol e)) endpoints),
       errors ++ map (fun e => ("不支持的协议: "
                                ++ Protocol_String (EndpointProtocol e))%string)
                     (filter (fun e => ~ supported (EndpointProtocol e)) endpoints))).
  { induction endpoints as [|e es IH]; intros clients errors; cbn [foldl].
    - rewrite !filter_nil. simpl. rewrite !app_nil_r. reflexivity.
    - destruct (decide (supported (EndpointProtocol e))) as [Hs|Hs].
      + rewrite buildClient_step_supported by exact Hs. rewrite IH.
        rewrite filter_cons_True by exact Hs.
        rewrite (filter_cons_False (fun e => ~ supported (EndpointProtocol e)))
          by tauto.
        simpl. rewrite <- app_assoc. reflexivity.
      + rewrite buildClient_step_unsupported by exact Hs. rewrite IH.
        rewrite filter_cons_False by exact Hs.
        rewrite (filter_cons_True (fun e => ~ supported (EndpointProtocol e)))
          by exact Hs.
        simpl. rewrite <- app_assoc. reflexivity. }
  apply (H [] []).
Qed.

Lemma handleFor_forcedIP (e : Endpoint) (timeout : Duration) :
  forcedIP_of (handleFor e timeout) = IP e.
Proof.
  unfold handleFor. destruct (EndpointProtocol e) as [|[[]|[]|]|]; reflexivity.
Qed.

(** C9, as stated, fails: an endpoint whose address does not parse and
    whose protocol selector is not a supported one is given an HTTP/1.1
    handle and stays in the campaign; nothing is reported. *)
Lemma unparseable_endpoint_gets_a_handle :
  buildClients
    [loadEndpoint {| yaml_name := "edge"; yaml_ip := "not-an-ip";
                     yaml_protocol := "gopher" |}] (30 * Second)%Z
  = ([ {| ec_Endpoint := {| IP := "not-an-ip"; EndpointProtocol := HTTP1;
                            Name := "edge" |};
          ec_Client := createHTTP1Client "not-an-ip" (30 * Second)%Z |} ],
     []).
Proof. reflexivity. Qed.

Lemma eqb3_elem_of (s a b c : string) :
  (String.eqb s a || String.eqb s b || String.eqb s c)%bool
  = bool_decide (s ∈ [a; b; c]).
Proof.
  destruct (String.eqb_spec s a) as [->|Ha].
  - symmetry. apply bool_decide_eq_true. apply list_elem_of_here.
  - destruct (String.eqb_spec s b) as [->|Hb].
    + symmetry. apply bool_decide_eq_true.
      apply list_elem_of_further, list_elem_of_here.
    + destruct (String.eqb_spec s c) as [->|Hc].
      * symmetry. apply bool_decide_eq_true.
        apply list_elem_of_further, list_elem_of_further, list_elem_of_here.
      * symmetry. apply bool_decide_eq_false. intros H.
        repeat (apply elem_of_cons in H as [H|H]; [congruence|]).
        apply elem_of_nil in H. exact H.
Qed.

(** C9 (amended): the factories build a handle for every address string
    and never report a construction error; the handle dials the
    configured address string itself, on the port of the requested
    address, or on 443 when the requested address has no port to split
    off, and never the host of the request.  A protocol selector is read
    as HTTP/3 or HTTP/2 when it is one of their three spellings and as
    HTTP/1.1 otherwise, so an unrecognised selector is read as HTTP/1.1.
    Only an endpoint whose protocol value is none of the three is
    reported as unsupported, with one message each, and left out, and
    the other endpoints keep their handles and their order. *)
Theorem handles_built_for_every_address
    (SplitHostPort : string -> option (string * string))
    (endpoints : list Endpoint) (timeout : Duration) :
  let portOf addr :=
    match SplitHostPort addr with
    | Some (_, port) => port
    | None => "443"%string
    end in
  map ec_Endpoint (fst (buildClients endpoints timeout))
  = filter (fun e => supported (EndpointProtocol e)) endpoints /\
  snd (buildClients endpoints timeout)
  = map (fun e => ("不支持的协议: " ++ Protocol_String (EndpointProtocol e))%string)
        (filter (fun e => ~ supported (EndpointProtocol e)) endpoints) /\
  Forall (fun ec =>
            forall addr,
              DialTarget SplitHostPort (ec_Client ec) addr
              = JoinHostPort (IP (ec_Endpoint ec)) (portOf addr))
         (fst (buildClients endpoints timeout)) /\
  (forall ip addr,
     DialTarget SplitHostPort (createHTTP1Client ip timeout) addr
     = JoinHostPort ip (portOf addr) /\
     DialTarget SplitHostPort (createHTTP2Client ip timeout) addr
     = JoinHostPort ip (portOf addr) /\
     DialTarget SplitHostPort (createHTTP3Client ip timeout) addr
     = JoinHostPort ip (portOf addr)) /\
  (forall selector,
     parseProtocol selector
     = if bool_decide (selector ∈ ["HTTP/3"; "http3"; "h3"]%string) then HTTP3
       else if bool_decide (selector ∈ ["HTTP/2"; "http2"; "h2"]%string) then HTTP2
       else HTTP1).
Proof.
  cbv zeta. rewrite buildClients_spec. cbn [fst snd].
  split; [|split; [|split; [|split]]].
  - rewrite map_map. simpl. apply map_id.
  - reflexivity.
  - apply Forall_forall. intros ec Hin.
    apply list_elem_of_fmap in Hin as (e & -> & _). simpl.
    intros addr. unfold DialTarget, dialAddr. rewrite handleFor_forcedIP.
    reflexivity.
  - intros ip addr. repeat split.
  - intros selector. unfold parseProtocol. rewrite !eqb3_elem_of. reflexivity.
Qed.

(* ================================================================= *)
(** ** [percentile] on the store *)

Section MemFacts.

Variable Float64s : list float -> list float.

Lemma write_other (h : Mem.store) (s : Mem.slice) (vs : list float) (a : nat) :
  a <> Mem.base s -> Mem.write h s vs !! a = h !! a.
Proof.
  intros Hne. unfold Mem.write. destruct (h !! Mem.base s); [|reflexivity].
  apply lookup_insert_ne. congruence.
Qed.

Lemma copy_other (h : Mem.store) (dst src : Mem.slice) (a : nat) :
  a <> Mem.base dst -> Mem.copy h dst src !! a = h !! a.
Proof.
  intros Hne. unfold Mem.copy. destruct (Mem.load h src); [|reflexivity].
  apply write_other. exact Hne.
Qed.

Lemma sortInPlace_other (h : Mem.store) (s : Mem.slice) (a : nat) :
  a <> Mem.base s -> Mem.sortInPlace Float64s h s !! a = h !! a.
Proof.
  intros Hne. unfold Mem.sortInPlace. destruct (Mem.load h s); [|reflexivity].
  apply write_other. exact Hne.
Qed.

Lemma make_fresh (h : Mem.store) (n : nat) : h !! Mem.base (fst (Mem.make h n)) = None.
Proof.
  unfold Mem.make. cbn [fst Mem.base].
  apply not_elem_of_dom. apply is_fresh.
Qed.

Lemma make_other (h : Mem.store) (n a : nat) (arr : list float) :
  h !! a = Some arr -> snd (Mem.make h n) !! a = Some arr.
Proof.
  intros Ha. unfold Mem.make. cbn [snd].
  rewrite lookup_insert_ne; [exact Ha|].
  intros E. pose proof (make_fresh h n) as Hf. unfold Mem.make in Hf.
  cbn [fst Mem.base] in Hf. rewrite E in Hf. congruence.
Qed.

(** The store after the three statements [make], [copy], [sort.Float64s]. *)
Definition afterSort (h : Mem.store) (values : Mem.slice) : Mem.store :=
  let sorted := fst (Mem.make h (Mem.len values)) in
  Mem.sortInPlace Float64s
    (Mem.copy (snd (Mem.make h (Mem.len values))) sorted values) sorted.

Lemma percentile_store (h : Mem.store) (values : Mem.slice) (p : float) :
  snd (Mem.percentile Float64s h values p)
  = if (Mem.len values =? 0)%nat then h else afterSort h values.
Proof.
  unfold Mem.percentile, afterSort.
  destruct (Mem.len values =? 0)%nat; [reflexivity|].
  destruct (Mem.make h (Mem.len values)) as [sorted h1]. cbn [fst snd].
  destruct (float64_to_int _) as [index|]; [|reflexivity].
  destruct (index <? 0)%Z; reflexivity.
Qed.

(** Every array of the caller is found unchanged after the call. *)
Lemma afterSort_frame (h : Mem.store) (values : Mem.slice) (a : nat)
    (arr : list float) :
  h !! a = Some arr -> afterSort h values !! a = Some arr.
Proof.
  intros Ha. unfold afterSort.
  assert (Hne : a <> Mem.base (fst (Mem.make h (Mem.len values)))).
  { intros E. pose proof (make_fresh h (Mem.len values)) as Hf.
    rewrite <- E in Hf. congruence. }
  rewrite sortInPlace_other by exact Hne.
  rewrite copy_other by exact Hne.
  apply make_other. exact Ha.
Qed.

Lemma load_length (h : Mem.store) (s : Mem.slice) (vs : list float) :
  Mem.load h s = Some vs -> length vs = Mem.len s.
Proof.
  unfold Mem.load. destruct (h !! Mem.base s) as [arr|]; [|discriminate].
  destruct (decide _) as [Hle|]; [|discriminate]. intros [= <-].
  rewrite length_take, length_drop. lia.
Qed.

Lemma load_whole (h : Mem.store) (a : nat) (vs : list float) :
  h !! a = Some vs -> Mem.load h (Mem.Slice a 0 (length vs)) = Some vs.
Proof.
  intros Ha. unfold Mem.load. cbn [Mem.base Mem.off Mem.len]. rewrite Ha.
  rewrite decide_True by (simpl; lia).
  rewrite drop_0, firstn_all. reflexivity.
Qed.

Lemma write_whole (h : Mem.store) (a : nat) (old vs : list float) :
  h !! a = Some old -> length vs = length old ->
  Mem.write h (Mem.Slice a 0 (length old)) vs = <[a := vs]> h.
Proof.
  intros Ha Hl. unfold Mem.write. cbn [Mem.base Mem.off]. rewrite Ha.
  rewrite take_0, Nat.add_0_l, Hl, drop_all, app_nil_r. reflexivity.
Qed.

(** The sorted copy holds the sorted contents of [values]. *)
Lemma afterSort_sorted (h : Mem.store) (values : Mem.slice) (vs : list float) :
  (forall l, length (Float64s l) = length l) ->
  Mem.load h values = Some vs ->
  Mem.load (afterSort h values) (fst (Mem.make h (Mem.len values)))
  = Some (Float64s vs).
Proof.
  intros HF Hload. pose proof (load_length h values vs Hload) as Hlen.
  unfold afterSort, Mem.make. cbn [fst snd].
  set (a := fresh (dom h)). rewrite <- Hlen.
  set (h1 := <[a := replicate (length vs) 0%float]> h).
  assert (Hfresh : h !! a = None) by (apply not_elem_of_dom, is_fresh).
  assert (Hload1 : Mem.load h1 values = Some vs).
  { unfold Mem.load in *. subst h1.
    destruct (h !! Mem.base values) as [arr|] eqn:Hb; [|discriminate].
    rewrite lookup_insert_ne by congruence. rewrite Hb. exact Hload. }
  assert (Hcopy : Mem.copy h1 (Mem.Slice a 0 (length vs)) values
                  = <[a := vs]> h1).
  { unfold Mem.copy. rewrite Hload1. cbn [Mem.len]. rewrite firstn_all.
    pose proof (write_whole h1 a (replicate (length vs) 0%float) vs) as W.
    rewrite length_replicate in W. apply W.
    - subst h1. apply lookup_insert_eq.
    - reflexivity. }
  rewrite Hcopy.
  assert (Hsort : Mem.sortInPlace Float64s (<[a := vs]> h1)
                    (Mem.Slice a 0 (length vs))
                  = <[a := Float64s vs]> (<[a := vs]> h1)).
  { unfold Mem.sortInPlace.
    rewrite (load_whole (<[a := vs]> h1) a vs) by apply lookup_insert_eq.
    apply write_whole; [apply lookup_insert_eq|apply HF]. }
  rewrite Hsort. rewrite <- (HF vs). apply load_whole. apply lookup_insert_eq.
Qed.

(** [Mem.percentile] computes what [percentile] computes on the contents. *)
Lemma percentile_refines (h : Mem.store) (values : Mem.slice) (p : float)
    (vs : list float) :
  (forall l, length (Float64s l) = length l) ->
  Mem.load h values = Some vs ->
  fst (Mem.percentile Float64s h values p) = percentile Float64s vs p.
Proof.
  intros HF Hload. pose proof (load_length h values vs Hload) as Hlen.
  pose proof (afterSort_sorted h values vs HF Hload) as Hs.
  unfold Mem.percentile, percentile. unfold afterSort in Hs.
  destruct vs as [|v0 vs'] eqn:E.
  - simpl in Hlen. rewrite <- Hlen. reflexivity.
  - rewrite <- E in *.
    assert (Hn : (Mem.len values =? 0)%nat = false).
    { apply Nat.eqb_neq. rewrite <- Hlen, E. discriminate. }
    rewrite Hn.
    destruct (Mem.make h (Mem.len values)) as [sorted h1] eqn:Hm.
    cbn [fst snd] in Hs.
    assert (Hsl : Mem.len sorted = Mem.len values).
    { unfold Mem.make in Hm. injection Hm as <- _. reflexivity. }
    rewrite Hsl, <- Hlen.
    destruct (float64_to_int _) as [index|]; [|reflexivity].
    destruct (index <? 0)%Z; [reflexivity|].
    cbn [fst]. rewrite Hs. reflexivity.
Qed.

End MemFacts.

(** C10: [percentile] sorts a copy it has made itself: every array that
    existed before the call, the caller's among them, holds the same
    elements after it, so the values passed in are neither reordered nor
    changed; and the result is the one computed from those values. *)
Theorem percentile_leaves_input_unchanged
    (Float64s : list float -> list float)
    (h : Mem.store) (values : Mem.slice) (p : float) :
  let h' := snd (Mem.percentile Float64s h values p) in
  (forall a arr, h !! a = Some arr -> h' !! a = Some arr) /\
  (forall vs, Mem.load h values = Some vs -> Mem.load h' values = Some vs) /\
  (forall vs, (forall l, length (Float64s l) = length l) ->
     Mem.load h values = Some vs ->
     fst (Mem.percentile Float64s h values p) = percentile Float64s vs p).
Proof.
  cbv zeta. rewrite percentile_store.
  assert (Hframe : forall a arr, h !! a = Some arr ->
            (if (Mem.len values =? 0)%nat then h
             else afterSort Float64s h values) !! a = Some arr).
  { intros a arr Ha. destruct (Mem.len values =? 0)%nat; [exact Ha|].
    apply afterSort_frame. exact Ha. }
  split; [exact Hframe|]. split.
  - intros vs Hload. unfold Mem.load in *.
    destruct (h !! Mem.base values) as [arr|] eqn:Hb; [|discriminate].
    rewrite (Hframe _ _ Hb). exact Hload.
  - intros vs HF Hload. apply percentile_refines; assumption.
Qed.

(* ================================================================= *)
(** ** The statistics: percentiles and summaries *)

(** The CDN latencies of scenario A: five rounds, P50. *)
Definition scenarioA : list float := [50; 70; 60; 80; 40]%float.

Example scenarioA_P50 : percentile sortFloat64s scenarioA 0.50%float = Some 60%float.
Proof. vm_compute. reflexivity. Qed.

Example scenarioA_P0_P100 :
  percentile sortFloat64s scenarioA 0%float = Some 40%float /\
  percentile sortFloat64s scenarioA 1%float = Some 80%float.
Proof. split; vm_compute; reflexivity. Qed.

(** P50 of 100 ascending values is the value at index 49. *)
Example P50_of_100 :
  percentile sortFloat64s
    (map (fun n => float64_of_int (Z.of_nat n)) (seq 0 100)) 0.50%float
  = Some 49%float.
Proof. vm_compute. reflexivity. Qed.

(** C4: when no sample succeeded the summary keeps the counts and has
    every statistic equal to zero and the flag unset; the aggregation
    has divided by nothing, and on any samples every length it divides
    by is positive; [percentile] of an empty list returns zero. *)
Theorem no_success_gives_zero_summary
    (Float64s : list float -> list float)
    (endpoint : Endpoint) (results : list RequestResult) :
  Forall (fun r => Error r <> ""%string) results ->
  calculateSummary Float64s endpoint results
  = mkExec
      (Some {| EndpointName := Name endpoint;
               ProtocolName := Protocol_String (EndpointProtocol endpoint);
               TotalTests := Z.of_nat (length results);
               SuccessCount := 0; FailCount := Z.of_nat (length results);
               HasCDN := false;
               TTFBAvg := 0; TTFBMin := 0; TTFBMax := 0;
               TTFBP50 := 0; TTFBP90 := 0; TTFBP95 := 0; TTFBP99 := 0;
               CDNLatencyAvg := 0; CDNLatencyMin := 0; CDNLatencyMax := 0;
               CDNLatencyP50 := 0; CDNLatencyP90 := 0; CDNLatencyP95 := 0;
               CDNLatencyP99 := 0;
               XResponseTimeAvg := 0 |})
      [] /\
  (forall samples,
     Forall (fun n => n <> 0%nat)
            (divisors (calculateSummary Float64s endpoint samples))) /\
  (forall p, percentile Float64s [] p = Some 0%float).
Proof.
  intros Hall. split; [|split].
  - pose proof (tally_no_success results Hall) as Ht.
    rewrite calculateSummary_no_success by (rewrite Ht; reflexivity).
    rewrite Ht. reflexivity.
  - intros samples. apply calculateSummary_divisors.
  - reflexivity.
Qed.

Definition timedOut (round : Z) : RequestResult :=
  set_Index (set_Error zeroRequestResult "请求失败: context deadline exceeded") round.

Lemma no_success_gives_zero_summary_witness :
  let endpoint := {| IP := "203.0.113.7"; EndpointProtocol := HTTP3;
                     Name := "edge-a" |} in
  calculateSummary sortFloat64s endpoint [timedOut 1; timedOut 2]
  = mkExec
      (Some {| EndpointName := "edge-a"; ProtocolName := "HTTP/3";
               TotalTests := 2; SuccessCount := 0; FailCount := 2;
               HasCDN := false;
               TTFBAvg := 0; TTFBMin := 0; TTFBMax := 0;
               TTFBP50 := 0; TTFBP90 := 0; TTFBP95 := 0; TTFBP99 := 0;
               CDNLatencyAvg := 0; CDNLatencyMin := 0; CDNLatencyMax := 0;
               CDNLatencyP50 := 0; CDNLatencyP90 := 0; CDNLatencyP95 := 0;
               CDNLatencyP99 := 0;
               XResponseTimeAvg := 0 |})
      [] /\
  (forall samples,
     Forall (fun n => n <> 0%nat)
            (divisors (calculateSummary sortFloat64s endpoint samples))) /\
  (forall p, percentile sortFloat64s [] p = Some 0%float).
Proof.
  refine (no_success_gives_zero_summary sortFloat64s
            {| IP := "203.0.113.7"; EndpointProtocol := HTTP3; Name := "edge-a" |}
            [timedOut 1; timedOut 2] _).
  repeat constructor; discriminate.
Defined.

(** A request after which no origin-processing-time header was read:
    it failed, or its response came without the header. *)
Definition headerless (o : Outcome) : Prop :=
  match o with
  | DoReturned _ _ resp => originHeader resp = ""%string
  | _ => True
  end.

Lemma headerless_sample (TrimSpace : string -> string)
    (ParseFloat : string -> option float) (t : RequestTask) (o : Outcome) :
  headerless o ->
  ~ carriesOriginTime (er_Result (probe TrimSpace ParseFloat t o)).
Proof.
  intros Hh [Hs Hx]. unfold probe, succeeded in *. cbn [er_Result] in *.
  destruct o as [err|err|ttfb reused resp]; simpl in Hh.
  - discriminate Hs.
  - discriminate Hs.
  - rewrite (measureRequest_unparsed TrimSpace ParseFloat) in Hx
      by (rewrite Hh; reflexivity).
    discriminate Hx.
Qed.

(** C5: the summary's has-CDN-data flag is set exactly when some
    successful sample has a positive origin time.  When no sample comes
    from a response with the header, the flag is unset and the summary
    table shows ["-"] in the CDN-latency and origin-time columns.  The
    samples are as many as memory holds (fewer than 2^53). *)
Theorem has_cdn_flag_iff_origin_time
    (Float64s : list float -> list float)
    (TrimSpace : string -> string) (ParseFloat : string -> option float)
    (Sprintf_2f : float -> string)
    (endpoint : Endpoint) (results : list RequestResult) :
  (forall l, Float64s l ≡ₚ l) ->
  (Z.of_nat (length results) < 2 ^ 53)%Z ->
  exists s,
    outcome (calculateSummary Float64s endpoint results) = Some s /\
    (HasCDN s = true <->
     exists r, r ∈ results /\ Error r = ""%string /\
               (0 <? XResponseTime r)%float = true) /\
    ((forall r, r ∈ results ->
        exists t o, headerless o /\
                    r = er_Result (probe TrimSpace ParseFloat t o)) ->
     HasCDN s = false /\
     cdnCells Sprintf_2f s = ["-"; "-"; "-"; "-"; "-"]%string).
Proof.
  intros Hperm Hlen.
  destruct (calculateSummary_returns Float64s Hperm endpoint results Hlen)
    as (s & Hs & Hflag & _).
  exists s. split; [exact Hs|]. split.
  - rewrite Hflag. apply tally_has_iff.
  - intros Hall.
    assert (Hf : hasXResponseTime (tally results) = false).
    { destruct (hasXResponseTime (tally results)) eqn:E; [|reflexivity].
      apply tally_has_iff in E as (r & Hr & Hc).
      destruct (Hall r Hr) as (t & o & Hh & ->).
      exfalso. exact (headerless_sample TrimSpace ParseFloat t o Hh Hc). }
    rewrite Hf in Hflag.
    split; [exact Hflag|]. unfold cdnCells. rewrite Hflag. reflexivity.
Qed.

(** Scenario B: two rounds against an endpoint that never sends the
    header. *)
Definition scenarioB : list RequestResult :=
  map (fun round =>
         er_Result (probe trimSpace parseDecimal
                      {| task_Endpoint := {| IP := "203.0.113.8";
                                             EndpointProtocol := HTTP1;
                                             Name := "edge-b" |};
                         task_Client := createHTTP1Client "203.0.113.8" Second;
                         task_URL := "https://cdn.example.com/";
                         task_Domain := "cdn.example.com";
                         task_Index := round |}
                      (DoReturned (round * 90000000)%Z true
                                  (plainResponse 200 "HTTP/1.1"))))
      [1; 2]%Z.

Lemma has_cdn_flag_iff_origin_time_witness :
  exists s,
    outcome (calculateSummary sortFloat64s
               {| IP := "203.0.113.8"; EndpointProtocol := HTTP1; Name := "edge-b" |}
               scenarioB) = Some s /\
    (HasCDN s = true <->
     exists r, r ∈ scenarioB /\ Error r = ""%string /\
               (0 <? XResponseTime r)%float = true) /\
    ((forall r, r ∈ scenarioB ->
        exists t o, headerless o /\
                    r = er_Result (probe trimSpace parseDecimal t o)) ->
     HasCDN s = false /\
     cdnCells format2f s = ["-"; "-"; "-"; "-"; "-"]%string).
Proof.
  refine (has_cdn_flag_iff_origin_time sortFloat64s trimSpace parseDecimal
            format2f
            {| IP := "203.0.113.8"; EndpointProtocol := HTTP1; Name := "edge-b" |}
            scenarioB sortFloat64s_perm _).
  vm_compute. reflexivity.
Defined.

(** The summary of scenario B, and the row printed for it. *)
Example scenarioB_row :
  (fun s => (HasCDN s, summaryRow format2f formatInt s)) <$>
    outcome (calculateSummary sortFloat64s
               {| IP := "203.0.113.8"; EndpointProtocol := HTTP1; Name := "edge-b" |}
               scenarioB)
  = Some (false,
          ["edge-b"; "HTTP/1.1"; "2/2"; "135.00"; "90.00"; "90.00"; "90.00";
           "90.00"; "180.00"; "-"; "-"; "-"; "-"; "-"]%string).
Proof. vm_compute. reflexivity. Qed.

(* ================================================================= *)
(** ** The definitions on examples *)

Lemma TrimSuffix_eq (s suffix : string) :
  TrimSuffix s suffix
  = if String.eqb s suffix then EmptyString
    else match s with
         | EmptyString => EmptyString
         | String c s' => String c (TrimSuffix s' suffix)
         end.
Proof. destruct s; reflexivity. Qed.

Lemma length_append (s t : string) :
  String.length (s ++ t) = (String.length s + String.length t)%nat.
Proof. induction s as [|c s IH]; simpl; [reflexivity|rewrite IH; reflexivity]. Qed.

Lemma TrimSuffix_app (s suffix : string) :
  TrimSuffix (s ++ suffix) suffix = s.
Proof.
  induction s as [|c s IH].
  - change ("" ++ suffix)%string with suffix.
    rewrite TrimSuffix_eq, String.eqb_refl. reflexivity.
  - change (String c s ++ suffix)%string with (String c (s ++ suffix)).
    rewrite TrimSuffix_eq.
    destruct (String.eqb_spec (String c (s ++ suffix)) suffix) as [E|_].
    + exfalso. apply (f_equal String.length) in E.
      simpl in E. rewrite length_append in E. lia.
    + rewrite IH. reflexivity.
Qed.

Example TrimSuffix_examples :
  TrimSuffix "0.045s" "s" = "0.045"%string /\
  TrimSuffix "0.045" "s" = "0.045"%string /\
  TrimSuffix "abc" "s" = "abc"%string /\
  TrimSuffix "s" "s" = ""%string.
Proof. repeat split. Qed.

Example parseDecimal_examples :
  parseDecimal "0.045" = Some 0.045%float /\
  parseDecimal "0" = Some 0%float /\
  parseDecimal "12.5" = Some 12.5%float /\
  parseDecimal "abc" = None /\
  parseDecimal "" = None.
Proof. repeat split. Qed.

Example JoinHostPort_examples :
  JoinHostPort "203.0.113.7" "443" = "203.0.113.7:443"%string /\
  JoinHostPort "2001:db8::1" "443" = "[2001:db8::1]:443"%string /\
  dialAddr splitLastColon "203.0.113.7" "cdn.example.com:8443"
  = "203.0.113.7:8443"%string /\
  dialAddr splitLastColon "203.0.113.7" "cdn.example.com"
  = "203.0.113.7:443"%string.
Proof. repeat split. Qed.

(** For the four fractions [calculateSummary] uses and every count up to
    2000, the index the code computes is floor((count-1) * P) taken in
    exact decimal arithmetic. *)
Definition codeIndex (count : nat) (p : float) : option Z :=
  float64_to_int (float64_of_int (Z.of_nat count - 1) * p)%float.

Definition decimalIndex (count : nat) (hundredths : Z) : option Z :=
  Some ((Z.of_nat count - 1) * hundredths / 100)%Z.

Example index_is_decimal_floor :
  forallb (fun count =>
             bool_decide (codeIndex count 0.50 = decimalIndex count 50) &&
             bool_decide (codeIndex count 0.90 = decimalIndex count 90) &&
             bool_decide (codeIndex count 0.95 = decimalIndex count 95) &&
             bool_decide (codeIndex count 0.99 = decimalIndex count 99))
          (seq 1 2000)
  = true.
Proof. vm_compute. reflexivity. Qed.

(** Scenario A: five rounds with TTFB 100, 120, 110, 130, 90 ms and a
    constant origin time of 50 ms. *)
Definition scenarioA_samples : list RequestResult :=
  imap (fun i ms =>
          er_Result (probe trimSpace parseDecimal
                       {| task_Endpoint := {| IP := "203.0.113.7";
                                              EndpointProtocol := HTTP2;
                                              Name := "edge-a" |};
                          task_Client := createHTTP2Client "203.0.113.7" Second;
                          task_URL := "https://cdn.example.com/";
                          task_Domain := "cdn.example.com";
                          task_Index := Z.of_nat (S i) |}
                       (DoReturned (ms * 1000000)%Z (0 <? i)%nat
                                   (originResponse 200 "HTTP/2.0" "0.05s"))))
       [100; 120; 110; 130; 90]%Z.

Example scenarioA_cdn_latencies :
  map CDNLatency scenarioA_samples = scenarioA.
Proof. vm_compute. reflexivity. Qed.

Example scenarioA_summary :
  (fun s => (HasCDN s, SuccessCount s, FailCount s, TTFBP50 s, CDNLatencyP50 s,
             CDNLatencyMin s, CDNLatencyMax s, XResponseTimeAvg s)) <$>
    outcome (calculateSummary sortFloat64s
               {| IP := "203.0.113.7"; EndpointProtocol := HTTP2; Name := "edge-a" |}
               scenarioA_samples)
  = Some (true, 5%Z, 0%Z, 110%float, 60%float, 40%float, 80%float, 50%float).
Proof. vm_compute. reflexivity. Qed.

(** Scenario C: the probe of round 3 times out. *)
Example scenarioC_counts :
  (fun s => (TotalTests s, SuccessCount s, FailCount s)) <$>
    outcome (calculateSummary sortFloat64s
               {| IP := "203.0.113.7"; EndpointProtocol := HTTP2; Name := "edge-a" |}
               (<[2%nat := timedOut 3]> scenarioA_samples))
  = Some (5%Z, 4%Z, 1%Z).
Proof. vm_compute. reflexivity. Qed.

(* ================================================================= *)
(** ** config.go: protocol names and [LoadConfig] *)

(** X1: a protocol value survives the trip through its name and back
    exactly when it is one of the three supported ones; any other value
    is named "Unknown", which reads back as HTTP/1.1.  In the other
    direction every selector is normalised to one of the three canonical
    names, and normalising twice changes nothing. *)
Theorem protocol_name_round_trip (p : Protocol) (s : string) :
  parseProtocol (Protocol_String p)
  = (if decide (supported p) then p else HTTP1) /\
  Protocol_String (parseProtocol s) ∈ protocolOrder /\
  parseProtocol (Protocol_String (parseProtocol s)) = parseProtocol s.
Proof.
  split; [|split].
  - destruct (decide (supported p)) as [[->|[->| ->]]|Hn]; try reflexivity.
    unfold supported, HTTP1, HTTP2, HTTP3 in Hn.
    destruct p as [|[[]|[]|]|]; try reflexivity; exfalso; apply Hn; auto.
  - destruct (parseProtocol_supported s) as [->|[->| ->]];
      unfold protocolOrder; simpl; set_solver.
  - destruct (parseProtocol_supported s) as [->|[->| ->]]; reflexivity.
Qed.

Section LoadConfigFacts.

Variable ReadFile : string -> string + string.
Variable Unmarshal : string -> yamlConfig + string.
Variable ParseDuration : string -> option Duration.

Let load := LoadConfig ReadFile Unmarshal ParseDuration.

(** The path [LoadConfig] reads. *)
Definition configPathOf (path : string) : string :=
  if String.eqb path "" then defaultConfigPath else path.

Lemma LoadConfig_loaded (path data : string) (yc : yamlConfig) :
  ReadFile (configPathOf path) = inl data -> Unmarshal data = inl yc ->
  exists cfg, load path = inl cfg /\
    Domain cfg = yaml_domain yc /\ Path cfg = yaml_path yc /\
    TestCount cfg = yaml_test_count yc /\
    ConfigTimeout cfg = default (30 * Second)%Z (ParseDuration (yaml_timeout yc)) /\
    Interval cfg = default (100 * Millisecond)%Z (ParseDuration (yaml_interval yc)) /\
    Endpoints cfg = map loadEndpoint (yaml_endpoints yc) /\
    OutputDir cfg = (if String.eqb (yaml_dir (yaml_output yc)) "" then "./output"%string
                     else yaml_dir (yaml_output yc)).
Proof.
  unfold load, LoadConfig, configPathOf. intros -> ->.
  eexists. split; [reflexivity|]. cbn.
  destruct (ParseDuration (yaml_timeout yc)), (ParseDuration (yaml_interval yc));
    repeat split.
Qed.

Lemma LoadConfig_inl (path : string) (cfg : Config) :
  load path = inl cfg ->
  exists data yc,
    ReadFile (configPathOf path) = inl data /\ Unmarshal data = inl yc.
Proof.
  unfold load, LoadConfig, configPathOf.
  destruct (ReadFile _) as [data|err]; [|discriminate].
  destruct (Unmarshal data) as [yc|err] eqn:HU; [|discriminate].
  intros _. exists data, yc. split; [reflexivity|exact HU].
Qed.

End LoadConfigFacts.

(** X2: [LoadConfig] fails in two cases only, a file that cannot be read
    and a document that cannot be decoded, and its error then starts
    with the corresponding message.  In particular an unparseable
    timeout or interval, a missing output directory or a test count of
    any sign never make it fail.  The empty path stands for
    ["config.yaml"]. *)
Theorem LoadConfig_failure_cases
    (ReadFile : string -> string + string)
    (Unmarshal : string -> yamlConfig + string)
    (ParseDuration : string -> option Duration) (path : string) :
  LoadConfig ReadFile Unmarshal ParseDuration ""
  = LoadConfig ReadFile Unmarshal ParseDuration "config.yaml" /\
  match LoadConfig ReadFile Unmarshal ParseDuration path with
  | inl cfg =>
      exists data yc,
        ReadFile (configPathOf path) = inl data /\ Unmarshal data = inl yc /\
        TestCount cfg = yaml_test_count yc
  | inr msg =>
      (exists err, ReadFile (configPathOf path) = inr err /\
                   msg = ("读取配置文件失败: " ++ err)%string) \/
      (exists data err, ReadFile (configPathOf path) = inl data /\
                        Unmarshal data = inr err /\
                        msg = ("解析配置文件失败: " ++ err)%string)
  end.
Proof.
  split; [reflexivity|].
  unfold LoadConfig, configPathOf.
  destruct (ReadFile _) as [data|err] eqn:HR.
  - destruct (Unmarshal data) as [yc|err] eqn:HU.
    + exists data, yc. auto.
    + right. exists data, err. auto.
  - left. exists err. auto.
Qed.

(** X3: a configuration that [LoadConfig] returns has a non-empty output
    directory, positive defaults of 30 s and 100 ms in place of a timeout
    or interval that does not parse, and as many endpoints as the
    document, with their names and addresses in document order and each
    with one of the three supported protocols. *)
Theorem LoadConfig_returns_usable_config
    (ReadFile : string -> string + string)
    (Unmarshal : string -> yamlConfig + string)
    (ParseDuration : string -> option Duration)
    (path : string) (cfg : Config) :
  LoadConfig ReadFile Unmarshal ParseDuration path = inl cfg ->
  OutputDir cfg <> ""%string /\
  (forall data yc,
     ReadFile (configPathOf path) = inl data -> Unmarshal data = inl yc ->
     map Name (Endpoints cfg) = map yaml_name (yaml_endpoints yc) /\
     map IP (Endpoints cfg) = map yaml_ip (yaml_endpoints yc) /\
     (ParseDuration (yaml_timeout yc) = None ->
      ConfigTimeout cfg = 30000000000%Z) /\
     (ParseDuration (yaml_interval yc) = None ->
      Interval cfg = 100000000%Z)) /\
  Forall (fun e => supported (EndpointProtocol e)) (Endpoints cfg).
Proof.
  intros Hload.
  destruct (LoadConfig_inl _ _ _ _ _ Hload) as (data & yc & HR & HU).
  destruct (LoadConfig_loaded ReadFile Unmarshal ParseDuration path data yc HR HU)
    as (cfg' & Hcfg & _ & _ & _ & Ht & Hi & He & Ho).
  rewrite Hload in Hcfg. injection Hcfg as <-.
  split; [|split].
  - rewrite Ho. destruct (String.eqb_spec (yaml_dir (yaml_output yc)) "");
      [discriminate|assumption].
  - intros data' yc' HR' HU'. rewrite HR in HR'. injection HR' as <-.
    rewrite HU in HU'. injection HU' as <-.
    rewrite He, !map_map. repeat split.
    + intros E. rewrite Ht, E. reflexivity.
    + intros E. rewrite Hi, E. reflexivity.
  - rewrite He. apply Forall_forall. intros e Hin.
    apply list_elem_of_fmap in Hin as (ye & -> & _).
    apply parseProtocol_supported.
Qed.

(** A document with two endpoints, one of them with a selector that is
    not recognised, and durations that do not parse. *)
Definition exampleYaml : yamlConfig :=
  {| yaml_domain := "cdn.example.com"; yaml_path := "/ping";
     yaml_test_count := 3%Z; yaml_timeout := "soon"; yaml_interval := "";
     yaml_endpoints :=
       [ {| yaml_name := "edge-a"; yaml_ip := "203.0.113.7";
            yaml_protocol := "h2" |};
         {| yaml_name := "edge-b"; yaml_ip := "203.0.113.8";
            yaml_protocol := "gopher" |} ];
     yaml_output := {| yaml_dir := ""; yaml_enable_log := false;
                       yaml_enable_json := true; yaml_enable_html := false |} |}.

Definition exampleReadFile (path : string) : string + string :=
  if String.eqb path "config.yaml" then inl "document"%string
  else inr "no such file"%string.

Definition exampleUnmarshal (data : string) : yamlConfig + string :=
  if String.eqb data "document" then inl exampleYaml else inr "bad document"%string.

Definition exampleParseDuration (s : string) : option Duration :=
  if String.eqb s "1s" then Some Second else None.

Definition exampleConfig : Config :=
  {| Domain := "cdn.example.com"; Path := "/ping"; TestCount := 3%Z;
     ConfigTimeout := (30 * Second)%Z; Interval := (100 * Millisecond)%Z;
     Endpoints :=
       [ {| IP := "203.0.113.7"; EndpointProtocol := HTTP2; Name := "edge-a" |};
         {| IP := "203.0.113.8"; EndpointProtocol := HTTP1; Name := "edge-b" |} ];
     OutputDir := "./output"; EnableLog := false; EnableJSON := true;
     EnableHTML := false |}.

Lemma LoadConfig_returns_usable_config_witness :
  LoadConfig exampleReadFile exampleUnmarshal exampleParseDuration ""
  = inl exampleConfig /\
  OutputDir exampleConfig <> ""%string /\
  (forall data yc,
     exampleReadFile (configPathOf "") = inl data ->
     exampleUnmarshal data = inl yc ->
     map Name (Endpoints exampleConfig) = map yaml_name (yaml_endpoints yc) /\
     map IP (Endpoints exampleConfig) = map yaml_ip (yaml_endpoints yc) /\
     (exampleParseDuration (yaml_timeout yc) = None ->
      ConfigTimeout exampleConfig = 30000000000%Z) /\
     (exampleParseDuration (yaml_interval yc) = None ->
      Interval exampleConfig = 100000000%Z)) /\
  Forall (fun e => supported (EndpointProtocol e)) (Endpoints exampleConfig).
Proof.
  split; [reflexivity|].
  apply (LoadConfig_returns_usable_config exampleReadFile exampleUnmarshal
           exampleParseDuration ""). reflexivity.
Defined.

(* ================================================================= *)
(** ** main.go: the handles of a loaded configuration *)

(** X4: for a configuration that [LoadConfig] returned, the loop of
    [main] builds one handle per configured endpoint, in configuration
    order, and never logs an unsupported protocol: its default branch
    cannot be reached from a loaded configuration. *)
Theorem loaded_config_gets_all_handles
    (ReadFile : string -> string + string)
    (Unmarshal : string -> yamlConfig + string)
    (ParseDuration : string -> option Duration)
    (path : string) (cfg : Config) :
  LoadConfig ReadFile Unmarshal ParseDuration path = inl cfg ->
  buildClients (Endpoints cfg) (ConfigTimeout cfg)
  = (map (fun e => mkEndpointClient e (handleFor e (ConfigTimeout cfg)))
         (Endpoints cfg), []).
Proof.
  intros Hload.
  destruct (LoadConfig_inl _ _ _ _ _ Hload) as (data & yc & HR & HU).
  destruct (LoadConfig_loaded ReadFile Unmarshal ParseDuration path data yc HR HU)
    as (cfg' & Hcfg & _ & _ & _ & _ & _ & He & _).
  rewrite Hload in Hcfg. injection Hcfg as <-.
  assert (Hsup : Forall (fun e => supported (EndpointProtocol e)) (Endpoints cfg)).
  { rewrite He. apply Forall_forall. intros e Hin.
    apply list_elem_of_fmap in Hin as (ye & -> & _).
    apply parseProtocol_supported. }
  rewrite buildClients_spec. f_equal.
  - f_equal. clear -Hsup. induction Hsup as [|e es He _ IH]; [reflexivity|].
    rewrite filter_cons_True by exact He. rewrite IH. reflexivity.
  - clear -Hsup. induction Hsup as [|e es He _ IH]; [reflexivity|].
    rewrite filter_cons_False by tauto. exact IH.
Qed.

Lemma loaded_config_gets_all_handles_witness :
  buildClients (Endpoints exampleConfig) (ConfigTimeout exampleConfig)
  = (map (fun e => mkEndpointClient e (handleFor e (ConfigTimeout exampleConfig)))
         (Endpoints exampleConfig), []).
Proof.
  apply (loaded_config_gets_all_handles exampleReadFile exampleUnmarshal
           exampleParseDuration ""). reflexivity.
Defined.


(* ================================================================= *)
(** ** main.go: the keys of the result map and of the report *)

Lemma containsByte_app (c : ascii) (a b : string) :
  containsByte c (a ++ String c b) = true.
Proof.
  induction a as [|d a IH]; simpl.
  - rewrite Ascii.eqb_refl. reflexivity.
  - rewrite IH. apply orb_true_r.
Qed.

(** A string is cut in one way only at the last occurrence of a byte. *)
Lemma split_at_last (c : ascii) (n1 n2 s1 s2 : string) :
  containsByte c s1 = false -> containsByte c s2 = false ->
  (n1 ++ String c s1 = n2 ++ String c s2)%string -> n1 = n2 /\ s1 = s2.
Proof.
  intros H1 H2. revert n2.
  induction n1 as [|a n1 IH]; intros [|b n2] E; simpl in E.
  - injection E as E. auto.
  - injection E as _ E. rewrite E, containsByte_app in H1. discriminate.
  - injection E as _ E. rewrite <- E, containsByte_app in H2. discriminate.
  - injection E as -> E. destruct (IH n2 E) as [-> ->]. auto.
Qed.

Lemma append_cons (n : string) (a : ascii) (x : string) :
  (n ++ String a x = (n ++ String a "") ++ x)%string.
Proof.
  induction n as [|b n IH]; [reflexivity|].
  change (String b (n ++ String a x) = String b ((n ++ String a "") ++ x))%string.
  rewrite <- IH. reflexivity.
Qed.

Lemma Protocol_String_plain (p : Protocol) :
  containsByte "|" (Protocol_String p) = false /\
  containsByte "(" (Protocol_String p ++ ")") = false /\
  containsByte ")" (Protocol_String p) = false.
Proof. destruct p as [|[[]|[]|]|]; repeat split. Qed.

Lemma resultKey_inj (e1 e2 : Endpoint) :
  resultKey e1 = resultKey e2 <->
  Name e1 = Name e2 /\
  Protocol_String (EndpointProtocol e1) = Protocol_String (EndpointProtocol e2).
Proof.
  unfold resultKey. split.
  - intros E. simpl in E.
    destruct (Protocol_String_plain (EndpointProtocol e1)) as (H1 & _).
    destruct (Protocol_String_plain (EndpointProtocol e2)) as (H2 & _).
    apply (split_at_last "|" _ _ _ _ H1 H2 E).
  - intros [-> ->]. reflexivity.
Qed.

Lemma reportKey_inj (e1 e2 : Endpoint) :
  reportKey e1 = reportKey e2 <->
  Name e1 = Name e2 /\
  Protocol_String (EndpointProtocol e1) = Protocol_String (EndpointProtocol e2).
Proof.
  unfold reportKey. split.
  - intros E.
    assert (K : forall n p, (n ++ " (" ++ p ++ ")"
                             = (n ++ " ") ++ String "(" (p ++ ")"))%string).
    { intros n p. rewrite <- append_cons. reflexivity. }
    rewrite !K in E.
    destruct (Protocol_String_plain (EndpointProtocol e1)) as (_ & H1 & _).
    destruct (Protocol_String_plain (EndpointProtocol e2)) as (_ & H2 & _).
    destruct (split_at_last "(" _ _ _ _ H1 H2 E) as [En Ep].
    apply (split_at_last " " _ _ "" "" eq_refl eq_refl) in En as [En _].
    apply (split_at_last ")" _ _ "" "" eq_refl eq_refl) in Ep as [Ep _].
    auto.
  - intros [-> ->]. reflexivity.
Qed.

(** X6: two endpoints share an entry of the result map exactly when
    they have the same name and the same protocol name, whatever bytes
    the names contain, and exactly then they share an entry of the
    report; among endpoints of supported protocols this means the same
    name and the same protocol. *)
Theorem result_and_report_keys_agree (e1 e2 : Endpoint) :
  (resultKey e1 = resultKey e2 <->
   Name e1 = Name e2 /\
   Protocol_String (EndpointProtocol e1) = Protocol_String (EndpointProtocol e2)) /\
  (reportKey e1 = reportKey e2 <-> resultKey e1 = resultKey e2) /\
  (if decide (supported (EndpointProtocol e1) /\ supported (EndpointProtocol e2))
   then resultKey e1 = resultKey e2 <->
        Name e1 = Name e2 /\ EndpointProtocol e1 = EndpointProtocol e2
   else True).
Proof.
  split; [apply resultKey_inj|]. split.
  - rewrite reportKey_inj, resultKey_inj. reflexivity.
  - destruct (decide _) as [[H1 H2]|_]; [|exact I].
    rewrite resultKey_inj. split; intros [En Ep]; (split; [exact En|]).
    + destruct H1 as [E1|[E1|E1]], H2 as [E2|[E2|E2]];
        rewrite E1, E2 in *; try reflexivity; discriminate Ep.
    + rewrite Ep. reflexivity.
Qed.

(* ================================================================= *)
(** ** client.go: which requests count as successes *)

(** X7: a sample is a success, that is, has an empty error text, exactly
    when the request came back with a response; the status code of the
    response plays no part, it is only copied into the sample. *)
Theorem success_iff_response_received
    (TrimSpace : string -> string) (ParseFloat : string -> option float)
    (client : Client) (url domain : string) (o : Outcome) :
  (succeeded (measureRequest TrimSpace ParseFloat client url domain o) <->
   exists ttfb reused resp, o = DoReturned ttfb reused resp) /\
  match o with
  | DoReturned ttfb reused resp =>
      let r := measureRequest TrimSpace ParseFloat client url domain o in
      StatusCode r = resp_StatusCode resp /\ TTFB r = ttfb /\
      Reused r = reused /\ ActualProto r = resp_Proto resp
  | _ => True
  end.
Proof.
  unfold succeeded. destruct o as [err|err|ttfb reused resp]; simpl.
  - split; [|exact I]. split; [discriminate|]. intros (? & ? & ? & ?). discriminate.
  - split; [|exact I]. split; [discriminate|]. intros (? & ? & ? & ?). discriminate.
  - split.
    + split; [eauto|]. intros _.
      destruct (originSeconds _ _ _); reflexivity.
    + destruct (originSeconds _ _ _); repeat split.
Qed.

(** X8: the unit suffix of the origin-time header is optional and only
    one is removed: a header [v ++ "s"] is read as [v] with surrounding
    white space removed, also when [v] is empty or itself ends in
    ["s"]; a response with that header has origin time 1000 times the
    parsed value, or 0 when [v] does not parse. *)
Theorem origin_header_unit_suffix
    (TrimSpace : string -> string) (ParseFloat : string -> option float)
    (client : Client) (url domain : string)
    (ttfb : Duration) (reused : bool) (status : Z) (proto v : string) :
  originSeconds TrimSpace ParseFloat (v ++ "s") = ParseFloat (TrimSpace v) /\
  XResponseTime
    (measureRequest TrimSpace ParseFloat client url domain
       (DoReturned ttfb reused (originResponse status proto (v ++ "s"))))
  = match ParseFloat (TrimSpace v) with
    | Some seconds => (seconds * 1000)%float
    | None => 0%float
    end.
Proof.
  assert (H : originSeconds TrimSpace ParseFloat (v ++ "s")
              = ParseFloat (TrimSpace v)).
  { unfold originSeconds. rewrite TrimSuffix_app.
    destruct (String.eqb_spec (v ++ "s") "") as [E|_]; [|reflexivity].
    destruct v; discriminate E. }
  split; [exact H|].
  destruct (ParseFloat (TrimSpace v)) as [x|] eqn:Hp.
  - rewrite (measureRequest_parsed TrimSpace ParseFloat _ _ _ _ _ _ x)
      by (rewrite originHeader_originResponse, H; reflexivity).
    reflexivity.
  - rewrite (measureRequest_unparsed TrimSpace ParseFloat)
      by (rewrite originHeader_originResponse, H; reflexivity).
    reflexivity.
Qed.

(* ================================================================= *)
(** ** report.go: what the statistics of a summary are *)

Section LessThan.

Local Open Scope Z_scope.

Lemma SFltb_trans (a b c : spec_float) :
  SFltb a b = true -> SFltb b c = true -> SFltb a c = true.
Proof.
  destruct a as [sa|sa| |sa ma ea], b as [sb|sb| |sb mb eb], c as [sc|sc| |sc mc ec];
    unfold SFltb, SFcompare;
    try reflexivity; try discriminate;
    repeat match goal with s : bool |- _ => destruct s end;
    try reflexivity; try discriminate;
    cmp_cases; cbn [CompOpp]; try reflexivity; try discriminate; intros; exfalso; lia.
Qed.

Lemma SFltb_irrefl (a : spec_float) : SFltb a a = false.
Proof.
  destruct a as [sa|sa| |sa ma ea]; unfold SFltb, SFcompare; try reflexivity.
  - destruct sa; reflexivity.
  - rewrite Z.compare_refl, Pos.compare_cont_refl. destruct sa; reflexivity.
Qed.

Lemma SFleb_ltb_trans (a b c : spec_float) :
  SFleb a b = true -> SFltb b c = true -> SFltb a c = true.
Proof.
  destruct a as [sa|sa| |sa ma ea], b as [sb|sb| |sb mb eb], c as [sc|sc| |sc mc ec];
    unfold SFleb, SFltb, SFcompare;
    try reflexivity; try discriminate;
    repeat match goal with s : bool |- _ => destruct s end;
    try reflexivity; try discriminate;
    cmp_cases; cbn [CompOpp]; try reflexivity; try discriminate; intros; exfalso; lia.
Qed.

End LessThan.

Lemma ltb_trans (a b c : float) :
  (a <? b)%float = true -> (b <? c)%float = true -> (a <? c)%float = true.
Proof. rewrite !FloatAxioms.ltb_spec. apply SFltb_trans. Qed.

Lemma ltb_irrefl (a : float) : (a <? a)%float = false.
Proof. rewrite FloatAxioms.ltb_spec. apply SFltb_irrefl. Qed.

Lemma leb_ltb_trans (a b c : float) :
  (a <=? b)%float = true -> (b <? c)%float = true -> (a <? c)%float = true.
Proof. rewrite FloatAxioms.leb_spec, !FloatAxioms.ltb_spec. apply SFleb_ltb_trans. Qed.

(** [m] is one of the values and none of them is below it; and the same
    from above. *)
Definition isMinimum (m : float) (values : list float) : Prop :=
  m ∈ values /\ Forall (fun v => (v <? m)%float = false) values.

Definition isMaximum (m : float) (values : list float) : Prop :=
  m ∈ values /\ Forall (fun v => (m <? v)%float = false) values.

Lemma isMinimum_step (m v : float) (seen : list float) :
  isMinimum m seen ->
  isMinimum (if (v <? m)%float then v else m) (seen ++ [v]).
Proof.
  intros [Hin Hall]. destruct (v <? m)%float eqn:E.
  - split; [set_solver|]. apply Forall_app. split.
    + eapply Forall_impl; [exact Hall|]. cbv beta. intros w Hw.
      destruct (w <? v)%float eqn:Ew; [|reflexivity].
      rewrite (ltb_trans w v m Ew E) in Hw. discriminate.
    + constructor; [apply ltb_irrefl|constructor].
  - split; [set_solver|]. apply Forall_app. split; [exact Hall|].
    constructor; [exact E|constructor].
Qed.

Lemma isMaximum_step (m v : float) (seen : list float) :
  isMaximum m seen ->
  isMaximum (if (m <? v)%float then v else m) (seen ++ [v]).
Proof.
  intros [Hin Hall]. destruct (m <? v)%float eqn:E.
  - split; [set_solver|]. apply Forall_app. split.
    + eapply Forall_impl; [exact Hall|]. cbv beta. intros w Hw.
      destruct (v <? w)%float eqn:Ew; [|reflexivity].
      rewrite (ltb_trans m v w E Ew) in Hw. discriminate.
    + constructor; [apply ltb_irrefl|constructor].
  - split; [set_solver|]. apply Forall_app. split; [exact Hall|].
    constructor; [exact E|constructor].
Qed.

Lemma stats_fold (values seen : list float) (sum vmin vmax : float) :
  isMinimum vmin seen -> isMaximum vmax seen ->
  isMinimum (snd (fst (foldl stats_step (sum, vmin, vmax) values)))
            (seen ++ values) /\
  isMaximum (snd (foldl stats_step (sum, vmin, vmax) values)) (seen ++ values).
Proof.
  revert seen sum vmin vmax.
  induction values as [|v values IH]; intros seen sum vmin vmax Hmin Hmax.
  - rewrite app_nil_r. simpl. auto.
  - cbn [foldl]. unfold stats_step at 2 4.
    replace (seen ++ v :: values) with ((seen ++ [v]) ++ values)
      by (rewrite <- app_assoc; reflexivity).
    apply IH; [apply isMinimum_step|apply isMaximum_step]; assumption.
Qed.

(** The minimum and maximum the statistics loop ends with, started as
    the code starts it, on the first value. *)
Lemma stats_min_max (v0 : float) (rest : list float) :
  isMinimum (snd (fst (stats v0 (v0 :: rest)))) (v0 :: rest) /\
  isMaximum (snd (stats v0 (v0 :: rest))) (v0 :: rest).
Proof.
  unfold stats. cbn [foldl]. unfold stats_step at 2 4.
  rewrite ltb_irrefl.
  apply (stats_fold rest [v0]);
    (split; [set_solver|constructor; [apply ltb_irrefl|constructor]]).
Qed.

Section StatisticsFacts.

Variable Float64s : list float -> list float.
Hypothesis Float64s_perm : forall l, Float64s l ≡ₚ l.

(** The fields of the summary of a sequence with a success, each as the
    expression the code computes it by. *)
Lemma calculateSummary_fields (endpoint : Endpoint) (rs : list RequestResult) :
  (Z.of_nat (length rs) < 2 ^ 53)%Z ->
  ttfbValues (tally rs) <> [] ->
  let T := ttfbValues (tally rs) in
  let C := cdnLatencyValues (tally rs) in
  exists s t0 c0,
    outcome (calculateSummary Float64s endpoint rs) = Some s /\
    head T = Some t0 /\ head C = Some c0 /\
    EndpointName s = Name endpoint /\
    ProtocolName s = Protocol_String (EndpointProtocol endpoint) /\
    TTFBMin s = snd (fst (stats t0 T)) /\ TTFBMax s = snd (stats t0 T) /\
    TTFBAvg s = (fst (fst (stats t0 T)) / float64_of_int (Z.of_nat (length T)))%float /\
    CDNLatencyMin s = snd (fst (stats c0 C)) /\ CDNLatencyMax s = snd (stats c0 C) /\
    CDNLatencyAvg s
    = (fst (fst (stats c0 C)) / float64_of_int (Z.of_nat (length C)))%float /\
    XResponseTimeAvg s
    = (xResponseTimeSum (tally rs) / float64_of_int (Z.of_nat (length T)))%float /\
    percentile Float64s T 0.50 = Some (TTFBP50 s) /\
    percentile Float64s T 0.90 = Some (TTFBP90 s) /\
    percentile Float64s T 0.95 = Some (TTFBP95 s) /\
    percentile Float64s T 0.99 = Some (TTFBP99 s) /\
    percentile Float64s C 0.50 = Some (CDNLatencyP50 s) /\
    percentile Float64s C 0.90 = Some (CDNLatencyP90 s) /\
    percentile Float64s C 0.95 = Some (CDNLatencyP95 s) /\
    percentile Float64s C 0.99 = Some (CDNLatencyP99 s).
Proof.
  intros Hlen Hne T C. subst T C.
  destruct (tally_lengths rs) as [Hl Hle].
  destruct (ttfbValues (tally rs)) as [|t0 ts] eqn:Ht; [contradiction|].
  unfold calculateSummary. rewrite Ht. rewrite <- Ht.
  destruct (stats t0 (ttfbValues (tally rs))) as [[ttfbSum ttfbMin] ttfbMax] eqn:Hst.
  destruct (tally_lengths rs) as [Hl2 Hle2].
  assert (Hb : (Z.of_nat (length (ttfbValues (tally rs))) < 2 ^ 53)%Z) by lia.
  assert (Hb' : (Z.of_nat (length (cdnLatencyValues (tally rs))) < 2 ^ 53)%Z)
    by lia.
  destruct (cdnLatencyValues (tally rs)) as [|c0 cs] eqn:Hc;
    [rewrite Ht in Hl2; discriminate|]. rewrite <- Hc. rewrite <- Hc in Hb'.
  pose proof (percentile_returns Float64s Float64s_perm (ttfbValues (tally rs)))
    as PT.
  pose proof (percentile_returns Float64s Float64s_perm
                (cdnLatencyValues (tally rs))) as PC.
  destruct (PT 0.50%float Hb eq_refl eq_refl) as [t50 Ht50].
  destruct (PT 0.90%float Hb eq_refl eq_refl) as [t90 Ht90].
  destruct (PT 0.95%float Hb eq_refl eq_refl) as [t95 Ht95].
  destruct (PT 0.99%float Hb eq_refl eq_refl) as [t99 Ht99].
  destruct (PC 0.50%float Hb' eq_refl eq_refl) as [c50 Hc50].
  destruct (PC 0.90%float Hb' eq_refl eq_refl) as [c90 Hc90].
  destruct (PC 0.95%float Hb' eq_refl eq_refl) as [c95 Hc95].
  destruct (PC 0.99%float Hb' eq_refl eq_refl) as [c99 Hc99].
  rewrite Ht50, Ht90, Ht95, Ht99, Hc50, Hc90, Hc95, Hc99.
  replace (head (cdnLatencyValues (tally rs))) with (Some c0)
    by (rewrite Hc; reflexivity).
  unfold mbind, Exec_bind, checked, divByLen, mret, Exec_ret.
  cbn [outcome divisors].
  destruct (stats c0 (cdnLatencyValues (tally rs))) as [[cdnSum cdnMin] cdnMax]
    eqn:Hsc.
  eexists _, t0, c0. split; [reflexivity|]. cbn -[stats percentile].
  split; [rewrite Ht; reflexivity|].
  repeat split; rewrite ?Hst, ?Hsc; reflexivity.
Qed.

End StatisticsFacts.

(** The complement of a filter, counted. *)
Lemma filter_lengths {A} (P : A -> Prop) `{!forall x, Decision (P x)}
    (l : list A) :
  (length (filter P l) + length (filter (fun x => ~ P x) l) = length l)%nat.
Proof.
  induction l as [|x l IH]; [reflexivity|].
  destruct (decide (P x)) as [Hx|Hx].
  - rewrite filter_cons_True by exact Hx.
    rewrite (filter_cons_False (fun x => ~ P x)) by tauto. simpl. lia.
  - rewrite filter_cons_False by exact Hx.
    rewrite (filter_cons_True (fun x => ~ P x)) by exact Hx. simpl. lia.
Qed.

(** The counters of the first loop. *)
Lemma tally_totals (rs : list RequestResult) :
  successCount (tally rs) = Z.of_nat (length (filter succeeded rs)) /\
  (successCount (tally rs) + failCount (tally rs) = Z.of_nat (length rs))%Z /\
  (0 <= failCount (tally rs))%Z.
Proof.
  destruct (tally_counts rs
              {| failCount := 0; successCount := 0; ttfbValues := [];
                 cdnLatencyValues := []; xResponseTimeSum := 0%float;
                 hasXResponseTime := false |}) as [Hs1 Hf1].
  fold (tally rs) in Hs1, Hf1. simpl in Hs1, Hf1.
  pose proof (filter_lengths succeeded rs).
  rewrite Hs1, Hf1. repeat split; lia.
Qed.

(** X9: the summary of a sequence of fewer than 2^53 samples exists
    (no index leaves its slice) and its three counters add up: the total
    is the number of samples, the successes are the samples with an
    empty error text, and successes and failures sum to the total. *)
Theorem summary_counts_add_up
    (Float64s : list float -> list float)
    (endpoint : Endpoint) (rs : list RequestResult) :
  (forall l, Float64s l ≡ₚ l) ->
  (Z.of_nat (length rs) < 2 ^ 53)%Z ->
  exists s,
    outcome (calculateSummary Float64s endpoint rs) = Some s /\
    TotalTests s = Z.of_nat (length rs) /\
    SuccessCount s = Z.of_nat (length (filter succeeded rs)) /\
    (SuccessCount s + FailCount s = TotalTests s)%Z /\
    (0 <= FailCount s)%Z.
Proof.
  intros Hperm Hlen.
  destruct (calculateSummary_returns Float64s Hperm endpoint rs Hlen)
    as (s & Hs & _ & Hsc & Hfc & Htot).
  destruct (tally_totals rs) as (Hsucc & Hsum & Hfail).
  exists s. split; [exact Hs|].
  rewrite Htot, Hsc, Hfc. auto.
Qed.

(** Scenario C: scenario A with the probe of round 3 timed out. *)
Definition scenarioC : list RequestResult :=
  <[2%nat := timedOut 3]> scenarioA_samples.

Lemma summary_counts_add_up_witness :
  exists s,
    outcome (calculateSummary sortFloat64s zeroEndpoint scenarioC) = Some s /\
    TotalTests s = Z.of_nat (length scenarioC) /\
    SuccessCount s = Z.of_nat (length (filter succeeded scenarioC)) /\
    (SuccessCount s + FailCount s = TotalTests s)%Z /\
    (0 <= FailCount s)%Z.
Proof.
  apply (summary_counts_add_up sortFloat64s zeroEndpoint scenarioC
           sortFloat64s_perm).
  vm_compute. reflexivity.
Defined.

(** *** Failed samples and the statistics *)

Lemma tally_filter_succeeded (rs : list RequestResult) (t : Tally) :
  foldl tally_step t (filter succeeded rs)
  = let t' := foldl tally_step t rs in
    {| failCount := failCount t; successCount := successCount t';
       ttfbValues := ttfbValues t'; cdnLatencyValues := cdnLatencyValues t';
       xResponseTimeSum := xResponseTimeSum t';
       hasXResponseTime := hasXResponseTime t' |}.
Proof.
  revert t. induction rs as [|r rs IH]; intros t.
  - rewrite filter_nil. destruct t; reflexivity.
  - destruct (decide (succeeded r)) as [Hs|Hs].
    + rewrite filter_cons_True by exact Hs. cbn [foldl]. rewrite IH.
      cbv zeta. rewrite tally_step_succeeded by exact Hs. reflexivity.
    + rewrite filter_cons_False by exact Hs. cbn [foldl]. rewrite IH.
      cbv zeta.
      assert (E : forall u,
        foldl tally_step
          {| failCount := failCount u + 1; successCount := successCount u;
             ttfbValues := ttfbValues u; cdnLatencyValues := cdnLatencyValues u;
             xResponseTimeSum := xResponseTimeSum u;
             hasXResponseTime := hasXResponseTime u |} rs
        = let t' := foldl tally_step u rs in
          {| failCount := failCount t' + 1; successCount := successCount t';
             ttfbValues := ttfbValues t'; cdnLatencyValues := cdnLatencyValues t';
             xResponseTimeSum := xResponseTimeSum t';
             hasXResponseTime := hasXResponseTime t' |}).
      { clear. induction rs as [|r rs IH]; intros u; cbn [foldl].
        - reflexivity.
        - destruct (decide (succeeded r)) as [Hs|Hs].
          + rewrite !tally_step_succeeded by exact Hs. cbn [failCount successCount
              ttfbValues cdnLatencyValues xResponseTimeSum hasXResponseTime].
            rewrite <- IH. reflexivity.
          + rewrite !tally_step_failed by exact Hs. cbn [failCount successCount
              ttfbValues cdnLatencyValues xResponseTimeSum hasXResponseTime].
            rewrite <- IH. reflexivity. }
      rewrite tally_step_failed by exact Hs. rewrite E. reflexivity.
Qed.

(** A summary with its failures forgotten. *)
Definition withoutFailures (s : Summary) : Summary :=
  {| EndpointName := EndpointName s; ProtocolName := ProtocolName s;
     TotalTests := SuccessCount s; SuccessCount := SuccessCount s;
     FailCount := 0%Z; HasCDN := HasCDN s;
     TTFBAvg := TTFBAvg s; TTFBMin := TTFBMin s; TTFBMax := TTFBMax s;
     TTFBP50 := TTFBP50 s; TTFBP90 := TTFBP90 s; TTFBP95 := TTFBP95 s;
     TTFBP99 := TTFBP99 s;
     CDNLatencyAvg := CDNLatencyAvg s; CDNLatencyMin := CDNLatencyMin s;
     CDNLatencyMax := CDNLatencyMax s;
     CDNLatencyP50 := CDNLatencyP50 s; CDNLatencyP90 := CDNLatencyP90 s;
     CDNLatencyP95 := CDNLatencyP95 s; CDNLatencyP99 := CDNLatencyP99 s;
     XResponseTimeAvg := XResponseTimeAvg s |}.

(** X10: failed samples count and nothing else.  Removing them from a
    sequence changes the summary in its total and its failure counter
    only: every mean, extreme and percentile, the origin mean and the
    CDN flag are those of the successful samples alone, wherever the
    failures stood in the sequence. *)
Theorem failures_leave_statistics_unchanged
    (Float64s : list float -> list float)
    (endpoint : Endpoint) (rs : list RequestResult) :
  outcome (calculateSummary Float64s endpoint (filter succeeded rs))
  = withoutFailures <$> outcome (calculateSummary Float64s endpoint rs).
Proof.
  unfold calculateSummary.
  assert (Hlen : Z.of_nat (length (filter succeeded rs)) = successCount (tally rs)).
  { destruct (tally_counts rs
                {| failCount := 0; successCount := 0; ttfbValues := [];
                   cdnLatencyValues := []; xResponseTimeSum := 0%float;
                   hasXResponseTime := false |}) as [Hs1 _].
    fold (tally rs) in Hs1. rewrite Hs1. reflexivity. }
  rewrite Hlen.
  assert (E : tally (filter succeeded rs)
              = {| failCount := 0; successCount := successCount (tally rs);
                   ttfbValues := ttfbValues (tally rs);
                   cdnLatencyValues := cdnLatencyValues (tally rs);
                   xResponseTimeSum := xResponseTimeSum (tally rs);
                   hasXResponseTime := hasXResponseTime (tally rs) |})
    by (unfold tally; rewrite tally_filter_succeeded; reflexivity).
  rewrite E.
  cbn [failCount successCount ttfbValues cdnLatencyValues xResponseTimeSum
       hasXResponseTime].
  destruct (ttfbValues (tally rs)) as [|t0 ts] eqn:Ht; [reflexivity|].
  rewrite <- Ht.
  destruct (stats t0 (ttfbValues (tally rs))) as [[ttfbSum ttfbMin] ttfbMax].
  unfold mbind, Exec_bind, checked, divByLen, mret, Exec_ret.
  cbn [outcome divisors].
  set (T := ttfbValues (tally rs)). set (C := cdnLatencyValues (tally rs)).
  destruct (percentile Float64s T 0.50); cbn [outcome divisors]; [|reflexivity].
  destruct (percentile Float64s T 0.90); cbn [outcome divisors]; [|reflexivity].
  destruct (percentile Float64s T 0.95); cbn [outcome divisors]; [|reflexivity].
  destruct (percentile Float64s T 0.99); cbn [outcome divisors]; [|reflexivity].
  destruct (head C); cbn [outcome divisors]; [|reflexivity].
  destruct (stats _ C) as [[cdnSum cdnMin] cdnMax]; cbn [outcome divisors].
  destruct (percentile Float64s C 0.50); cbn [outcome divisors]; [|reflexivity].
  destruct (percentile Float64s C 0.90); cbn [outcome divisors]; [|reflexivity].
  destruct (percentile Float64s C 0.95); cbn [outcome divisors]; [|reflexivity].
  destruct (percentile Float64s C 0.99); cbn [outcome divisors]; reflexivity.
Qed.

(** *** Extremes and percentiles *)

(** X11: in the summary of a sequence with at least one success the
    reported minimum and maximum of the time-to-first-byte, and those
    of the CDN latency, are values of successful samples, and no
    successful sample is below the minimum or above the maximum. *)
Theorem extremes_bound_every_sample
    (Float64s : list float -> list float)
    (endpoint : Endpoint) (rs : list RequestResult) :
  (forall l, Float64s l ≡ₚ l) ->
  (Z.of_nat (length rs) < 2 ^ 53)%Z ->
  (exists r, r ∈ rs /\ succeeded r) ->
  exists s,
    outcome (calculateSummary Float64s endpoint rs) = Some s /\
    isMinimum (TTFBMin s) (map (fun r => ttfbMs (TTFB r)) (filter succeeded rs)) /\
    isMaximum (TTFBMax s) (map (fun r => ttfbMs (TTFB r)) (filter succeeded rs)) /\
    isMinimum (CDNLatencyMin s) (map CDNLatency (filter succeeded rs)) /\
    isMaximum (CDNLatencyMax s) (map CDNLatency (filter succeeded rs)).
Proof.
  intros Hperm Hlen (r & Hr & Hs).
  assert (HT : ttfbValues (tally rs)
               = map (fun r => ttfbMs (TTFB r)) (filter succeeded rs))
    by (unfold tally; rewrite tally_ttfbValues; reflexivity).
  assert (HC : cdnLatencyValues (tally rs) = map CDNLatency (filter succeeded rs))
    by (unfold tally; rewrite tally_cdnLatencyValues; reflexivity).
  assert (Hne : ttfbValues (tally rs) <> []).
  { rewrite HT. intros E. apply fmap_nil_inv in E.
    assert (Hin : r ∈ filter succeeded rs) by (apply list_elem_of_filter; auto).
    rewrite E in Hin. apply elem_of_nil in Hin. exact Hin. }
  destruct (calculateSummary_fields Float64s Hperm endpoint rs Hlen Hne)
    as (s & t0 & c0 & Hout & Ht0 & Hc0 & _ & _ & Hmin & Hmax & _ & Hcmin & Hcmax & _).
  exists s. split; [exact Hout|].
  rewrite <- HT, <- HC, Hmin, Hmax, Hcmin, Hcmax.
  destruct (ttfbValues (tally rs)) as [|t0' ts]; [discriminate|].
  injection Ht0 as ->.
  destruct (cdnLatencyValues (tally rs)) as [|c0' cs]; [discriminate|].
  injection Hc0 as ->.
  destruct (stats_min_max t0 ts), (stats_min_max c0 cs). auto.
Qed.

Lemma extremes_bound_every_sample_witness :
  exists s,
    outcome (calculateSummary sortFloat64s zeroEndpoint scenarioC) = Some s /\
    isMinimum (TTFBMin s)
      (map (fun r => ttfbMs (TTFB r)) (filter succeeded scenarioC)) /\
    isMaximum (TTFBMax s)
      (map (fun r => ttfbMs (TTFB r)) (filter succeeded scenarioC)) /\
    isMinimum (CDNLatencyMin s) (map CDNLatency (filter succeeded scenarioC)) /\
    isMaximum (CDNLatencyMax s) (map CDNLatency (filter succeeded scenarioC)).
Proof.
  refine (extremes_bound_every_sample sortFloat64s zeroEndpoint scenarioC
            sortFloat64s_perm _ _).
  - vm_compute. reflexivity.
  - eexists. split;
      [eapply (list_elem_of_lookup_2 _ 0%nat); vm_compute; reflexivity
      |reflexivity].
Defined.

(** A value of the list that lies between its extremes. *)
Definition withinExtremes (v lo hi : float) (values : list float) : Prop :=
  v ∈ values /\ (v <? lo)%float = false /\ (hi <? v)%float = false.

(** X12: every percentile of a summary is the value of a successful
    sample, never an interpolation, and lies between the reported
    minimum and maximum of its series. *)
Theorem percentiles_are_samples_within_extremes
    (Float64s : list float -> list float)
    (endpoint : Endpoint) (rs : list RequestResult) :
  (forall l, Float64s l ≡ₚ l) ->
  (Z.of_nat (length rs) < 2 ^ 53)%Z ->
  (exists r, r ∈ rs /\ succeeded r) ->
  exists s,
    outcome (calculateSummary Float64s endpoint rs) = Some s /\
    Forall (fun v => withinExtremes v (TTFBMin s) (TTFBMax s)
                       (map (fun r => ttfbMs (TTFB r)) (filter succeeded rs)))
           [TTFBP50 s; TTFBP90 s; TTFBP95 s; TTFBP99 s] /\
    Forall (fun v => withinExtremes v (CDNLatencyMin s) (CDNLatencyMax s)
                       (map CDNLatency (filter succeeded rs)))
           [CDNLatencyP50 s; CDNLatencyP90 s; CDNLatencyP95 s; CDNLatencyP99 s].
Proof.
  intros Hperm Hlen (r & Hr & Hs).
  assert (HT : ttfbValues (tally rs)
               = map (fun r => ttfbMs (TTFB r)) (filter succeeded rs))
    by (unfold tally; rewrite tally_ttfbValues; reflexivity).
  assert (HC : cdnLatencyValues (tally rs) = map CDNLatency (filter succeeded rs))
    by (unfold tally; rewrite tally_cdnLatencyValues; reflexivity).
  assert (Hne : ttfbValues (tally rs) <> []).
  { rewrite HT. intros E. apply fmap_nil_inv in E.
    assert (Hin : r ∈ filter succeeded rs) by (apply list_elem_of_filter; auto).
    rewrite E in Hin. apply elem_of_nil in Hin. exact Hin. }
  destruct (calculateSummary_fields Float64s Hperm endpoint rs Hlen Hne)
    as (s & t0 & c0 & Hout & Ht0 & Hc0 & _ & _ & Hmin & Hmax & _ & Hcmin & Hcmax
        & _ & _ & P1 & P2 & P3 & P4 & P5 & P6 & P7 & P8).
  exists s. split; [exact Hout|].
  rewrite <- HT, <- HC, Hmin, Hmax, Hcmin, Hcmax.
  destruct (tally_lengths rs) as [Hl Hle].
  assert (Hmem : forall values p v,
            percentile Float64s values p = Some v ->
            (Z.of_nat (length values) < 2 ^ 53)%Z -> values <> [] ->
            (0 <=? p)%float = true -> (p <=? 1)%float = true ->
            v ∈ values).
  { intros values p v Hv Hb Hn Hp0 Hp1.
    destruct (percentile_at_index Float64s Hperm values p Hn Hb Hp0 Hp1)
      as (i & w & _ & _ & Hw & Hpw).
    rewrite Hpw in Hv. injection Hv as <-.
    eapply sorted_elem_of; [exact Hperm|exact Hw]. }
  assert (Hwithin : forall v0 rest v,
            v ∈ v0 :: rest ->
            withinExtremes v (snd (fst (stats v0 (v0 :: rest))))
              (snd (stats v0 (v0 :: rest))) (v0 :: rest)).
  { intros v0 rest v Hin.
    destruct (stats_min_max v0 rest) as [[_ Hlo] [_ Hhi]].
    rewrite Forall_forall in Hlo, Hhi.
    split; [exact Hin|]. split; [apply Hlo|apply Hhi]; exact Hin. }
  destruct (ttfbValues (tally rs)) as [|t0' ts] eqn:ET; [discriminate|].
  injection Ht0 as ->.
  destruct (cdnLatencyValues (tally rs)) as [|c0' cs] eqn:EC; [discriminate|].
  injection Hc0 as ->.
  assert (Hb : (Z.of_nat (length (t0 :: ts)) < 2 ^ 53)%Z) by lia.
  assert (Hb' : (Z.of_nat (length (c0 :: cs)) < 2 ^ 53)%Z) by lia.
  split;
    (repeat (apply Forall_cons_2;
             [apply Hwithin;
              (eapply Hmem;
               [eassumption|assumption|discriminate|reflexivity|reflexivity])|]);
     apply Forall_nil_2).
Qed.

Lemma percentiles_are_samples_within_extremes_witness :
  exists s,
    outcome (calculateSummary sortFloat64s zeroEndpoint scenarioC) = Some s /\
    Forall (fun v => withinExtremes v (TTFBMin s) (TTFBMax s)
                       (map (fun r => ttfbMs (TTFB r)) (filter succeeded scenarioC)))
           [TTFBP50 s; TTFBP90 s; TTFBP95 s; TTFBP99 s] /\
    Forall (fun v => withinExtremes v (CDNLatencyMin s) (CDNLatencyMax s)
                       (map CDNLatency (filter succeeded scenarioC)))
           [CDNLatencyP50 s; CDNLatencyP90 s; CDNLatencyP95 s; CDNLatencyP99 s].
Proof.
  refine (percentiles_are_samples_within_extremes sortFloat64s zeroEndpoint
            scenarioC sortFloat64s_perm _ _).
  - vm_compute. reflexivity.
  - eexists. split;
      [eapply (list_elem_of_lookup_2 _ 0%nat); vm_compute; reflexivity
      |reflexivity].
Defined.

(* ================================================================= *)
(** ** main.go: from the rounds to the report *)

(** The endpoints of a configuration that [main] tests: those its loop
    builds a handle for. *)
Definition tested (config : Config) : list Endpoint :=
  filter (fun e => supported (EndpointProtocol e)) (Endpoints config).

(** The request came back with a response. *)
Definition responded (o : Outcome) : bool :=
  match o with DoReturned _ _ _ => true | _ => false end.

Lemma calculateSummary_names (Float64s : list float -> list float)
    (endpoint : Endpoint) (rs : list RequestResult) (s : Summary) :
  outcome (calculateSummary Float64s endpoint rs) = Some s ->
  EndpointName s = Name endpoint /\
  ProtocolName s = Protocol_String (EndpointProtocol endpoint).
Proof.
  unfold calculateSummary.
  destruct (ttfbValues (tally rs)) as [|t0 ts] eqn:Ht.
  - simpl. intros E. injection E as <-. auto.
  - rewrite <- Ht.
    destruct (stats t0 (ttfbValues (tally rs))) as [[ttfbSum ttfbMin] ttfbMax].
    unfold mbind, Exec_bind, checked, divByLen, mret, Exec_ret.
    cbn [outcome divisors].
    set (T := ttfbValues (tally rs)). set (C := cdnLatencyValues (tally rs)).
    destruct (percentile Float64s T 0.50); cbn [outcome divisors]; [|discriminate].
    destruct (percentile Float64s T 0.90); cbn [outcome divisors]; [|discriminate].
    destruct (percentile Float64s T 0.95); cbn [outcome divisors]; [|discriminate].
    destruct (percentile Float64s T 0.99); cbn [outcome divisors]; [|discriminate].
    destruct (head C); cbn [outcome divisors]; [|discriminate].
    destruct (stats _ C) as [[cdnSum cdnMin] cdnMax]; cbn [outcome divisors].
    destruct (percentile Float64s C 0.50); cbn [outcome divisors]; [|discriminate].
    destruct (percentile Float64s C 0.90); cbn [outcome divisors]; [|discriminate].
    destruct (percentile Float64s C 0.95); cbn [outcome divisors]; [|discriminate].
    destruct (percentile Float64s C 0.99); cbn [outcome divisors]; [|discriminate].
    intros E. injection E as <-. auto.
Qed.

Lemma initResults_values (clients : list EndpointClient) (k : string)
    (v : list RequestResult) :
  initResults clients !! k = Some v -> v = [].
Proof.
  unfold initResults.
  assert (H : forall m : gmap string (list RequestResult),
    (forall v, m !! k = Some v -> v = []) ->
    forall v,
      foldl (fun m ec => <[resultKey (ec_Endpoint ec) := []]> m) m clients !! k
      = Some v -> v = []).
  { induction clients as [|c cs IH]; intros m Hm w; simpl; [apply Hm|].
    apply IH. intros u.
    destruct (decide (resultKey (ec_Endpoint c) = k)) as [->|Hne].
    - rewrite lookup_insert_eq. congruence.
    - rewrite lookup_insert_ne by exact Hne. apply Hm. }
  apply H. intros u. rewrite lookup_empty. discriminate.
Qed.

(** The report after the final loop has filed every endpoint's results. *)
Definition fileResults (m : gmap string (list RequestResult))
    (report : TestReport) (clients : list EndpointClient) : TestReport :=
  foldl (fun r ec => AddResults r (reportKey (ec_Endpoint ec))
                       (resultsOf m (ec_Endpoint ec)))
        report clients.

Lemma fileResults_cons (m : gmap string (list RequestResult))
    (report : TestReport) (ec : EndpointClient) (clients : list EndpointClient) :
  fileResults m report (ec :: clients)
  = fileResults m (AddResults report (reportKey (ec_Endpoint ec))
                     (resultsOf m (ec_Endpoint ec))) clients.
Proof. reflexivity. Qed.

Section MainFacts.

Variable TrimSpace : string -> string.
Variable ParseFloat : string -> option float.
Variable Float64s : list float -> list float.

(** The final loop, when every aggregation returns. *)
Lemma summarize_fold (m : gmap string (list RequestResult))
    (clients : list EndpointClient)
    (acc : Exec (TestReport * list Summary))
    (r0 : TestReport) (s0 sums : list Summary) :
  outcome acc = Some (r0, s0) ->
  Forall2 (fun ec s =>
             outcome (calculateSummary Float64s (ec_Endpoint ec)
                        (resultsOf m (ec_Endpoint ec))) = Some s)
          clients sums ->
  outcome (foldl (summarize_step Float64s m) acc clients)
  = Some (fileResults m r0 clients, s0 ++ sums).
Proof.
  intros Hacc Hall. revert acc r0 s0 Hacc.
  induction Hall as [|ec s clients sums Hs _ IH]; intros acc r0 s0 Hacc.
  - simpl. rewrite app_nil_r. exact Hacc.
  - cbn [foldl]. rewrite fileResults_cons.
    replace (s0 ++ s :: sums) with ((s0 ++ [s]) ++ sums)
      by (rewrite <- app_assoc; reflexivity).
    apply IH.
    unfold summarize_step, mbind, Exec_bind, mret, Exec_ret.
    rewrite Hacc. cbn [outcome]. rewrite Hs. reflexivity.
Qed.

Lemma fileResults_config (m : gmap string (list RequestResult))
    (r0 : TestReport) (clients : list EndpointClient) :
  Protocols (fileResults m r0 clients) = Protocols r0 /\
  ReportConfigOf (fileResults m r0 clients) = ReportConfigOf r0.
Proof.
  revert r0. induction clients as [|ec clients IH]; intros r0; [auto|].
  rewrite fileResults_cons.
  destruct (IH (AddResults r0 (reportKey (ec_Endpoint ec))
                  (resultsOf m (ec_Endpoint ec)))) as [-> ->]. auto.
Qed.

(** With distinct display names every endpoint of the loop finds its
    own results in the report, and the report has no other entry. *)
Lemma fileResults_lookup (m : gmap string (list RequestResult))
    (r0 : TestReport) (clients : list EndpointClient) (k : string) :
  NoDup (map (fun ec => reportKey (ec_Endpoint ec)) clients) ->
  ReportResults (fileResults m r0 clients) !! k
  = match list_find (fun ec => reportKey (ec_Endpoint ec) = k) clients with
    | Some (_, ec) => Some (resultsOf m (ec_Endpoint ec))
    | None => ReportResults r0 !! k
    end.
Proof.
  revert r0. induction clients as [|ec clients IH]; intros r0 Hnd; [reflexivity|].
  simpl in Hnd. apply NoDup_cons in Hnd as [Hnotin Hnd].
  rewrite fileResults_cons.
  rewrite IH by exact Hnd. cbn [list_find].
  destruct (decide (reportKey (ec_Endpoint ec) = k)) as [E|E].
  - subst k. cbn [fmap option_fmap option_map].
    destruct (list_find _ clients) as [[i ec']|] eqn:Hf.
    + apply list_find_Some in Hf as (Hi & Hk & _).
      exfalso. apply Hnotin. rewrite <- Hk.
      apply (list_elem_of_fmap_2 (fun ec => reportKey (ec_Endpoint ec))).
      eapply list_elem_of_lookup_2. exact Hi.
    + simpl. apply lookup_insert_eq.
  - destruct (list_find _ clients) as [[i ec']|] eqn:Hf; simpl; [reflexivity|].
    apply lookup_insert_ne. exact E.
Qed.

Lemma fileResults_summaries (m : gmap string (list RequestResult))
    (r0 : TestReport) (clients : list EndpointClient) :
  Summaries (fileResults m r0 clients) = Summaries r0.
Proof.
  revert r0. induction clients as [|ec clients IH]; intros r0; [reflexivity|].
  rewrite fileResults_cons. rewrite IH. reflexivity.
Qed.

End MainFacts.

(** *** [Finalize] *)

Lemma groupByProtocol_fold (summaries : list Summary)
    (m : gmap string (list Summary)) (p : string) :
  foldl (fun m s =>
           <[ProtocolName s := default [] (m !! ProtocolName s) ++ [s]]> m)
        m summaries !! p
  = if decide (filter (fun s => ProtocolName s = p) summaries = [])
    then m !! p
    else Some (default [] (m !! p)
               ++ filter (fun s => ProtocolName s = p) summaries).
Proof.
  revert m. induction summaries as [|s ss IH]; intros m; [reflexivity|].
  cbn [foldl]. rewrite IH.
  destruct (decide (ProtocolName s = p)) as [E|E].
  - rewrite filter_cons_True by exact E. rewrite E, lookup_insert_eq.
    rewrite (decide_False (P := _ :: _ = [])) by discriminate.
    destruct (decide (filter _ ss = [])) as [->|_].
    + reflexivity.
    + simpl. rewrite <- app_assoc. reflexivity.
  - rewrite filter_cons_False by exact E. rewrite lookup_insert_ne by exact E.
    reflexivity.
Qed.

Lemma groupByProtocol_lookup (summaries : list Summary) (p : string) :
  groupByProtocol summaries !! p
  = if decide (filter (fun s => ProtocolName s = p) summaries = [])
    then None
    else Some (filter (fun s => ProtocolName s = p) summaries).
Proof.
  unfold groupByProtocol. rewrite groupByProtocol_fold, lookup_empty. reflexivity.
Qed.

Lemma filter_nil_iff_not_elem (summaries : list Summary) (p : string) :
  filter (fun s => ProtocolName s = p) summaries = [] <->
  p ∉ map ProtocolName summaries.
Proof.
  induction summaries as [|s ss IH];
    [split; [intros _; apply not_elem_of_nil|reflexivity]|].
  destruct (decide (ProtocolName s = p)) as [E|E].
  - rewrite filter_cons_True by exact E. simpl. split; [discriminate|].
    intros H. exfalso. apply H. rewrite E. apply list_elem_of_here.
  - rewrite filter_cons_False by exact E. simpl. rewrite not_elem_of_cons.
    split; [intros H; split; [congruence|apply IH, H]|intros [_ H]; apply IH, H].
Qed.

Lemma listProtocols_step (summaries : list Summary) (ps : list string)
    (p : string) :
  match groupByProtocol summaries !! p with
  | Some _ => ps ++ [p]
  | None => ps
  end = ps ++ filter (fun p => p ∈ map ProtocolName summaries) [p].
Proof.
  rewrite groupByProtocol_lookup.
  destruct (decide (filter _ summaries = [])) as [H|H];
    rewrite filter_nil_iff_not_elem in H.
  - rewrite filter_cons_False by exact H. rewrite filter_nil, app_nil_r.
    reflexivity.
  - rewrite filter_cons_True by (destruct (decide (p ∈ map ProtocolName summaries));
                                 tauto).
    reflexivity.
Qed.

Lemma listProtocols_spec (summaries : list Summary) (protocols : list string) :
  listProtocols (groupByProtocol summaries) protocols
  = protocols ++ filter (fun p => p ∈ map ProtocolName summaries) protocolOrder.
Proof.
  unfold listProtocols, protocolOrder. cbn [foldl].
  rewrite !listProtocols_step, <- !app_assoc, <- !filter_app. reflexivity.
Qed.

(* ================================================================= *)
(** ** main.go: the whole run *)

(** The handles of the tested endpoints. *)
Definition clientsOf (config : Config) : list EndpointClient :=
  map (fun e => mkEndpointClient e (handleFor e (ConfigTimeout config)))
      (tested config).

Lemma measureRequest_succeeded
    (TrimSpace : string -> string) (ParseFloat : string -> option float)
    (client : Client) (url domain : string) (o : Outcome) :
  succeeded (measureRequest TrimSpace ParseFloat client url domain o) <->
  responded o = true.
Proof.
  unfold succeeded. destruct o as [err|err|ttfb reused resp]; simpl.
  - split; discriminate.
  - split; discriminate.
  - split; [reflexivity|]. intros _. destruct (originSeconds _ _ _); reflexivity.
Qed.

Lemma length_filter_map {A B} (f : A -> B) (P : B -> Prop) (Q : A -> Prop)
    `{!forall y, Decision (P y)} `{!forall x, Decision (Q x)} (l : list A) :
  (forall x, P (f x) <-> Q x) ->
  length (filter P (map f l)) = length (filter Q l).
Proof.
  intros HPQ. induction l as [|x l IH]; [reflexivity|]. simpl map.
  destruct (decide (Q x)) as [Hq|Hq].
  - rewrite (filter_cons_True Q) by exact Hq.
    rewrite filter_cons_True by (apply HPQ; exact Hq). simpl. rewrite IH.
    reflexivity.
  - rewrite (filter_cons_False Q) by exact Hq.
    rewrite filter_cons_False by (rewrite HPQ; exact Hq). exact IH.
Qed.

Lemma NoDup_map_reflect {A B C} (f : A -> B) (g : A -> C) (l : list A) :
  (forall x y, g x = g y -> f x = f y) -> NoDup (map f l) -> NoDup (map g l).
Proof.
  intros Hfg. induction l as [|x l IH]; simpl; [constructor|].
  rewrite !NoDup_cons. intros [Hx Hl]. split; [|apply IH, Hl].
  intros Hin. apply Hx. apply list_elem_of_fmap in Hin as (y & Hy & Hin).
  apply list_elem_of_fmap. exists y. split; [apply Hfg, Hy|exact Hin].
Qed.

Lemma Forall2_map_eq {A B C} (f : A -> C) (g : B -> C) (l : list A) (k : list B) :
  Forall2 (fun a b => g b = f a) l k -> map g k = map f l.
Proof. induction 1 as [|a b l k E _ IH]; simpl; [reflexivity|rewrite E, IH; reflexivity]. Qed.

Lemma summaries_exist (Float64s : list float -> list float)
    (Float64s_perm : forall l, Float64s l ≡ₚ l)
    (m : gmap string (list RequestResult)) (clients : list EndpointClient) :
  Forall (fun ec =>
            (Z.of_nat (length (resultsOf m (ec_Endpoint ec))) < 2 ^ 53)%Z)
         clients ->
  exists sums,
    Forall2 (fun ec s =>
               outcome (calculateSummary Float64s (ec_Endpoint ec)
                          (resultsOf m (ec_Endpoint ec))) = Some s)
            clients sums.
Proof.
  induction 1 as [|ec clients Hlen _ [sums IH]].
  - exists []. constructor.
  - destruct (calculateSummary_returns Float64s Float64s_perm (ec_Endpoint ec)
                _ Hlen) as (s & Hs & _).
    exists (s :: sums). constructor; assumption.
Qed.

(** The result slices can be made exactly when the test count is not
    negative or there is no handle to make one for. *)
Lemma allocations_succeed (clients : list EndpointClient) (capacity : Z) :
  (0 <= capacity)%Z ->
  is_Some (mapM (fun _ : EndpointClient => makeResultSlice capacity) clients).
Proof.
  intros Hc. apply mapM_is_Some. apply Forall_forall. intros ec _.
  unfold makeResultSlice. destruct (Z.ltb_spec capacity 0); [lia|eauto].
Qed.

Lemma allocations_panic (clients : list EndpointClient) (capacity : Z) :
  (capacity < 0)%Z -> clients <> [] ->
  mapM (fun _ : EndpointClient => makeResultSlice capacity) clients = None.
Proof.
  intros Hc Hne. destruct clients as [|ec clients]; [contradiction|].
  cbn. unfold makeResultSlice. destruct (Z.ltb_spec capacity 0); [reflexivity|lia].
Qed.

Section CampaignFacts.

Variable TrimSpace : string -> string.
Variable ParseFloat : string -> option float.
Variable Float64s : list float -> list float.
Hypothesis Float64s_perm : forall l, Float64s l ≡ₚ l.

(** The samples of the endpoint at position [j] of the tested ones: one
    per round, in round order. *)
Definition samplesAt (config : Config) (net : nat -> nat -> Outcome)
    (j : nat) (e : Endpoint) : list RequestResult :=
  map (fun round =>
         set_Index
           (measureRequest TrimSpace ParseFloat
              (handleFor e (ConfigTimeout config)) (requestURL config)
              (Domain config) (net round j))
           (Z.of_nat round))
      (seq 1 (Z.to_nat (TestCount config))).

Variable config : Config.
Variable net : nat -> nat -> Outcome.
Variable sched : nat -> list nat.

Let endpointResults :=
  runRounds TrimSpace ParseFloat (clientsOf config) (requestURL config)
    (Domain config) (TestCount config) net sched.

Hypothesis keys_distinct : NoDup (map resultKey (tested config)).
Hypothesis rounds_complete :
  forall round, sched round ≡ₚ seq 0 (length (tested config)).

Lemma campaign_results (j : nat) (e : Endpoint) :
  tested config !! j = Some e ->
  resultsOf endpointResults e = samplesAt config net j e.
Proof.
  intros Hj.
  set (ec := mkEndpointClient e (handleFor e (ConfigTimeout config))).
  assert (Hec : clientsOf config !! j = Some ec).
  { unfold clientsOf. rewrite list_lookup_fmap, Hj. reflexivity. }
  assert (Hnd : NoDup (map (fun ec => resultKey (ec_Endpoint ec)) (clientsOf config))).
  { unfold clientsOf. rewrite map_map. exact keys_distinct. }
  assert (Hperm : forall round, sched round ≡ₚ seq 0 (length (clientsOf config))).
  { intros round. unfold clientsOf. rewrite length_map. apply rounds_complete. }
  pose proof (runRounds_lookup TrimSpace ParseFloat (clientsOf config)
                (requestURL config) (Domain config) net sched
                (Z.to_nat (TestCount config)) j ec Hnd Hperm Hec) as H.
  subst ec. cbn [ec_Endpoint] in H.
  unfold resultsOf, endpointResults, runRounds. rewrite H. reflexivity.
Qed.

Lemma campaign_summaries_exist :
  (TestCount config < 2 ^ 53)%Z ->
  exists sums,
    Forall2 (fun ec s =>
               outcome (calculateSummary Float64s (ec_Endpoint ec)
                          (resultsOf endpointResults (ec_Endpoint ec))) = Some s)
            (clientsOf config) sums.
Proof.
  intros Hn.
  assert (Hall : Forall (fun ec =>
            (Z.of_nat (length (resultsOf endpointResults (ec_Endpoint ec)))
             < 2 ^ 53)%Z) (clientsOf config)).
  { apply Forall_lookup_2. intros j ec Hec. unfold clientsOf in Hec.
    rewrite list_lookup_fmap in Hec.
    destruct (tested config !! j) as [e|] eqn:Hj; [|discriminate].
    injection Hec as <-. cbn [ec_Endpoint].
    rewrite (campaign_results j e Hj). unfold samplesAt.
    rewrite length_map, length_seq. lia. }
  exact (summaries_exist Float64s Float64s_perm _ _ Hall).
Qed.

(** [runTests] returns; its report is the one [Finalize] makes of the
    filed results and of the summaries of the tested endpoints. *)
Lemma runTests_spec :
  (0 <= TestCount config < 2 ^ 53)%Z ->
  exists sums,
    outcome (runTests TrimSpace ParseFloat Float64s config net sched)
    = Some (Finalize (fileResults endpointResults (NewTestReport config)
                        (clientsOf config)) sums) /\
    Forall2 (fun ec s =>
               outcome (calculateSummary Float64s (ec_Endpoint ec)
                          (resultsOf endpointResults (ec_Endpoint ec))) = Some s)
            (clientsOf config) sums.
Proof.
  intros Hn. destruct (campaign_summaries_exist ltac:(lia)) as [sums Hsums].
  exists sums. split; [|exact Hsums].
  unfold runTests. rewrite buildClients_spec. cbn [fst]. fold (tested config).
  fold (clientsOf config). fold endpointResults.
  destruct (allocations_succeed (clientsOf config) (TestCount config)
              ltac:(lia)) as [slices Hslices].
  pose proof (summarize_fold Float64s endpointResults (clientsOf config)
                (mret (NewTestReport config, [])) (NewTestReport config) [] sums
                eq_refl Hsums) as H.
  unfold mbind at 1 2, Exec_bind, checked. rewrite Hslices. cbn [outcome].
  rewrite H. reflexivity.
Qed.

End CampaignFacts.

(** X13: with distinct keys an endpoint's result sequence is a function
    of the outcomes of its own probes alone.  It does not depend on what
    happens to the requests of the other endpoints, nor on the order in
    which the probes of a round complete. *)
Theorem results_depend_on_own_probes_only
    (TrimSpace : string -> string) (ParseFloat : string -> option float)
    (clients : list EndpointClient) (url domain : string) (TestCount : Z)
    (net net' : nat -> nat -> Outcome) (sched sched' : nat -> list nat)
    (j : nat) (ec : EndpointClient) :
  (0 <= TestCount)%Z ->
  NoDup (map (fun ec => resultKey (ec_Endpoint ec)) clients) ->
  (forall round, sched round ≡ₚ seq 0 (length clients)) ->
  (forall round, sched' round ≡ₚ seq 0 (length clients)) ->
  clients !! j = Some ec ->
  (forall round, (1 <= round <= Z.to_nat TestCount)%nat ->
                 net round j = net' round j) ->
  resultsOf (runRounds TrimSpace ParseFloat clients url domain TestCount
               net sched) (ec_Endpoint ec)
  = resultsOf (runRounds TrimSpace ParseFloat clients url domain TestCount
                 net' sched') (ec_Endpoint ec).
Proof.
  intros _ Hnd Hperm Hperm' Hj Hnet. unfold resultsOf, runRounds.
  rewrite (runRounds_lookup TrimSpace ParseFloat clients url domain net sched
             (Z.to_nat TestCount) j ec Hnd Hperm Hj).
  rewrite (runRounds_lookup TrimSpace ParseFloat clients url domain net' sched'
             (Z.to_nat TestCount) j ec Hnd Hperm' Hj).
  simpl. apply map_ext_in. intros round Hin. apply in_seq in Hin.
  unfold sampleOf. rewrite Hnet by lia. reflexivity.
Qed.

Lemma results_depend_on_own_probes_only_witness :
  resultsOf (runRounds trimSpace parseDecimal exampleClients
               "https://cdn.example.com/" "cdn.example.com" 5%Z
               (fun _ => exampleNet) (fun _ => [1; 0]%nat))
            {| IP := "203.0.113.8"; EndpointProtocol := HTTP2; Name := "edge-b" |}
  = resultsOf (runRounds trimSpace parseDecimal exampleClients
                 "https://cdn.example.com/" "cdn.example.com" 5%Z
                 (fun _ j => if (j =? 1)%nat then exampleNet 1%nat
                             else DoFailed "connection refused")
                 (fun _ => [0; 1]%nat))
              {| IP := "203.0.113.8"; EndpointProtocol := HTTP2; Name := "edge-b" |}.
Proof.
  refine (results_depend_on_own_probes_only trimSpace parseDecimal exampleClients
            "https://cdn.example.com/" "cdn.example.com" 5%Z
            (fun _ => exampleNet)
            (fun _ j => if (j =? 1)%nat then exampleNet 1%nat
                        else DoFailed "connection refused")
            (fun _ => [1; 0]%nat) (fun _ => [0; 1]%nat) 1%nat
            {| ec_Endpoint := {| IP := "203.0.113.8"; EndpointProtocol := HTTP2;
                                 Name := "edge-b" |};
               ec_Client := createHTTP2Client "203.0.113.8" Second |} _ _ _ _ _ _).
  - discriminate.
  - apply (bool_decide_unpack _). vm_compute. reflexivity.
  - intros round. simpl. apply Permutation_swap.
  - intros round. simpl. reflexivity.
  - reflexivity.
  - intros round _. reflexivity.
Defined.

(** A network for the example configuration: the first endpoint answers
    with an origin time in every round, the second one answers without
    the header and fails in round 2. *)
Definition exampleOutcomes (round j : nat) : Outcome :=
  if (j =? 0)%nat then
    DoReturned (Z.of_nat round * 100000000)%Z false
               (originResponse 200 "HTTP/2.0" "0.05s")
  else if (round =? 2)%nat then DoFailed "context deadline exceeded"
  else DoReturned (Z.of_nat round * 90000000)%Z true (plainResponse 200 "HTTP/1.1").

Definition exampleSchedule (round : nat) : list nat := [1; 0]%nat.

(** X14: for a configuration whose tested endpoints have distinct keys
    and whose test count is between 0 and 2^53, the run returns a report
    with one summary per tested endpoint, in configuration order,
    carrying the endpoint's name and protocol name; every summary counts
    as many tests as the configuration asks rounds, split into successes
    and failures. *)
Theorem one_summary_per_tested_endpoint
    (TrimSpace : string -> string) (ParseFloat : string -> option float)
    (Float64s : list float -> list float)
    (config : Config) (net : nat -> nat -> Outcome) (sched : nat -> list nat) :
  (forall l, Float64s l ≡ₚ l) ->
  NoDup (map resultKey (tested config)) ->
  (forall round, sched round ≡ₚ seq 0 (length (tested config))) ->
  (0 <= TestCount config < 2 ^ 53)%Z ->
  exists report,
    outcome (runTests TrimSpace ParseFloat Float64s config net sched)
    = Some report /\
    map EndpointName (Summaries report) = map Name (tested config) /\
    map ProtocolName (Summaries report)
    = map (fun e => Protocol_String (EndpointProtocol e)) (tested config) /\
    Forall (fun s => TotalTests s = TestCount config /\
                     (SuccessCount s + FailCount s = TotalTests s)%Z /\
                     (0 <= SuccessCount s)%Z /\ (0 <= FailCount s)%Z)
           (Summaries report).
Proof.
  intros Hperm Hnd Hsched Hn.
  destruct (runTests_spec TrimSpace ParseFloat Float64s Hperm config net sched
              Hnd Hsched Hn) as (sums & Hout & Hall).
  eexists. split; [exact Hout|]. cbn [Finalize Summaries].
  split; [|split].
  - rewrite (Forall2_map_eq (fun ec => Name (ec_Endpoint ec)) EndpointName
               (clientsOf config) sums).
    + unfold clientsOf. rewrite map_map. reflexivity.
    + eapply Forall2_impl; [exact Hall|]. cbv beta. intros ec s Hs.
      apply (calculateSummary_names _ _ _ _ Hs).
  - rewrite (Forall2_map_eq
               (fun ec => Protocol_String (EndpointProtocol (ec_Endpoint ec)))
               ProtocolName (clientsOf config) sums).
    + unfold clientsOf. rewrite map_map. reflexivity.
    + eapply Forall2_impl; [exact Hall|]. cbv beta. intros ec s Hs.
      apply (calculateSummary_names _ _ _ _ Hs).
  - apply Forall_lookup_2. intros i s Hi.
    destruct (Forall2_lookup_r _ _ _ _ _ Hall Hi) as (ec & Hec & Hs).
    unfold clientsOf in Hec. rewrite list_lookup_fmap in Hec.
    destruct (tested config !! i) as [e|] eqn:He; [|discriminate].
    injection Hec as <-. cbn [ec_Endpoint] in Hs.
    rewrite (campaign_results TrimSpace ParseFloat config net sched Hnd Hsched
               i e He) in Hs.
    assert (Hlen : length (samplesAt TrimSpace ParseFloat config net i e)
                   = Z.to_nat (TestCount config))
      by (unfold samplesAt; rewrite length_map, length_seq; reflexivity).
    destruct (calculateSummary_returns Float64s Hperm e
                (samplesAt TrimSpace ParseFloat config net i e)
                ltac:(rewrite Hlen; lia))
      as (s' & Hs' & _ & Hsc & Hfc & Htot).
    rewrite Hs in Hs'. injection Hs' as <-.
    destruct (tally_totals (samplesAt TrimSpace ParseFloat config net i e))
      as (Hsucc & Hsum & Hfail).
    rewrite Htot, Hsc, Hfc, Hlen in *. repeat split; lia.
Qed.

Lemma one_summary_per_tested_endpoint_witness :
  exists report,
    outcome (runTests trimSpace parseDecimal sortFloat64s exampleConfig
               exampleOutcomes exampleSchedule)
    = Some report /\
    map EndpointName (Summaries report) = map Name (tested exampleConfig) /\
    map ProtocolName (Summaries report)
    = map (fun e => Protocol_String (EndpointProtocol e)) (tested exampleConfig) /\
    Forall (fun s => TotalTests s = TestCount exampleConfig /\
                     (SuccessCount s + FailCount s = TotalTests s)%Z /\
                     (0 <= SuccessCount s)%Z /\ (0 <= FailCount s)%Z)
           (Summaries report).
Proof.
  refine (one_summary_per_tested_endpoint trimSpace parseDecimal sortFloat64s
            exampleConfig exampleOutcomes exampleSchedule sortFloat64s_perm _ _ _).
  - apply (bool_decide_unpack _). vm_compute. reflexivity.
  - intros round. apply Permutation_swap.
  - split; [discriminate|reflexivity].
Defined.

(** X15: under the same conditions the report files, under each tested
    endpoint's display name, that endpoint's own samples, one per round
    in round order, and it has no other entry. *)
Theorem report_files_own_samples
    (TrimSpace : string -> string) (ParseFloat : string -> option float)
    (Float64s : list float -> list float)
    (config : Config) (net : nat -> nat -> Outcome) (sched : nat -> list nat) :
  (forall l, Float64s l ≡ₚ l) ->
  NoDup (map resultKey (tested config)) ->
  (forall round, sched round ≡ₚ seq 0 (length (tested config))) ->
  (0 <= TestCount config < 2 ^ 53)%Z ->
  exists report,
    outcome (runTests TrimSpace ParseFloat Float64s config net sched)
    = Some report /\
    (forall j e, tested config !! j = Some e ->
       ReportResults report !! reportKey e
       = Some (samplesAt TrimSpace ParseFloat config net j e)) /\
    (forall k, is_Some (ReportResults report !! k) ->
       k ∈ map reportKey (tested config)).
Proof.
  intros Hperm Hnd Hsched Hn.
  destruct (runTests_spec TrimSpace ParseFloat Float64s Hperm config net sched
              Hnd Hsched Hn) as (sums & Hout & _).
  eexists. split; [exact Hout|]. cbn [Finalize ReportResults].
  set (m := runRounds _ _ _ _ _ _ _ _).
  assert (Hndr : NoDup (map (fun ec => reportKey (ec_Endpoint ec))
                          (clientsOf config))).
  { unfold clientsOf. rewrite map_map. cbn [ec_Endpoint].
    apply (NoDup_map_reflect resultKey reportKey); [|exact Hnd].
    intros x y E. apply resultKey_inj. apply reportKey_inj. exact E. }
  split.
  - intros j e Hj. rewrite fileResults_lookup by exact Hndr.
    destruct (list_find _ (clientsOf config)) as [[i ec]|] eqn:Hf.
    + apply list_find_Some in Hf as (Hi & Hk & _).
      unfold clientsOf in Hi. rewrite list_lookup_fmap in Hi.
      destruct (tested config !! i) as [e'|] eqn:He'; [|discriminate].
      injection Hi as <-. cbn [ec_Endpoint] in *.
      assert (Hij : i = j).
      { apply (NoDup_lookup (map resultKey (tested config)) i j (resultKey e) Hnd).
        - rewrite list_lookup_fmap, He'. simpl. f_equal.
          apply resultKey_inj. apply reportKey_inj. exact Hk.
        - rewrite list_lookup_fmap, Hj. reflexivity. }
      subst i. rewrite Hj in He'. injection He' as <-.
      f_equal. apply (campaign_results TrimSpace ParseFloat config net sched
                        Hnd Hsched j e Hj).
    + apply list_find_None in Hf. rewrite Forall_forall in Hf.
      exfalso.
      apply (Hf (mkEndpointClient e (handleFor e (ConfigTimeout config))));
        [|reflexivity].
      unfold clientsOf.
      apply (list_elem_of_fmap_2
               (fun e => mkEndpointClient e (handleFor e (ConfigTimeout config)))).
      eapply list_elem_of_lookup_2. exact Hj.
  - intros k [rs Hk]. rewrite fileResults_lookup in Hk by exact Hndr.
    destruct (list_find _ (clientsOf config)) as [[i ec]|] eqn:Hf.
    + apply list_find_Some in Hf as (Hi & <- & _).
      unfold clientsOf in Hi. rewrite list_lookup_fmap in Hi.
      destruct (tested config !! i) as [e'|] eqn:He'; [|discriminate].
      injection Hi as <-. cbn [ec_Endpoint].
      apply list_elem_of_fmap_2. eapply list_elem_of_lookup_2. exact He'.
    + simpl in Hk. rewrite lookup_empty in Hk. discriminate.
Qed.

Lemma report_files_own_samples_witness :
  exists report,
    outcome (runTests trimSpace parseDecimal sortFloat64s exampleConfig
               exampleOutcomes exampleSchedule)
    = Some report /\
    (forall j e, tested exampleConfig !! j = Some e ->
       ReportResults report !! reportKey e
       = Some (samplesAt trimSpace parseDecimal exampleConfig exampleOutcomes j e)) /\
    (forall k, is_Some (ReportResults report !! k) ->
       k ∈ map reportKey (tested exampleConfig)).
Proof.
  refine (report_files_own_samples trimSpace parseDecimal sortFloat64s
            exampleConfig exampleOutcomes exampleSchedule sortFloat64s_perm _ _ _).
  - apply (bool_decide_unpack _). vm_compute. reflexivity.
  - intros round. apply Permutation_swap.
  - split; [discriminate|reflexivity].
Defined.

(** X16: in a run as above the summary of the endpoint at position [j]
    counts as successes exactly the rounds in which that endpoint's
    request came back with a response, whatever its status code. *)
Theorem success_count_counts_responses
    (TrimSpace : string -> string) (ParseFloat : string -> option float)
    (Float64s : list float -> list float)
    (config : Config) (net : nat -> nat -> Outcome) (sched : nat -> list nat)
    (j : nat) (e : Endpoint) :
  (forall l, Float64s l ≡ₚ l) ->
  NoDup (map resultKey (tested config)) ->
  (forall round, sched round ≡ₚ seq 0 (length (tested config))) ->
  (0 <= TestCount config < 2 ^ 53)%Z ->
  tested config !! j = Some e ->
  exists report s,
    outcome (runTests TrimSpace ParseFloat Float64s config net sched)
    = Some report /\
    Summaries report !! j = Some s /\
    EndpointName s = Name e /\
    SuccessCount s
    = Z.of_nat (length (filter (fun round => responded (net round j) = true)
                               (seq 1 (Z.to_nat (TestCount config))))).
Proof.
  intros Hperm Hnd Hsched Hn Hj.
  destruct (runTests_spec TrimSpace ParseFloat Float64s Hperm config net sched
              Hnd Hsched Hn) as (sums & Hout & Hall).
  assert (Hec : clientsOf config !! j
                = Some (mkEndpointClient e (handleFor e (ConfigTimeout config)))).
  { unfold clientsOf. rewrite list_lookup_fmap, Hj. reflexivity. }
  destruct (Forall2_lookup_l _ _ _ _ _ Hall Hec) as (s & Hs & Hsum).
  cbn [ec_Endpoint] in Hsum.
  rewrite (campaign_results TrimSpace ParseFloat config net sched Hnd Hsched
             j e Hj) in Hsum.
  eexists _, s. split; [exact Hout|]. cbn [Finalize Summaries].
  split; [exact Hs|].
  split; [apply (calculateSummary_names _ _ _ _ Hsum)|].
  assert (Hlen : length (samplesAt TrimSpace ParseFloat config net j e)
                 = Z.to_nat (TestCount config))
    by (unfold samplesAt; rewrite length_map, length_seq; reflexivity).
  destruct (calculateSummary_returns Float64s Hperm e
              (samplesAt TrimSpace ParseFloat config net j e)
              ltac:(rewrite Hlen; lia))
    as (s' & Hs' & _ & Hsc & _).
  rewrite Hsum in Hs'. injection Hs' as <-.
  destruct (tally_totals (samplesAt TrimSpace ParseFloat config net j e))
    as (Hsucc & _).
  rewrite Hsc, Hsucc. f_equal.
  unfold samplesAt. apply length_filter_map. intros round.
  rewrite <- (measureRequest_succeeded TrimSpace ParseFloat
                (handleFor e (ConfigTimeout config)) (requestURL config)
                (Domain config)).
  reflexivity.
Qed.

Lemma success_count_counts_responses_witness :
  exists report s,
    outcome (runTests trimSpace parseDecimal sortFloat64s exampleConfig
               exampleOutcomes exampleSchedule)
    = Some report /\
    Summaries report !! 1%nat = Some s /\
    EndpointName s = "edge-b"%string /\
    SuccessCount s
    = Z.of_nat (length (filter (fun round => responded (exampleOutcomes round 1) = true)
                               (seq 1 (Z.to_nat (TestCount exampleConfig))))).
Proof.
  refine (success_count_counts_responses trimSpace parseDecimal sortFloat64s
            exampleConfig exampleOutcomes exampleSchedule 1%nat
            {| IP := "203.0.113.8"; EndpointProtocol := HTTP1; Name := "edge-b" |}
            sortFloat64s_perm _ _ _ _).
  - apply (bool_decide_unpack _). vm_compute. reflexivity.
  - intros round. apply Permutation_swap.
  - split; [discriminate|reflexivity].
  - reflexivity.
Defined.

(** *** [Finalize] *)

(** X17: [Finalize] keeps the summaries as given and groups them by
    protocol name, each group in the order of the summaries; the
    protocol list gains, after what it already held, those of "HTTP/3",
    "HTTP/2", "HTTP/1.1" that have a summary, in this order.  A summary
    with any other protocol name is grouped but its group is not
    listed.  The filed results are left as they are. *)
Theorem Finalize_groups_by_protocol
    (r : TestReport) (summaries : list Summary) (p : string) :
  let r' := Finalize r summaries in
  Summaries r' = summaries /\
  SummariesByProtocol r' !! p
  = (if decide (p ∈ map ProtocolName summaries)
     then Some (filter (fun s => ProtocolName s = p) summaries)
     else None) /\
  Protocols r'
  = Protocols r ++ filter (fun p => p ∈ map ProtocolName summaries) protocolOrder /\
  ReportResults r' = ReportResults r.
Proof.
  cbv zeta. cbn [Finalize Summaries SummariesByProtocol Protocols ReportResults].
  split; [reflexivity|]. split; [|split; [apply listProtocols_spec|reflexivity]].
  rewrite groupByProtocol_lookup.
  destruct (decide (filter _ summaries = [])) as [H|H];
    rewrite filter_nil_iff_not_elem in H.
  - rewrite decide_False by exact H. reflexivity.
  - rewrite decide_True; [reflexivity|].
    destruct (decide (p ∈ map ProtocolName summaries)); tauto.
Qed.

(** X18: in the report of a run every summary is shown, and nothing
    else is.  The protocol list is the selection, from HTTP/3, HTTP/2,
    HTTP/1.1 in this order, of the protocols that have a summary: it
    has no repetition, a protocol is listed exactly when some summary
    has it, the group of a listed protocol holds the summaries of that
    protocol in their order and is not empty, and every summary is
    found in the group of its protocol. *)
Theorem every_summary_is_listed
    (TrimSpace : string -> string) (ParseFloat : string -> option float)
    (Float64s : list float -> list float)
    (config : Config) (net : nat -> nat -> Outcome) (sched : nat -> list nat) :
  (forall l, Float64s l ≡ₚ l) ->
  NoDup (map resultKey (tested config)) ->
  (forall round, sched round ≡ₚ seq 0 (length (tested config))) ->
  (0 <= TestCount config < 2 ^ 53)%Z ->
  exists report,
    outcome (runTests TrimSpace ParseFloat Float64s config net sched)
    = Some report /\
    NoDup (Protocols report) /\
    Protocols report `sublist_of` protocolOrder /\
    Protocols report
    = filter (fun p => p ∈ map ProtocolName (Summaries report)) protocolOrder /\
    (forall p, p ∈ Protocols report <->
               exists s, s ∈ Summaries report /\ ProtocolName s = p) /\
    (forall p, p ∈ Protocols report ->
               exists group,
                 SummariesByProtocol report !! p = Some group /\
                 group = filter (fun s => ProtocolName s = p) (Summaries report) /\
                 group <> []) /\
    Forall (fun s =>
              ProtocolName s ∈ Protocols report /\
              exists group,
                SummariesByProtocol report !! ProtocolName s = Some group /\
                s ∈ group)
           (Summaries report).
Proof.
  intros Hperm Hnd Hsched Hn.
  destruct (runTests_spec TrimSpace ParseFloat Float64s Hperm config net sched
              Hnd Hsched Hn) as (sums & Hout & Hall).
  eexists. split; [exact Hout|].
  cbn [Finalize Summaries SummariesByProtocol Protocols].
  rewrite listProtocols_spec.
  destruct (fileResults_config
              (runRounds TrimSpace ParseFloat (clientsOf config)
                 (requestURL config) (Domain config) (TestCount config) net sched)
              (NewTestReport config) (clientsOf config)) as [-> _].
  cbn [NewTestReport Protocols app].
  assert (Hord : forall s, s ∈ sums -> ProtocolName s ∈ protocolOrder).
  { intros s Hin. apply list_elem_of_lookup_1 in Hin as [i Hi].
    destruct (Forall2_lookup_r _ _ _ _ _ Hall Hi) as (ec & Hec & Hs).
    destruct (calculateSummary_names _ _ _ _ Hs) as [_ Hp].
    assert (Hsup : supported (EndpointProtocol (ec_Endpoint ec))).
    { unfold clientsOf in Hec. rewrite list_lookup_fmap in Hec.
      destruct (tested config !! i) as [e|] eqn:He; [|discriminate].
      injection Hec as <-. cbn [ec_Endpoint].
      apply list_elem_of_lookup_2 in He. unfold tested in He.
      apply list_elem_of_filter in He as [He _]. exact He. }
    rewrite Hp. unfold protocolOrder.
    destruct Hsup as [->|[->| ->]]; simpl;
      repeat first [apply list_elem_of_here|apply list_elem_of_further]. }
  assert (Hlisted : forall s, s ∈ sums ->
            ProtocolName s
            ∈ filter (fun p => p ∈ map ProtocolName sums) protocolOrder).
  { intros s Hin. apply list_elem_of_filter. split.
    - apply list_elem_of_fmap_2. exact Hin.
    - apply Hord. exact Hin. }
  assert (Hgroup : forall s, s ∈ sums ->
            groupByProtocol sums !! ProtocolName s
            = Some (filter (fun s' => ProtocolName s' = ProtocolName s) sums) /\
            s ∈ filter (fun s' => ProtocolName s' = ProtocolName s) sums).
  { intros s Hin.
    assert (Hf : s ∈ filter (fun s' => ProtocolName s' = ProtocolName s) sums)
      by (apply list_elem_of_filter; auto).
    split; [|exact Hf].
    rewrite groupByProtocol_lookup.
    destruct (decide (filter _ sums = [])) as [E|_]; [|reflexivity].
    rewrite E in Hf. apply elem_of_nil in Hf. contradiction. }
  split; [|split; [|split; [|split; [|split]]]].
  - apply NoDup_filter. apply (bool_decide_unpack _). vm_compute. reflexivity.
  - apply sublist_filter.
  - reflexivity.
  - intros p. split.
    + intros Hp. apply list_elem_of_filter in Hp as [Hp _].
      apply list_elem_of_fmap in Hp as (s & -> & Hs). exists s. auto.
    + intros (s & Hs & <-). apply Hlisted. exact Hs.
  - intros p Hp. apply list_elem_of_filter in Hp as [Hp _].
    apply list_elem_of_fmap in Hp as (s & -> & Hs).
    destruct (Hgroup s Hs) as [Hg Hf].
    eexists. split; [exact Hg|]. split; [reflexivity|].
    intros E. rewrite E in Hf. apply elem_of_nil in Hf. contradiction.
  - apply Forall_forall. intros s Hin. split; [apply Hlisted; exact Hin|].
    destruct (Hgroup s Hin) as [Hg Hf]. eexists. split; [exact Hg|exact Hf].
Qed.

Lemma every_summary_is_listed_witness :
  exists report,
    outcome (runTests trimSpace parseDecimal sortFloat64s exampleConfig
               exampleOutcomes exampleSchedule)
    = Some report /\
    NoDup (Protocols report) /\
    Protocols report `sublist_of` protocolOrder /\
    Protocols report
    = filter (fun p => p ∈ map ProtocolName (Summaries report)) protocolOrder /\
    (forall p, p ∈ Protocols report <->
               exists s, s ∈ Summaries report /\ ProtocolName s = p) /\
    (forall p, p ∈ Protocols report ->
               exists group,
                 SummariesByProtocol report !! p = Some group /\
                 group = filter (fun s => ProtocolName s = p) (Summaries report) /\
                 group <> []) /\
    Forall (fun s =>
              ProtocolName s ∈ Protocols report /\
              exists group,
                SummariesByProtocol report !! ProtocolName s = Some group /\
                s ∈ group)
           (Summaries report).
Proof.
  refine (every_summary_is_listed trimSpace parseDecimal sortFloat64s
            exampleConfig exampleOutcomes exampleSchedule sortFloat64s_perm _ _ _).
  - apply (bool_decide_unpack _). vm_compute. reflexivity.
  - intros round. apply Permutation_swap.
  - split; [discriminate|reflexivity].
Defined.

(** *** A test count that asks for no round *)

Lemma fileResults_empty (m : gmap string (list RequestResult))
    (r0 : TestReport) (clients : list EndpointClient) :
  (forall e, resultsOf m e = []) ->
  (forall k rs, ReportResults r0 !! k = Some rs -> rs = []) ->
  forall k rs, ReportResults (fileResults m r0 clients) !! k = Some rs -> rs = [].
Proof.
  intros Hm. revert r0.
  induction clients as [|ec clients IH]; intros r0 Hr0; [exact Hr0|].
  rewrite fileResults_cons. apply IH. intros k rs.
  cbn [AddResults ReportResults].
  destruct (decide (reportKey (ec_Endpoint ec) = k)) as [->|E].
  - rewrite lookup_insert_eq, Hm. congruence.
  - rewrite lookup_insert_ne by exact E. apply Hr0.
Qed.

(** X19: a test count of zero is not rejected.  The run makes no
    request and returns a report in which every tested endpoint has an
    empty result sequence and the summary of no sample: zero tests,
    zero successes, zero failures and zero in every statistic. *)
Theorem no_rounds_gives_empty_report
    (TrimSpace : string -> string) (ParseFloat : string -> option float)
    (Float64s : list float -> list float)
    (config : Config) (net : nat -> nat -> Outcome) (sched : nat -> list nat) :
  TestCount config = 0%Z ->
  exists report,
    outcome (runTests TrimSpace ParseFloat Float64s config net sched)
    = Some report /\
    Summaries report
    = map (fun e => countsOnly e 0 (tally [])) (tested config) /\
    (forall k rs, ReportResults report !! k = Some rs -> rs = []) /\
    Forall (fun s => TotalTests s = 0%Z /\ SuccessCount s = 0%Z /\
                     FailCount s = 0%Z /\ HasCDN s = false)
           (Summaries report).
Proof.
  intros Hn. unfold runTests. rewrite buildClients_spec. cbn [fst].
  fold (tested config). fold (clientsOf config).
  destruct (allocations_succeed (clientsOf config) (TestCount config)
              ltac:(lia)) as [slices Hslices].
  unfold runRounds. replace (Z.to_nat (TestCount config)) with 0%nat by lia.
  cbn [seq foldl].
  set (m := initResults (clientsOf config)).
  assert (Hm : forall e, resultsOf m e = []).
  { intros e. unfold resultsOf.
    destruct (m !! resultKey e) as [v|] eqn:E; [|reflexivity].
    simpl. exact (initResults_values _ _ _ E). }
  set (sums := map (fun e => countsOnly e 0 (tally [])) (tested config)).
  assert (Hall : Forall2 (fun ec s =>
            outcome (calculateSummary Float64s (ec_Endpoint ec)
                       (resultsOf m (ec_Endpoint ec))) = Some s)
          (clientsOf config) sums).
  { subst sums. unfold clientsOf. apply Forall2_fmap.
    apply Forall_Forall2_diag. apply Forall_forall. intros e _.
    cbn [ec_Endpoint]. rewrite Hm. reflexivity. }
  pose proof (summarize_fold Float64s m (clientsOf config)
                (mret (NewTestReport config, [])) (NewTestReport config) [] sums
                eq_refl Hall) as H.
  unfold mbind at 1 2, Exec_bind, checked. rewrite Hslices. cbn [outcome].
  rewrite H. cbn [outcome mret Exec_ret app].
  eexists. split; [reflexivity|]. cbn [Finalize Summaries ReportResults].
  split; [reflexivity|]. split.
  - apply fileResults_empty; [exact Hm|].
    intros k rs. cbn [NewTestReport ReportResults]. rewrite lookup_empty.
    discriminate.
  - subst sums. apply Forall_forall. intros s Hs.
    apply list_elem_of_fmap in Hs as (e & -> & _). repeat split.
Qed.

(** The example configuration with a test count of zero. *)
Definition idleConfig : Config :=
  {| Domain := Domain exampleConfig; Path := Path exampleConfig;
     TestCount := 0%Z;
     ConfigTimeout := ConfigTimeout exampleConfig;
     Interval := Interval exampleConfig;
     Endpoints := Endpoints exampleConfig;
     OutputDir := OutputDir exampleConfig; EnableLog := EnableLog exampleConfig;
     EnableJSON := EnableJSON exampleConfig;
     EnableHTML := EnableHTML exampleConfig |}.

Lemma no_rounds_gives_empty_report_witness :
  exists report,
    outcome (runTests trimSpace parseDecimal sortFloat64s idleConfig
               exampleOutcomes exampleSchedule)
    = Some report /\
    Summaries report
    = map (fun e => countsOnly e 0 (tally [])) (tested idleConfig) /\
    (forall k rs, ReportResults report !! k = Some rs -> rs = []) /\
    Forall (fun s => TotalTests s = 0%Z /\ SuccessCount s = 0%Z /\
                     FailCount s = 0%Z /\ HasCDN s = false)
           (Summaries report).
Proof.
  apply (no_rounds_gives_empty_report trimSpace parseDecimal sortFloat64s
           idleConfig exampleOutcomes exampleSchedule).
  reflexivity.
Defined.

(** X28: a negative test count, which [LoadConfig] lets through, makes
    the run panic as soon as it makes the first result slice, before any
    request is sent; only when no endpoint is tested does the run
    return, with the empty report. *)
Theorem negative_test_count_panics
    (TrimSpace : string -> string) (ParseFloat : string -> option float)
    (Float64s : list float -> list float)
    (config : Config) (net : nat -> nat -> Outcome) (sched : nat -> list nat) :
  (TestCount config < 0)%Z ->
  outcome (runTests TrimSpace ParseFloat Float64s config net sched)
  = (if decide (tested config = [])
     then Some (Finalize (NewTestReport config) [])
     else None) /\
  divisors (runTests TrimSpace ParseFloat Float64s config net sched) = [].
Proof.
  intros Hn. unfold runTests. rewrite buildClients_spec. cbn [fst].
  fold (tested config). fold (clientsOf config).
  destruct (decide (tested config = [])) as [E|E].
  - unfold clientsOf. rewrite E. split; reflexivity.
  - rewrite allocations_panic; [split; reflexivity|exact Hn|].
    unfold clientsOf. intros H. apply fmap_nil_inv in H. contradiction.
Qed.

(** The example configuration with a test count of -1. *)
Definition negativeConfig : Config :=
  {| Domain := Domain exampleConfig; Path := Path exampleConfig;
     TestCount := (-1)%Z;
     ConfigTimeout := ConfigTimeout exampleConfig;
     Interval := Interval exampleConfig;
     Endpoints := Endpoints exampleConfig;
     OutputDir := OutputDir exampleConfig; EnableLog := EnableLog exampleConfig;
     EnableJSON := EnableJSON exampleConfig;
     EnableHTML := EnableHTML exampleConfig |}.

Lemma negative_test_count_panics_witness :
  outcome (runTests trimSpace parseDecimal sortFloat64s negativeConfig
             exampleOutcomes exampleSchedule)
  = (if decide (tested negativeConfig = [])
     then Some (Finalize (NewTestReport negativeConfig) [])
     else None) /\
  divisors (runTests trimSpace parseDecimal sortFloat64s negativeConfig
              exampleOutcomes exampleSchedule) = [].
Proof.
  apply (negative_test_count_panics trimSpace parseDecimal sortFloat64s
           negativeConfig exampleOutcomes exampleSchedule).
  reflexivity.
Defined.

(* ================================================================= *)
(** ** exporter.go: the template functions *)

(** The classes from best to worst. *)
Definition perfRank (class : string) : nat :=
  if String.eqb class "perf-excellent" then 0
  else if String.eqb class "perf-good" then 1
  else if String.eqb class "perf-fair" then 2
  else 3.

(** Close a case in which a value is below a threshold and not below a
    greater one. *)
Ltac absurd_thresholds :=
  exfalso;
  match goal with
  | H1 : (?x <? ?t1)%float = true, H2 : (?x <? ?t2)%float = false |- _ =>
      rewrite (ltb_trans x t1 t2 H1 eq_refl) in H2; discriminate H2
  end.

Ltac absurd_order Hab :=
  exfalso;
  match goal with
  | H1 : (?b <? ?t)%float = true, H2 : (?a <? ?t)%float = false |- _ =>
      rewrite (leb_ltb_trans a b t Hab H1) in H2; discriminate H2
  end.

(** X20: both class functions are monotone: a larger value never gets
    a better class than a smaller one. *)
Theorem performance_class_is_monotone (a b : float) :
  (a <=? b)%float = true ->
  (perfRank (perfClass a) <= perfRank (perfClass b))%nat /\
  (perfRank (cdnPerfClass a) <= perfRank (cdnPerfClass b))%nat.
Proof.
  intros Hab. unfold perfClass, cdnPerfClass. split.
  - destruct (a <? 100)%float eqn:A1, (a <? 300)%float eqn:A2,
             (a <? 500)%float eqn:A3, (b <? 100)%float eqn:B1,
             (b <? 300)%float eqn:B2, (b <? 500)%float eqn:B3;
      first [solve [vm_compute; lia] | absurd_order Hab | absurd_thresholds].
  - destruct (a <? 50)%float eqn:A1, (a <? 150)%float eqn:A2,
             (a <? 300)%float eqn:A3, (b <? 50)%float eqn:B1,
             (b <? 150)%float eqn:B2, (b <? 300)%float eqn:B3;
      first [solve [vm_compute; lia] | absurd_order Hab | absurd_thresholds].
Qed.

Lemma performance_class_is_monotone_witness :
  (perfRank (perfClass 99.5) <= perfRank (perfClass 300))%nat /\
  (perfRank (cdnPerfClass 99.5) <= perfRank (cdnPerfClass 300))%nat.
Proof. apply (performance_class_is_monotone 99.5 300). reflexivity. Defined.

(** X21: the CDN latency is classed at least as severely as a time to
    first byte of the same value.  A value that is not a number and
    positive infinity are classed as poor by both functions; negative
    infinity, like every value below the first threshold, is classed as
    excellent by both. *)
Theorem cdn_class_is_stricter (ms : float) :
  (perfRank (perfClass ms) <= perfRank (cdnPerfClass ms))%nat /\
  perfClass nan = "perf-poor"%string /\
  cdnPerfClass nan = "perf-poor"%string /\
  perfClass infinity = "perf-poor"%string /\
  cdnPerfClass infinity = "perf-poor"%string /\
  perfClass neg_infinity = "perf-excellent"%string /\
  cdnPerfClass neg_infinity = "perf-excellent"%string.
Proof.
  split; [|repeat split].
  unfold perfClass, cdnPerfClass.
  destruct (ms <? 50)%float eqn:C1, (ms <? 100)%float eqn:P1,
           (ms <? 150)%float eqn:C2, (ms <? 300)%float eqn:P2,
           (ms <? 500)%float eqn:P3;
    first [solve [vm_compute; lia] | absurd_thresholds].
Qed.

(** *** [safeID] *)

Lemma safeIDFrom_fixed (s : string) (r : bool) :
  safeIDFrom false (safeIDFrom r s) = safeIDFrom r s /\
  (r = true -> safeIDFrom true (safeIDFrom r s) = safeIDFrom r s).
Proof.
  revert r. induction s as [|c s IH]; intros r;
    [split; [reflexivity|intros _; reflexivity]|].
  cbn [safeIDFrom]. destruct (isAlnum c) eqn:Hc.
  - cbn [safeIDFrom]. rewrite Hc. destruct (IH false) as [-> _]. auto.
  - destruct r.
    + apply IH.
    + cbn [safeIDFrom].
      change (isAlnum "-") with false. cbv iota.
      destruct (IH true) as [_ H]. rewrite (H eq_refl).
      split; [reflexivity|discriminate].
Qed.

(** A byte [safeID] may leave in its result. *)
Definition isIDByte (c : ascii) : bool := isAlnum c || Ascii.eqb c "-".

Lemma safeIDFrom_bytes (s : string) (r : bool) :
  forallb isIDByte (list_ascii_of_string (safeIDFrom r s)) = true.
Proof.
  revert r. induction s as [|c s IH]; intros r; [reflexivity|].
  cbn [safeIDFrom]. destruct (isAlnum c) eqn:Hc.
  - cbn [list_ascii_of_string forallb]. unfold isIDByte at 1. rewrite Hc, IH.
    reflexivity.
  - destruct r; [apply IH|]. cbn [list_ascii_of_string forallb].
    rewrite IH. reflexivity.
Qed.

(** No two hyphens in a row. *)
Fixpoint hyphensApart (s : string) : bool :=
  match s with
  | String a ((String b _) as s') =>
      negb (Ascii.eqb a "-" && Ascii.eqb b "-") && hyphensApart s'
  | _ => true
  end.

Lemma isAlnum_not_hyphen (c : ascii) : isAlnum c = true -> Ascii.eqb c "-" = false.
Proof.
  destruct (Ascii.eqb_spec c "-") as [->|_]; [|reflexivity]. discriminate.
Qed.

Lemma safeIDFrom_hyphens (s : string) (r : bool) :
  hyphensApart (safeIDFrom r s) = true /\
  (r = true ->
   match safeIDFrom r s with
   | String a _ => Ascii.eqb a "-" = false
   | EmptyString => True
   end).
Proof.
  revert r. induction s as [|c s IH]; intros r; [split; [reflexivity|exact (fun _ => I)]|].
  cbn [safeIDFrom]. destruct (isAlnum c) eqn:Hc.
  - split; [|intros _; apply isAlnum_not_hyphen, Hc].
    destruct (IH false) as [Hh _].
    cbn [hyphensApart]. destruct (safeIDFrom false s) as [|b t]; [reflexivity|].
    rewrite (isAlnum_not_hyphen c Hc). exact Hh.
  - destruct r; [apply IH|]. split; [|discriminate].
    destruct (IH true) as [Hh Hfirst]. specialize (Hfirst eq_refl).
    cbn [hyphensApart]. destruct (safeIDFrom true s) as [|b t]; [reflexivity|].
    rewrite Hfirst, andb_false_r. exact Hh.
Qed.

Lemma safeIDFrom_alnum (s : string) (r : bool) :
  forallb isAlnum (list_ascii_of_string s) = true -> safeIDFrom r s = s.
Proof.
  revert r. induction s as [|c s IH]; intros r; [reflexivity|].
  cbn [list_ascii_of_string forallb safeIDFrom].
  destruct (isAlnum c); [|discriminate]. intros H. rewrite IH by exact H.
  reflexivity.
Qed.

(** X22: [safeID] returns a string of letters, digits and hyphens with
    no two hyphens in a row; applied to its own result it changes
    nothing; and a string of letters and digits only is returned as it
    is. *)
Theorem safeID_gives_a_normal_form (s : string) :
  forallb isIDByte (list_ascii_of_string (safeID s)) = true /\
  hyphensApart (safeID s) = true /\
  safeID (safeID s) = safeID s /\
  (if forallb isAlnum (list_ascii_of_string s) then safeID s = s else True).
Proof.
  unfold safeID. split; [apply safeIDFrom_bytes|].
  split; [apply safeIDFrom_hyphens|].
  split; [apply safeIDFrom_fixed|].
  destruct (forallb isAlnum (list_ascii_of_string s)) eqn:E; [|exact I].
  apply safeIDFrom_alnum, E.
Qed.

Lemma safeIDFrom_separator (a b : string) (c1 c2 : ascii) (r : bool) :
  isAlnum c1 = false -> isAlnum c2 = false ->
  safeIDFrom r (a ++ String c1 b) = safeIDFrom r (a ++ String c2 b).
Proof.
  intros H1 H2. revert r. induction a as [|c a IH]; intros r.
  - change (safeIDFrom r (String c1 b) = safeIDFrom r (String c2 b)).
    cbn [safeIDFrom]. rewrite H1, H2. reflexivity.
  - change (String c a ++ String c1 b)%string with (String c (a ++ String c1 b)).
    change (String c a ++ String c2 b)%string with (String c (a ++ String c2 b)).
    cbn [safeIDFrom]. rewrite !IH. reflexivity.
Qed.

Lemma append_assoc (a b c : string) : ((a ++ b) ++ c = a ++ (b ++ c))%string.
Proof.
  induction a as [|x a IH]; [reflexivity|].
  change (String x ((a ++ b) ++ c) = String x (a ++ (b ++ c)))%string.
  rewrite IH. reflexivity.
Qed.

(** X23: [safeID] does not tell separators apart, so two endpoints with
    different keys can get the same chart identifier: names that differ
    in one byte outside [a-zA-Z0-9] (a space against a hyphen, say) and
    have the same protocol are kept apart in the result map and in the
    report, and their report keys are sent to the same identifier. *)
Theorem chart_identifiers_can_coincide
    (a b : string) (c1 c2 : ascii) (ip1 ip2 : string) (p : Protocol) :
  isAlnum c1 = false -> isAlnum c2 = false -> c1 <> c2 ->
  let e1 := {| IP := ip1; EndpointProtocol := p; Name := a ++ String c1 b |} in
  let e2 := {| IP := ip2; EndpointProtocol := p; Name := a ++ String c2 b |} in
  resultKey e1 <> resultKey e2 /\
  reportKey e1 <> reportKey e2 /\
  safeID (reportKey e1) = safeID (reportKey e2).
Proof.
  intros H1 H2 Hne e1 e2.
  assert (Hnames : Name e1 <> Name e2).
  { subst e1 e2. cbn [Name]. intros E. apply String.app_inj in E.
    injection E as E. contradiction. }
  split; [|split].
  - intros E. apply resultKey_inj in E as [E _]. contradiction.
  - intros E. apply reportKey_inj in E as [E _]. contradiction.
  - subst e1 e2. unfold safeID, reportKey. cbn [Name EndpointProtocol].
    rewrite !append_assoc.
    change (String c1 b ++ ?x)%string with (String c1 (b ++ x)).
    change (String c2 b ++ ?x)%string with (String c2 (b ++ x)).
    apply safeIDFrom_separator; assumption.
Qed.

Lemma chart_identifiers_can_coincide_witness :
  let e1 := {| IP := "203.0.113.7"; EndpointProtocol := HTTP2; Name := "edge 1" |} in
  let e2 := {| IP := "203.0.113.8"; EndpointProtocol := HTTP2; Name := "edge-1" |} in
  resultKey e1 <> resultKey e2 /\
  reportKey e1 <> reportKey e2 /\
  safeID (reportKey e1) = safeID (reportKey e2).
Proof.
  apply (chart_identifiers_can_coincide "edge" "1" " " "-"
           "203.0.113.7" "203.0.113.8" HTTP2); [reflexivity|reflexivity|discriminate].
Defined.

Example safeID_examples :
  safeID "edge-a (HTTP/1.1)" = "edge-a-HTTP-1-1-"%string /\
  safeID "edge 1 (HTTP/2)" = safeID "edge-1 (HTTP/2)".
Proof. split; reflexivity. Qed.

(* ================================================================= *)
(** ** report.go: the index of [percentile] against exact arithmetic *)

Section IndexBounds.

Local Open Scope Z_scope.

(** Rounding between two integers: when the exact value [M * 2^E] lies
    between an integer [J] and the value [B * 2^eb] of a canonical float
    of non-positive exponent, so does the rounded one.  The grid of the
    result is at least as fine as the integers, so truncating to it
    cannot fall below [J], and rounding up only moves away from it. *)
Lemma binary_round_aux_between (sx : bool) (M E J : Z) (B : positive) (eb : Z) :
  0 < M -> E <= eb -> eb <= 0 ->
  fexp prec emax (Zpos (digits2_pos B) + eb) = eb ->
  M <= Zpos B * 2 ^ (eb - E) ->
  0 <= J -> J * 2 ^ (- E) <= M ->
  match binary_round_aux prec emax sx M E loc_Exact with
  | S754_zero s => s = sx /\ J = 0
  | S754_finite s m e =>
      s = sx /\ e <= eb /\ Zpos m <= Zpos B * 2 ^ (eb - e) /\
      J * 2 ^ (- e) <= Zpos m
  | _ => False
  end.
Proof.
  intros HM HE Heb Hcan Hle HJ Hge.
  unfold binary_round_aux, shr_fexp. simpl shr_record_of_loc.
  set (n1 := fexp prec emax (Zdigits2 M + E) - E).
  destruct (shr_exact_spec M E n1 ltac:(lia)) as (Hm1 & He1 & Hx1).
  destruct (shr (Build_shr_record M false false) E n1) as [R1 e1].
  simpl fst in *; simpl snd in *.
  set (k1 := Z.max n1 0) in *.
  assert (Hp1 : 0 < 2 ^ k1) by (apply Z.pow_pos_nonneg; lia).
  assert (Hd1 : Zdigits2 M + E <= Zpos (digits2_pos B) + eb).
  { pose proof (Zdigits2_le_scaled M B (eb - E)). lia. }
  assert (Hn1 : e1 <= eb). { subst e1 k1 n1. rewrite fexp64_eq in *. lia. }
  set (Kq := Zpos B * 2 ^ (eb - e1)).
  assert (HKq : Kq * 2 ^ k1 = Zpos B * 2 ^ (eb - E)).
  { subst Kq. rewrite <- Z.mul_assoc, <- Z.pow_add_r by lia. f_equal. f_equal. lia. }
  assert (Hmt : 0 <= shr_m R1 <= Kq).
  { rewrite Hm1. split; [apply Z.div_pos; lia|]. apply div_pow2_le; lia. }
  destruct (round_nearest_even_bounds (shr_m R1) (loc_of_shr_record R1)) as [Hr Hrx].
  set (mr := round_nearest_even (shr_m R1) (loc_of_shr_record R1)) in *.
  assert (Hmr : 0 <= mr <= Kq).
  { split; [lia|]. destruct (Z.eq_dec (shr_m R1) Kq) as [Heq|Hne]; [|lia].
    assert (Hdiv : 2 ^ k1 * (M / 2 ^ k1) <= M) by (apply Z.mul_div_le; lia).
    assert (HMeq : M = Kq * 2 ^ k1) by nia.
    rewrite Hrx; [lia|]. apply Hx1. rewrite HMeq. apply Z.mod_mul. lia. }
  set (n2 := fexp prec emax (Zdigits2 mr + e1) - e1).
  destruct (shr_exact_spec mr e1 n2 ltac:(lia)) as (Hm2 & He2 & _).
  destruct (shr (Build_shr_record mr false false) e1 n2) as [R2 e2].
  simpl fst in *; simpl snd in *.
  set (k2 := Z.max n2 0) in *.
  assert (Hp2 : 0 < 2 ^ k2) by (apply Z.pow_pos_nonneg; lia).
  assert (Hd2 : Zdigits2 mr + e1 <= Zpos (digits2_pos B) + eb).
  { pose proof (Zdigits2_le_scaled mr B (eb - e1)). fold Kq in H. lia. }
  assert (Hn2 : e2 <= eb). { subst e2 k2 n2. rewrite fexp64_eq in *. lia. }
  assert (HKq2 : Zpos B * 2 ^ (eb - e2) * 2 ^ k2 = Kq).
  { subst Kq. rewrite <- Z.mul_assoc, <- Z.pow_add_r by lia. f_equal. f_equal. lia. }
  assert (Hmf : 0 <= shr_m R2 <= Zpos B * 2 ^ (eb - e2)).
  { rewrite Hm2. split; [apply Z.div_pos; lia|]. apply div_pow2_le; lia. }
  (* the lower bound *)
  assert (Hk1 : 0 <= k1) by (subst k1; lia).
  assert (Hk2 : 0 <= k2) by (subst k2; lia).
  assert (HJ1 : J * 2 ^ (- e1) <= shr_m R1).
  { rewrite Hm1. apply Z.div_le_lower_bound; [lia|].
    replace (- E) with (- e1 + k1) in Hge by lia.
    rewrite Z.pow_add_r in Hge by lia. lia. }
  assert (HJ2 : J * 2 ^ (- e2) <= shr_m R2).
  { rewrite Hm2. apply Z.div_le_lower_bound; [lia|].
    assert (HJr : J * 2 ^ (- e1) <= mr) by lia.
    replace (- e1) with (- e2 + k2) in HJr by lia.
    rewrite Z.pow_add_r in HJr by lia. lia. }
  assert (Hpe : 0 < 2 ^ (- e2)) by (apply Z.pow_pos_nonneg; lia).
  destruct (shr_m R2) as [|mf|mf]; [split; [reflexivity|nia]| |lia].
  change (Z.sub emax prec) with 971.
  destruct (Z.leb_spec e2 971); [|lia].
  split; [reflexivity|]. split; [lia|]. split; lia.
Qed.

(** The mantissa of the binary64 image of a positive integer has 53
    digits. *)
Lemma canonical_integer_mantissa (K : Z) (mx : positive) (ex : Z) :
  0 < K -> ex <= 0 -> Zpos mx = K * 2 ^ (- ex) ->
  fexp prec emax (Zpos (digits2_pos mx) + ex) = ex ->
  2 ^ 52 <= Zpos mx < 2 ^ 53.
Proof.
  intros HK Hex Hmx Hcan. rewrite fexp64_eq in Hcan.
  destruct (digits2_pos_bounds mx) as [Hl Hh].
  set (d := Zpos (digits2_pos mx)) in *.
  assert (Hd : 1 <= d <= 53) by (subst d; lia).
  assert (Hup : Zpos mx < 2 ^ 53).
  { assert (2 ^ d <= 2 ^ 53) by (apply Z.pow_le_mono_r; lia). lia. }
  split; [|exact Hup].
  destruct (Z.eq_dec d 53) as [E|E]; [rewrite E in Hl; exact Hl|exfalso].
  assert (Hex' : ex = -1074) by lia.
  assert (Hbig : 2 ^ 53 <= 2 ^ (- ex)) by (apply Z.pow_le_mono_r; lia).
  nia.
Qed.

(** The index of [percentile] lies between any two integers that bracket
    the exact product of [K] and the value [mp * 2^ep] of [p]. *)
Lemma index_between (K : Z) (p : float) (mp : positive) (ep lo hi : Z) :
  0 < K < 2 ^ 53 ->
  Prim2SF p = S754_finite false mp ep -> ep <= 0 ->
  0 <= lo -> hi < 2 ^ 53 ->
  lo * 2 ^ (- ep) <= K * Zpos mp -> K * Zpos mp <= hi * 2 ^ (- ep) ->
  exists i, float64_to_int (float64_of_int K * p) = Some i /\ lo <= i <= hi.
Proof.
  intros HK Hp Hep Hlo Hhi Hlow Hupp.
  assert (H2 : 0 < 2 ^ (- ep)) by (apply Z.pow_pos_nonneg; lia).
  assert (Hhi0 : 0 < hi) by nia.
  rewrite float64_of_int_nonneg by lia.
  unfold float64_to_int. rewrite FloatAxioms.mul_spec, Hp.
  destruct (Prim2SF_of_uint63 K ltac:(lia)) as (mx & ex & Hx & Hex & Hmx & Hcan).
  destruct (Prim2SF_of_uint63 hi ltac:(lia)) as (mh & eh & _ & Heh & Hmh & Hcanh).
  rewrite Hx. unfold SF64mul, SFmul. cbn [xorb].
  assert (Hpx : 0 < 2 ^ (- ex)) by (apply Z.pow_pos_nonneg; lia).
  assert (Hph : 0 < 2 ^ (- eh)) by (apply Z.pow_pos_nonneg; lia).
  (* the exponent of the product is below that of [hi] *)
  assert (HE : ex + ep <= eh).
  { destruct (canonical_integer_mantissa K mx ex ltac:(lia) Hex Hmx Hcan) as [Hxl _].
    destruct (canonical_integer_mantissa hi mh eh Hhi0 Heh Hmh Hcanh) as [_ Hhh].
    destruct (Z_le_gt_dec (ex + ep) eh) as [|Hgt]; [assumption|exfalso].
    assert (Et : - eh = (- ep + - ex) + (ex + ep - eh)) by lia.
    rewrite Et, !Z.pow_add_r in Hmh by lia.
    assert (Ht : 2 <= 2 ^ (ex + ep - eh)).
    { change 2 with (2 ^ 1) at 1. apply Z.pow_le_mono_r; lia. }
    assert (HKhi : K * 2 ^ (- ex) <= hi * 2 ^ (- ep) * 2 ^ (- ex)) by nia.
    nia. }
  pose proof (binary_round_aux_between false (Zpos (mx * mp)) (ex + ep) lo mh eh
                ltac:(lia) HE Heh Hcanh) as Hb.
  assert (Hupper : Zpos (mx * mp) <= Zpos mh * 2 ^ (eh - (ex + ep))).
  { rewrite Pos2Z.inj_mul, Hmx, Hmh.
    assert (E1 : 2 ^ (- eh) * 2 ^ (eh - (ex + ep)) = 2 ^ (- ex) * 2 ^ (- ep)).
    { rewrite <- !Z.pow_add_r by lia. f_equal. lia. }
    replace (hi * 2 ^ (- eh) * 2 ^ (eh - (ex + ep)))
      with (hi * (2 ^ (- ex) * 2 ^ (- ep))) by (rewrite <- E1; ring).
    assert (Hm : K * Zpos mp * 2 ^ (- ex) <= hi * 2 ^ (- ep) * 2 ^ (- ex))
      by (apply Z.mul_le_mono_nonneg_r; lia).
    lia. }
  assert (Hlower : lo * 2 ^ (- (ex + ep)) <= Zpos (mx * mp)).
  { rewrite Pos2Z.inj_mul, Hmx.
    replace (- (ex + ep)) with (- ex + - ep) by lia.
    rewrite Z.pow_add_r by lia. nia. }
  specialize (Hb Hupper Hlo Hlower).
  destruct (binary_round_aux prec emax false (Zpos (mx * mp)) (ex + ep) loc_Exact)
    as [s|s| |s m e]; try contradiction.
  - destruct Hb as [_ ->]. exists 0. split; [reflexivity|lia].
  - destruct Hb as (-> & He & Hm & Hml). cbn [cond_Zopp].
    rewrite shiftl_nonpos_exp by lia.
    assert (H3 : 0 < 2 ^ (- e)) by (apply Z.pow_pos_nonneg; lia).
    assert (Hq : lo <= Zpos m / 2 ^ (- e) <= hi).
    { split; [apply Z.div_le_lower_bound; lia|]. apply div_pow2_le; [lia|].
      rewrite Hmh in Hm. rewrite <- Z.mul_assoc, <- Z.pow_add_r in Hm by lia.
      replace (- eh + (eh - e)) with (- e) in Hm by lia. exact Hm. }
    exists (Zpos m / 2 ^ (- e)). split; [|exact Hq].
    assert (Hlo' : (- 2 ^ 63 <=? Zpos m / 2 ^ (- e)) = true) by (apply Z.leb_le; lia).
    assert (Hhi' : (Zpos m / 2 ^ (- e) <? 2 ^ 63) = true) by (apply Z.ltb_lt; lia).
    rewrite Hlo', Hhi'. reflexivity.
Qed.

End IndexBounds.

Section IndexFacts.

Local Open Scope Z_scope.

(** The index for a [p] in the unit interval whose binary64 value is
    [mp * 2^ep]: the floor of the exact product, or one more. *)
Lemma index_floor_or_next (K : Z) (p : float) (mp : positive) (ep : Z) :
  0 <= K < 2 ^ 53 ->
  Prim2SF p = S754_finite false mp ep -> (p <=? 1)%float = true ->
  exists i, float64_to_int (float64_of_int K * p) = Some i /\
            (i = K * Zpos mp / 2 ^ (- ep) \/ i = K * Zpos mp / 2 ^ (- ep) + 1) /\
            0 <= i <= K.
Proof.
  intros HK Hp Hp1.
  assert (Hp0 : (0 <=? p)%float = true).
  { rewrite FloatAxioms.leb_spec, Hp. reflexivity. }
  destruct (unit_interval_shape p Hp0 Hp1) as [[s Hs]|(mp' & ep' & Hs & Hep & Hmp)];
    rewrite Hp in Hs; [discriminate|].
  injection Hs as <- <-.
  assert (H2 : 0 < 2 ^ (- ep)) by (apply Z.pow_pos_nonneg; lia).
  set (q := K * Zpos mp / 2 ^ (- ep)).
  assert (Hq1 : 2 ^ (- ep) * q <= K * Zpos mp) by (apply Z.mul_div_le; lia).
  assert (Hq2 : K * Zpos mp < 2 ^ (- ep) * Z.succ q)
    by (apply Z.mul_succ_div_gt; lia).
  assert (Hq0 : 0 <= q) by (apply Z.div_pos; lia).
  assert (HqK : q <= K) by (apply Z.div_le_upper_bound; nia).
  assert (HK0 : K = 0 \/ 0 < K) by lia. destruct HK0 as [->|HK0].
  - destruct (index_in_range 0 p ltac:(lia) Hp0 Hp1) as (i & Hi & Hr).
    exists i. split; [exact Hi|]. split; [|lia]. left. lia.
  - destruct (index_between K p mp ep q (Z.min (q + 1) K) ltac:(lia) Hp Hep
                Hq0 ltac:(lia) ltac:(lia))
      as (i & Hi & Hr).
    + destruct (Z.min_spec (q + 1) K) as [[_ ->]|[_ ->]]; nia.
    + exists i. split; [exact Hi|]. split; lia.
Qed.

(** The four indexes [calculateSummary] asks for, in order. *)
Definition orderedIndexes (K : Z) : bool :=
  match float64_to_int (float64_of_int K * 0.50),
        float64_to_int (float64_of_int K * 0.90),
        float64_to_int (float64_of_int K * 0.95),
        float64_to_int (float64_of_int K * 0.99) with
  | Some a, Some b, Some c, Some d =>
      (0 <=? a) && (a <=? b) && (b <=? c) && (c <=? d) && (d <=? K)
  | _, _, _, _ => false
  end.

Lemma orderedIndexes_small :
  forallb orderedIndexes (map Z.of_nat (seq 0 26)) = true.
Proof. vm_compute. reflexivity. Qed.

Lemma orderedIndexes_all (K : Z) : 0 <= K < 2 ^ 53 -> orderedIndexes K = true.
Proof.
  intros HK. destruct (Z_lt_ge_dec K 26) as [Hsmall|Hbig].
  - pose proof orderedIndexes_small as H. rewrite forallb_forall in H.
    apply H. rewrite <- (Z2Nat.id K) by lia. apply in_map, in_seq. lia.
  - unfold orderedIndexes.
    set (J1 := K * 8106479329266893 / 9007199254740992).
    set (J2 := K * 8556839292003942 / 9007199254740992).
    set (J3 := K * 8917127262193582 / 9007199254740992).
    assert (A1 : 9007199254740992 * J1 <= K * 8106479329266893)
      by (apply Z.mul_div_le; lia).
    assert (B1 : K * 8106479329266893 < 9007199254740992 * Z.succ J1)
      by (apply Z.mul_succ_div_gt; lia).
    assert (A2 : 9007199254740992 * J2 <= K * 8556839292003942)
      by (apply Z.mul_div_le; lia).
    assert (B2 : K * 8556839292003942 < 9007199254740992 * Z.succ J2)
      by (apply Z.mul_succ_div_gt; lia).
    assert (A3 : 9007199254740992 * J3 <= K * 8917127262193582)
      by (apply Z.mul_div_le; lia).
    assert (B3 : K * 8917127262193582 < 9007199254740992 * Z.succ J3)
      by (apply Z.mul_succ_div_gt; lia).
    destruct (index_between K 0.50 4503599627370496 (-53) 0 J1 ltac:(lia)
                eq_refl ltac:(lia) ltac:(lia) ltac:(lia))
      as (a & -> & Ha);
      [change (2 ^ (- -53)) with 9007199254740992; lia
      |change (2 ^ (- -53)) with 9007199254740992; lia|].
    destruct (index_between K 0.90 8106479329266893 (-53) J1 J2 ltac:(lia)
                eq_refl ltac:(lia) ltac:(lia) ltac:(lia))
      as (b & -> & Hb);
      [change (2 ^ (- -53)) with 9007199254740992; lia
      |change (2 ^ (- -53)) with 9007199254740992; lia|].
    destruct (index_between K 0.95 8556839292003942 (-53) J2 J3 ltac:(lia)
                eq_refl ltac:(lia) ltac:(lia) ltac:(lia))
      as (c & -> & Hc);
      [change (2 ^ (- -53)) with 9007199254740992; lia
      |change (2 ^ (- -53)) with 9007199254740992; lia|].
    destruct (index_between K 0.99 8917127262193582 (-53) J3 K ltac:(lia)
                eq_refl ltac:(lia) ltac:(lia) ltac:(lia))
      as (d & -> & Hd);
      [change (2 ^ (- -53)) with 9007199254740992; lia
      |change (2 ^ (- -53)) with 9007199254740992; lia|].
    repeat (apply andb_true_intro; split); apply Z.leb_le; lia.
Qed.

End IndexFacts.

(** X24: for a fraction [p] of the unit interval the index [percentile]
    reads is the floor of the exact product of [len - 1] and the binary64
    value [mp * 2^ep] of [p], or that floor plus one (when the product
    rounds up to the next integer); it never exceeds [len - 1], and the
    result is the element of the sorted copy at that index. *)
Theorem index_is_exact_floor_or_next
    (Float64s : list float -> list float) (values : list float)
    (p : float) (mp : positive) (ep : Z) :
  values <> [] -> (Z.of_nat (length values) < 2 ^ 53)%Z ->
  Prim2SF p = S754_finite false mp ep -> (p <=? 1)%float = true ->
  let K := (Z.of_nat (length values) - 1)%Z in
  let q := (K * Zpos mp / 2 ^ (- ep))%Z in
  exists i,
    float64_to_int (float64_of_int K * p) = Some i /\
    (i = q \/ i = q + 1)%Z /\ (0 <= i <= K)%Z /\
    percentile Float64s values p = Float64s values !! Z.to_nat i.
Proof.
  intros Hne Hlen Hp Hp1 K q. subst K q.
  destruct values as [|v0 vs]; [contradiction|].
  destruct (index_floor_or_next (Z.of_nat (length (v0 :: vs)) - 1) p mp ep
              ltac:(simpl length in *; lia) Hp Hp1) as (i & Hi & Hq & Hr).
  exists i. split; [exact Hi|]. split; [exact Hq|]. split; [exact Hr|].
  unfold percentile. rewrite Hi.
  destruct (Z.ltb_spec i 0); [lia|reflexivity].
Qed.

Lemma index_is_exact_floor_or_next_witness :
  let K := (Z.of_nat (length scenarioA) - 1)%Z in
  let q := (K * 8106479329266893 / 2 ^ (- -53))%Z in
  exists i,
    float64_to_int (float64_of_int K * 0.90) = Some i /\
    (i = q \/ i = q + 1)%Z /\ (0 <= i <= K)%Z /\
    percentile sortFloat64s scenarioA 0.90
    = sortFloat64s scenarioA !! Z.to_nat i.
Proof.
  apply (index_is_exact_floor_or_next sortFloat64s scenarioA 0.90
           8106479329266893 (-53));
    [discriminate|reflexivity|reflexivity|reflexivity].
Defined.

Section PercentileOrder.

Variable Float64s : list float -> list float.
Hypothesis Float64s_sorted : forall l, StronglySorted float_le (Float64s l).

(** The four percentiles of a list, in the order of the sort. *)
Lemma percentiles_in_order (values : list float) (a b c d : float) :
  (Z.of_nat (length values) < 2 ^ 53)%Z ->
  percentile Float64s values 0.50 = Some a ->
  percentile Float64s values 0.90 = Some b ->
  percentile Float64s values 0.95 = Some c ->
  percentile Float64s values 0.99 = Some d ->
  float_le a b /\ float_le b c /\ float_le c d.
Proof.
  intros Hlen. destruct values as [|v0 vs].
  - simpl. intros [= <-] [= <-] [= <-] [= <-].
    repeat split; apply float_le_refl.
  - pose proof (orderedIndexes_all (Z.of_nat (length (v0 :: vs)) - 1)
                  ltac:(simpl length in *; lia)) as Hord.
    unfold orderedIndexes in Hord. unfold percentile.
    destruct (float64_to_int (_ * 0.50)) as [ia|]; [|discriminate].
    destruct (float64_to_int (_ * 0.90)) as [ib|]; [|discriminate].
    destruct (float64_to_int (_ * 0.95)) as [ic|]; [|discriminate].
    destruct (float64_to_int (_ * 0.99)) as [id|]; [|discriminate].
    repeat (apply andb_prop in Hord as [Hord ?]).
    repeat match goal with H : (_ <=? _)%Z = true |- _ => apply Z.leb_le in H end.
    destruct (Z.ltb_spec ia 0); [lia|]. destruct (Z.ltb_spec ib 0); [lia|].
    destruct (Z.ltb_spec ic 0); [lia|]. destruct (Z.ltb_spec id 0); [lia|].
    intros Ha Hb Hc Hd.
    repeat split;
      eapply (StronglySorted_lookup_le (Float64s (v0 :: vs)));
      try apply Float64s_sorted; try eassumption; lia.
Qed.

End PercentileOrder.

(** X25: in every summary with a success the percentiles are in order,
    P50, P90, P95, P99, for the time to first byte and for the CDN
    latency, whatever the number of samples: the order is that of
    [sort.Float64s], which is [<=] on values that are numbers. *)
Theorem percentiles_are_ordered
    (Float64s : list float -> list float)
    (endpoint : Endpoint) (rs : list RequestResult) :
  (forall l, Float64s l ≡ₚ l) ->
  (forall l, StronglySorted float_le (Float64s l)) ->
  (Z.of_nat (length rs) < 2 ^ 53)%Z ->
  (exists r, r ∈ rs /\ succeeded r) ->
  exists s,
    outcome (calculateSummary Float64s endpoint rs) = Some s /\
    float_le (TTFBP50 s) (TTFBP90 s) /\ float_le (TTFBP90 s) (TTFBP95 s) /\
    float_le (TTFBP95 s) (TTFBP99 s) /\
    float_le (CDNLatencyP50 s) (CDNLatencyP90 s) /\
    float_le (CDNLatencyP90 s) (CDNLatencyP95 s) /\
    float_le (CDNLatencyP95 s) (CDNLatencyP99 s).
Proof.
  intros Hperm Hsorted Hlen (r & Hr & Hs).
  assert (Hne : ttfbValues (tally rs) <> []).
  { unfold tally. rewrite tally_ttfbValues. simpl. intros E.
    apply fmap_nil_inv in E.
    assert (Hin : r ∈ filter succeeded rs) by (apply list_elem_of_filter; auto).
    rewrite E in Hin. apply elem_of_nil in Hin. exact Hin. }
  destruct (calculateSummary_fields Float64s Hperm endpoint rs Hlen Hne)
    as (s & t0 & c0 & Hout & _ & _ & _ & _ & _ & _ & _ & _ & _ & _ & _
        & P1 & P2 & P3 & P4 & P5 & P6 & P7 & P8).
  destruct (tally_lengths rs) as [Hl Hle].
  exists s. split; [exact Hout|].
  destruct (percentiles_in_order Float64s Hsorted (ttfbValues (tally rs))
              _ _ _ _ ltac:(lia) P1 P2 P3 P4) as (T1 & T2 & T3).
  destruct (percentiles_in_order Float64s Hsorted (cdnLatencyValues (tally rs))
              _ _ _ _ ltac:(lia) P5 P6 P7 P8) as (C1 & C2 & C3).
  repeat split; assumption.
Qed.

Lemma percentiles_are_ordered_witness :
  exists s,
    outcome (calculateSummary sortFloat64s zeroEndpoint scenarioC) = Some s /\
    float_le (TTFBP50 s) (TTFBP90 s) /\ float_le (TTFBP90 s) (TTFBP95 s) /\
    float_le (TTFBP95 s) (TTFBP99 s) /\
    float_le (CDNLatencyP50 s) (CDNLatencyP90 s) /\
    float_le (CDNLatencyP90 s) (CDNLatencyP95 s) /\
    float_le (CDNLatencyP95 s) (CDNLatencyP99 s).
Proof.
  refine (percentiles_are_ordered sortFloat64s zeroEndpoint scenarioC
            sortFloat64s_perm sortFloat64s_sorted _ _).
  - vm_compute. reflexivity.
  - eexists. split;
      [eapply (list_elem_of_lookup_2 _ 0%nat); vm_compute; reflexivity
      |reflexivity].
Defined.

(* ================================================================= *)
(** ** report.go: means and table rows *)

Lemma stats_sum (values : list float) (sum vmin vmax : float) :
  fst (fst (foldl stats_step (sum, vmin, vmax) values))
  = foldl (fun acc v => (acc + v)%float) sum values.
Proof.
  revert sum vmin vmax. induction values as [|v values IH]; intros sum vmin vmax.
  - reflexivity.
  - cbn [foldl]. unfold stats_step at 2. apply IH.
Qed.

Lemma tally_xResponseTimeSum (rs : list RequestResult) (t : Tally) :
  xResponseTimeSum (foldl tally_step t rs)
  = foldl (fun acc v => (acc + v)%float) (xResponseTimeSum t)
          (map XResponseTime (filter succeeded rs)).
Proof.
  revert t. induction rs as [|r rs IH]; intros t; cbn [foldl].
  - reflexivity.
  - rewrite IH. destruct (decide (succeeded r)) as [Hs|Hs].
    + rewrite filter_cons_True by exact Hs.
      rewrite tally_step_succeeded by exact Hs. reflexivity.
    + rewrite filter_cons_False by exact Hs.
      rewrite tally_step_failed by exact Hs. reflexivity.
Qed.

(** The sum of a list as the loops take it: from zero, left to right. *)
Definition sumOf (values : list float) : float :=
  foldl (fun acc v => (acc + v)%float) 0%float values.

(** X26: the three means of a summary are sums taken from zero in
    sample order over the successful samples, divided by the number of
    successful samples.  The origin mean in particular is taken over
    all successes: a success without an origin time enters it as
    zero. *)
Theorem means_are_taken_over_successes
    (Float64s : list float -> list float)
    (endpoint : Endpoint) (rs : list RequestResult) :
  (forall l, Float64s l ≡ₚ l) ->
  (Z.of_nat (length rs) < 2 ^ 53)%Z ->
  (exists r, r ∈ rs /\ succeeded r) ->
  let successes := filter succeeded rs in
  let n := float64_of_int (Z.of_nat (length successes)) in
  exists s,
    outcome (calculateSummary Float64s endpoint rs) = Some s /\
    TTFBAvg s = (sumOf (map (fun r => ttfbMs (TTFB r)) successes) / n)%float /\
    CDNLatencyAvg s = (sumOf (map CDNLatency successes) / n)%float /\
    XResponseTimeAvg s = (sumOf (map XResponseTime successes) / n)%float.
Proof.
  intros Hperm Hlen (r & Hr & Hs) successes n. subst successes n.
  assert (HT : ttfbValues (tally rs)
               = map (fun r => ttfbMs (TTFB r)) (filter succeeded rs))
    by (unfold tally; rewrite tally_ttfbValues; reflexivity).
  assert (HC : cdnLatencyValues (tally rs) = map CDNLatency (filter succeeded rs))
    by (unfold tally; rewrite tally_cdnLatencyValues; reflexivity).
  assert (HX : xResponseTimeSum (tally rs)
               = sumOf (map XResponseTime (filter succeeded rs)))
    by (unfold tally; rewrite tally_xResponseTimeSum; reflexivity).
  assert (Hne : ttfbValues (tally rs) <> []).
  { rewrite HT. intros E. apply fmap_nil_inv in E.
    assert (Hin : r ∈ filter succeeded rs) by (apply list_elem_of_filter; auto).
    rewrite E in Hin. apply elem_of_nil in Hin. exact Hin. }
  destruct (calculateSummary_fields Float64s Hperm endpoint rs Hlen Hne)
    as (s & t0 & c0 & Hout & _ & _ & _ & _ & _ & _ & Hta & _ & _ & Hca & Hxa & _).
  exists s. split; [exact Hout|].
  rewrite Hta, Hca, Hxa, HX. unfold stats. rewrite !stats_sum.
  rewrite HT, HC, !length_map. repeat split.
Qed.

Lemma means_are_taken_over_successes_witness :
  let successes := filter succeeded scenarioC in
  let n := float64_of_int (Z.of_nat (length successes)) in
  exists s,
    outcome (calculateSummary sortFloat64s zeroEndpoint scenarioC) = Some s /\
    TTFBAvg s = (sumOf (map (fun r => ttfbMs (TTFB r)) successes) / n)%float /\
    CDNLatencyAvg s = (sumOf (map CDNLatency successes) / n)%float /\
    XResponseTimeAvg s = (sumOf (map XResponseTime successes) / n)%float.
Proof.
  refine (means_are_taken_over_successes sortFloat64s zeroEndpoint scenarioC
            sortFloat64s_perm _ _).
  - vm_compute. reflexivity.
  - eexists. split;
      [eapply (list_elem_of_lookup_2 _ 0%nat); vm_compute; reflexivity
      |reflexivity].
Defined.

(** X27: every row of the two console tables has as many cells as the
    table has columns, seven for the detail table and fourteen for the
    summary table, whether or not the summary carries CDN data.  The
    last cell of a detail row is the error text of the sample as it is,
    and the row of a failed request shows the zero sample: status 0,
    no reuse, and zero in the three timing cells. *)
Theorem table_rows_match_headers
    (Sprintf_2f : float -> string) (Sprintf_d : Z -> string)
    (TrimSpace : string -> string) (ParseFloat : string -> option float)
    (client : Client) (url domain err : string)
    (r : RequestResult) (s : Summary) :
  length (detailRow Sprintf_2f Sprintf_d r) = length detailHeader /\
  last (detailRow Sprintf_2f Sprintf_d r) = Some (Error r) /\
  length (summaryRow Sprintf_2f Sprintf_d s) = length summaryHeader /\
  detailRow Sprintf_2f Sprintf_d
    (measureRequest TrimSpace ParseFloat client url domain (DoFailed err))
  = [Sprintf_d 0%Z; Sprintf_d 0%Z; "No"%string; Sprintf_2f (0 / 1000)%float;
     Sprintf_2f 0%float; Sprintf_2f 0%float; ("请求失败: " ++ err)%string].
Proof.
  split; [reflexivity|]. split; [|split].
  - unfold detailRow. cbn [last]. simpl.
    destruct (String.eqb_spec (Error r) "") as [->|_]; reflexivity.
  - unfold summaryRow, cdnCells. destruct (HasCDN s); reflexivity.
  - reflexivity.
Qed.

(* ================================================================= *)
(** ** report.go: [percentile] as a nearest-rank rule *)

(** The floor of the exact product of [K] and the value of [p], a
    binary64 number [m * 2^e]. *)
Definition exactFloor (K : Z) (p : float) : Z :=
  match Prim2SF p with
  | S754_finite s m e => Z.shiftl (K * cond_Zopp s (Zpos m)) e
  | _ => 0%Z
  end.

(** The values 0, 1, ..., n-1. *)
Definition ramp (n : nat) : list float :=
  map (fun i => float64_of_int (Z.of_nat i)) (seq 0 n).

(** C1, as stated, fails: the index is taken from a float64 product and
    is not always the floor of the product.  With 11 values and p = 0.7
    (the binary64 number just below 7/10) the exact product is just
    below 7 and its floor is 6, and the code reads index 7; with 101
    values and p = 0.57 the floor of the decimal product 57 is 57, and
    the code reads index 56. *)
Lemma index_differs_from_floor :
  percentile sortFloat64s (ramp 11) 0.7 = Some 7%float /\
  exactFloor 10 0.7 = 6%Z /\
  sortFloat64s (ramp 11) !! Z.to_nat (exactFloor 10 0.7) = Some 6%float /\
  percentile sortFloat64s (ramp 101) 0.57 = Some 56%float /\
  sortFloat64s (ramp 101) !! Z.to_nat (100 * 57 / 100) = Some 57%float.
Proof. repeat split; vm_compute; reflexivity. Qed.

Lemma exactFloor_unit (K : Z) (p : float) (mp : positive) (ep : Z) :
  Prim2SF p = S754_finite false mp ep -> (ep <= 0)%Z ->
  exactFloor K p = (K * Zpos mp / 2 ^ (- ep))%Z.
Proof.
  intros Hp Hep. unfold exactFloor. rewrite Hp. cbn [cond_Zopp].
  apply shiftl_nonpos_exp. exact Hep.
Qed.

(** C1 (amended): for a non-empty list of fewer than 2^53 values and a
    fraction p in [0, 1], [percentile] returns the element of the
    ascending-sorted values at the zero-based index
    int(float64(count-1) * p).  That index is within the list and is the
    floor of the exact product of count-1 and the binary64 value of p,
    or that floor plus one (when the float64 product rounds up to the
    next integer).  For p = 0 it is the first element, the minimum, and
    for p = 1 the last one, the maximum (in the order that puts NaN
    first, which is [<=] on values that are not NaN). *)
Theorem percentile_nearest_rank
    (Float64s : list float -> list float)
    (Float64s_perm : forall l, Float64s l ≡ₚ l)
    (Float64s_sorted : forall l, StronglySorted float_le (Float64s l))
    (values : list float) (p : float) :
  values <> [] -> (Z.of_nat (length values) < 2 ^ 53)%Z ->
  (0 <=? p)%float = true -> (p <=? 1)%float = true ->
  let K := (Z.of_nat (length values) - 1)%Z in
  exists (index : nat) (v : float),
    float64_to_int (float64_of_int K * p)%float = Some (Z.of_nat index) /\
    (index < length values)%nat /\
    (Z.of_nat index = exactFloor K p \/ Z.of_nat index = (exactFloor K p + 1)%Z) /\
    Float64s values !! index = Some v /\
    percentile Float64s values p = Some v /\
    v ∈ values /\
    ((p =? 0)%float = true ->
       index = 0%nat /\ Forall (float_le v) values /\
       (Forall (fun w => isNaN w = false) values ->
        Forall (fun w => (v <=? w)%float = true) values)) /\
    (p = 1%float ->
       index = (length values - 1)%nat /\
       Forall (fun w => float_le w v) values /\
       (Forall (fun w => isNaN w = false) values ->
        Forall (fun w => (w <=? v)%float = true) values)).
Proof.
  intros Hne Hlen Hp0 Hp1 K.
  destruct (percentile_at_index Float64s Float64s_perm values p Hne Hlen Hp0 Hp1)
    as (i & v & Hi & Hlt & Hv & Hpc). fold K in Hi.
  pose proof (sorted_elem_of Float64s Float64s_perm values i v Hv) as Hin.
  assert (HK : (0 <= K < 2 ^ 53)%Z).
  { subst K. destruct values; [contradiction|]. simpl length in *. lia. }
  exists i, v. split; [exact Hi|]. split; [exact Hlt|]. split.
  { destruct (unit_interval_shape p Hp0 Hp1) as [[s Hs]|(mp & ep & Hs & Hep & _)].
    - assert (Hz : (p =? 0)%float = true).
      { rewrite FloatAxioms.eqb_spec, Hs. reflexivity. }
      rewrite (index_at_zero K p HK Hz) in Hi.
      left. unfold exactFloor. rewrite Hs. injection Hi as <-. reflexivity.
    - destruct (index_floor_or_next K p mp ep HK Hs Hp1) as (i' & Hi' & Hq & _).
      rewrite Hi in Hi'. injection Hi' as <-.
      rewrite (exactFloor_unit K p mp ep Hs Hep). exact Hq. }
  repeat (split; [assumption|]). split.
  - intros Hz.
    rewrite (index_at_zero K p HK Hz) in Hi.
    assert (i = 0%nat) by (injection Hi; lia). subst i.
    pose proof (sorted_first_is_min Float64s Float64s_perm Float64s_sorted
                  values v Hv) as Hmin.
    split; [reflexivity|]. split; [exact Hmin|].
    intros Hnan. rewrite Forall_forall in Hmin, Hnan |- *.
    intros w Hw. apply float_le_leb; auto.
  - intros ->.
    rewrite (index_at_one K HK) in Hi.
    assert (i = (length values - 1)%nat) by (injection Hi; lia). subst i.
    pose proof (sorted_last_is_max Float64s Float64s_perm Float64s_sorted
                  values v Hv) as Hmax.
    split; [reflexivity|]. split; [exact Hmax|].
    intros Hnan. rewrite Forall_forall in Hmax, Hnan |- *.
    intros w Hw. apply float_le_leb; auto.
Qed.

Lemma percentile_nearest_rank_witness :
  let K := (Z.of_nat (length (ramp 11)) - 1)%Z in
  exists (index : nat) (v : float),
    float64_to_int (float64_of_int K * 0.7)%float = Some (Z.of_nat index) /\
    (index < length (ramp 11))%nat /\
    (Z.of_nat index = exactFloor K 0.7 \/
     Z.of_nat index = (exactFloor K 0.7 + 1)%Z) /\
    sortFloat64s (ramp 11) !! index = Some v /\
    percentile sortFloat64s (ramp 11) 0.7%float = Some v /\
    v ∈ ramp 11 /\
    ((0.7 =? 0)%float = true ->
       index = 0%nat /\ Forall (float_le v) (ramp 11) /\
       (Forall (fun w => isNaN w = false) (ramp 11) ->
        Forall (fun w => (v <=? w)%float = true) (ramp 11))) /\
    (0.7%float = 1%float ->
       index = (length (ramp 11) - 1)%nat /\
       Forall (fun w => float_le w v) (ramp 11) /\
       (Forall (fun w => isNaN w = false) (ramp 11) ->
        Forall (fun w => (w <=? v)%float = true) (ramp 11))).
Proof.
  refine (percentile_nearest_rank sortFloat64s sortFloat64s_perm
            sortFloat64s_sorted (ramp 11) 0.7%float _ _ eq_refl eq_refl).
  - discriminate.
  - vm_compute. reflexivity.
Defined.
